(** * Interactive map: location markers, profile cache, search and mutations

    A shallow embedding of [src/js/index.js] (with the notification helpers of
    [src/js/utils.js]) and the verification of its specification.  The
    last parts add the remaining handlers of [index.js], the error messages
    of [utils.js] and the service worker ([src/unnamed/part_000]), with
    properties read off the code.

    - JavaScript strings are [string]s of bytes (UTF-8); the case and
      white-space functions below cover ASCII, other bytes pass unchanged.
    - The closure variables of the [DOMContentLoaded] handler, the form
      fields it reads and the module-level profile cache form one [State].
    - Every [await] of a backend call is a request to an oracle [Backend]
      indexed by the number of requests issued so far; a rejected promise
      and a thrown exception are the outcome [Throw].  Each handler runs
      to completion: interleaving of handlers at [await] points is not
      modelled. *)

From Stdlib Require Import ZArith Ascii String List Bool Lia.
From stdpp Require Import gmap strings pretty.
Import ListNotations.

Local Open Scope string_scope.
Local Open Scope Z_scope.

(** ** JavaScript values and built-ins *)

Module Js.

(** The double quote and the line feed, for the template literals. *)
Definition dq : string := String "034"%char EmptyString.
Definition nl : string := String "010"%char EmptyString.

(** [!!s] for a string: the empty string is the only falsy one. *)
Definition truthy (s : string) : bool :=
  match s with EmptyString => false | String _ _ => true end.

(** [o || d] for a field that is a string or missing. *)
Definition orElse (o : option string) (d : string) : string :=
  match o with
  | Some s => if truthy s then s else d
  | None => d
  end.

Definition isUpper (c : ascii) : bool :=
  let n := nat_of_ascii c in ((65 <=? n) && (n <=? 90))%nat.

Definition lowerChar (c : ascii) : ascii :=
  if isUpper c then ascii_of_nat (nat_of_ascii c + 32) else c.

(** [String.prototype.toLowerCase]. *)
Fixpoint toLowerCase (s : string) : string :=
  match s with
  | EmptyString => EmptyString
  | String c s' => String (lowerChar c) (toLowerCase s')
  end.

(** White space and line terminators: TAB, LF, VT, FF, CR, SP. *)
Definition isWhite (c : ascii) : bool :=
  let n := nat_of_ascii c in
  (((9 <=? n) && (n <=? 13)) || (n =? 32))%nat.

Fixpoint trimStart (s : string) : string :=
  match s with
  | EmptyString => EmptyString
  | String c s' => if isWhite c then trimStart s' else s
  end.

Fixpoint trimEnd (s : string) : string :=
  match s with
  | EmptyString => EmptyString
  | String c s' =>
      let r := trimEnd s' in
      if isWhite c && negb (truthy r) then EmptyString else String c r
  end.

(** [String.prototype.trim]. *)
Definition trim (s : string) : string := trimEnd (trimStart s).

Fixpoint startsWith (s p : string) {struct p} : bool :=
  match p with
  | EmptyString => true
  | String a p' =>
      match s with
      | EmptyString => false
      | String b s' => Ascii.eqb a b && startsWith s' p'
      end
  end.

(** [s.includes(t)]. *)
Fixpoint includes (s t : string) : bool :=
  startsWith s t ||
  match s with
  | EmptyString => false
  | String _ s' => includes s' t
  end.

(** [s.split(sep)] for a non-empty separator.  [skip] counts the
    characters of a separator just matched that are still to be dropped,
    [acc] is the current piece. *)
Fixpoint splitFrom (sep : string) (skip : nat) (acc : string) (s : string)
  : list string :=
  match skip with
  | S k =>
      match s with
      | EmptyString => [acc]
      | String _ s' => splitFrom sep k acc s'
      end
  | O =>
      match s with
      | EmptyString => [acc]
      | String c s' =>
          if startsWith s sep
          then acc :: splitFrom sep (String.length sep - 1) EmptyString s'
          else splitFrom sep O (acc ++ String c EmptyString) s'
      end
  end.

Definition split (s sep : string) : list string :=
  splitFrom sep O EmptyString s.

(** [arr.pop()]: the last element, [undefined] on an empty array. *)
Definition pop (l : list string) : option string := last l.

(** Number to string, for the integers that occur (counts, clock). *)
Definition ofZ (z : Z) : string := pretty z.

(** *** Numbers

    A JavaScript number is [NaN], an infinity, or a finite value, kept as
    the decimal [m * 10^e] it was read from (rounding to the nearest double
    is left out, overflow to an infinity is not). *)
Inductive number : Type :=
| NaN
| Infinity (negative : bool)
| Finite (m e : Z).

Definition isNaN (x : number) : bool :=
  match x with NaN => true | _ => false end.

Definition isFinite (x : number) : bool :=
  match x with Finite _ _ => true | _ => false end.

Definition isDigit (c : ascii) : bool :=
  let n := nat_of_ascii c in ((48 <=? n) && (n <=? 57))%nat.

Definition digitVal (c : ascii) : Z := Z.of_nat (nat_of_ascii c - 48).

(** The longest run of decimal digits at the head of [s], and the rest. *)
Fixpoint readDigits (s : string) : list Z * string :=
  match s with
  | EmptyString => ([], EmptyString)
  | String c s' =>
      if isDigit c
      then let (ds, r) := readDigits s' in (digitVal c :: ds, r)
      else ([], s)
  end.

Definition valueOf (ds : list Z) : Z :=
  fold_left (fun a d => 10 * a + d) ds 0.

(** An [ExponentPart] at the head of [s], or 0 when there is none. *)
Definition readExponent (s : string) : Z :=
  match s with
  | String c s' =>
      if Ascii.eqb c "e" || Ascii.eqb c "E" then
        let (sgn, r) :=
          match s' with
          | String "+" r => (1, r)
          | String "-" r => (-1, r)
          | _ => (1, s')
          end in
        match fst (readDigits r) with
        | [] => 0
        | ds => sgn * valueOf ds
        end
      else 0
  | EmptyString => 0
  end.

(** Values of magnitude [2^1024 - 2^970] and above round to an infinity. *)
Definition overflows (m e : Z) : bool :=
  let limit := 2 ^ 1024 - 2 ^ 970 in
  if 400 <? e then negb (m =? 0)
  else if 0 <=? e then limit <=? Z.abs m * 10 ^ e
  else limit * 10 ^ (- e) <=? Z.abs m.

Definition ofDecimal (negative : bool) (m e : Z) : number :=
  if overflows m e then Infinity negative
  else Finite (if negative then - m else m) e.

(** The longest prefix of [s] that is a [StrDecimalLiteral] without its
    sign. *)
Definition parseUnsigned (negative : bool) (s : string) : number :=
  if startsWith s "Infinity" then Infinity negative
  else
    let (ip, r1) := readDigits s in
    let (fp, r2) :=
      match r1 with
      | String "." r => readDigits r
      | _ => ([], r1)
      end in
    match (ip ++ fp)%list with
    | [] => NaN
    | ds => ofDecimal negative (valueOf ds)
              (readExponent r2 - Z.of_nat (length fp))
    end.

(** [parseFloat] of a string. *)
Definition parseFloatString (s : string) : number :=
  match trimStart s with
  | String "+" r => parseUnsigned false r
  | String "-" r => parseUnsigned true r
  | r => parseUnsigned false r
  end.

(** *** [decodeURIComponent] *)

Definition hexVal (c : ascii) : option nat :=
  let n := nat_of_ascii c in
  if ((48 <=? n) && (n <=? 57))%nat then Some (n - 48)%nat
  else if ((65 <=? n) && (n <=? 70))%nat then Some (n - 55)%nat
  else if ((97 <=? n) && (n <=? 102))%nat then Some (n - 87)%nat
  else None.

(** Replace every [%XY] by its byte; the flag tells an escaped byte from
    a literal character.  A [%] without two hexadecimal digits is a
    [URIError]. *)
Fixpoint unescape (s : string) : option (list (bool * ascii)) :=
  match s with
  | EmptyString => Some []
  | String c s' =>
      if Ascii.eqb c "%" then
        match s' with
        | String h (String l s'') =>
            match hexVal h, hexVal l, unescape s'' with
            | Some a, Some b, Some rest =>
                Some ((true, ascii_of_nat (16 * a + b)) :: rest)
            | _, _, _ => None
            end
        | _ => None
        end
      else
        match unescape s' with
        | Some rest => Some ((false, c) :: rest)
        | None => None
        end
  end.

Definition between (lo n hi : nat) : bool := ((lo <=? n) && (n <=? hi))%nat.

(** The escaped bytes form well-formed UTF-8: [pending] continuation
    bytes are still due, the next of them within [lo..hi]. *)
Fixpoint wellFormed (pending lo hi : nat) (l : list (bool * ascii)) : bool :=
  match l with
  | [] => (pending =? 0)%nat
  | (esc, c) :: l' =>
      let n := nat_of_ascii c in
      match pending with
      | S k => esc && between lo n hi && wellFormed k 128 191 l'
      | O =>
          if negb esc then wellFormed 0 0 0 l'
          else if (n <? 128)%nat then wellFormed 0 0 0 l'
          else if between 194 n 223 then wellFormed 1 128 191 l'
          else if (n =? 224)%nat then wellFormed 2 160 191 l'
          else if (n =? 237)%nat then wellFormed 2 128 159 l'
          else if between 225 n 239 then wellFormed 2 128 191 l'
          else if (n =? 240)%nat then wellFormed 3 144 191 l'
          else if between 241 n 243 then wellFormed 3 128 191 l'
          else if (n =? 244)%nat then wellFormed 3 128 143 l'
          else false
      end
  end.

(** [decodeURIComponent(s)]; [None] is the [URIError]. *)
Definition decodeURIComponent (s : string) : option string :=
  match unescape s with
  | Some l =>
      if wellFormed 0 0 0 l
      then Some (fold_right (fun x r => String (snd x) r) EmptyString l)
      else None
  | None => None
  end.

(** *** Field values read with [parseFloat] *)

Inductive value : Type :=
| Undefined
| Num (n : number)
| Str (s : string).

(** [parseFloat(v)]: the argument is converted to a string first; a number
    prints to a literal that reads back as itself. *)
Definition parseFloat (v : value) : number :=
  match v with
  | Undefined => parseFloatString "undefined"
  | Num n => n
  | Str s => parseFloatString s
  end.

End Js.

(** ** Data model *)

(** The data of a document of the [locations] collection.  A field that is
    absent is [None]; [imageUrl: null] is [None] as well. *)
Module Doc.
Record t : Type := {
  latitude : Js.value;
  longitude : Js.value;
  title : option string;
  notes : option string;
  address : option string;
  userId : option string;
  imageUrl : option string;
  upvotes : option (list string);
  downvotes : option (list string)
}.
End Doc.

(** A document snapshot of a query: [docSnap.id] and [docSnap.data()]. *)
Module DocSnap.
Record t : Type := { id : string; data : Doc.t }.
End DocSnap.

(** The data of a document of the [users] collection. *)
Module User.
Record t : Type := { displayName : option string; email : option string }.
End User.

Module Profile.
Record t : Type := { displayName : string; email : string }.
End Profile.

Module File.
Record t : Type := { name : string; type : string; size : Z }.
End File.

(** A Leaflet marker: [L.marker([lat, lon]).bindPopup(popupContent)]. *)
Module Marker.
Record t : Type := { lat : Js.number; lon : Js.number; popup : string }.
End Marker.

(** An entry of [allMarkers]. *)
Module MarkerObj.
Record t : Type := {
  locationId : string;
  title : string;
  notes : string;
  address : string;
  user : string;
  userId : string;
  lat : Js.number;
  lon : Js.number;
  upvotes : list string;
  downvotes : list string;
  marker : Marker.t
}.
End MarkerObj.

(** A value written to a document field. *)
Inductive FieldValue : Type :=
| FString (s : string)
| FNumber (v : Js.value)
| FNull
| FServerTimestamp.

(** An object literal passed to [addDoc] or [updateDoc], in key order. *)
Definition Fields : Type := list (string * FieldValue).

(** ** Requests to the backend, and what the user is shown *)

Inductive Request : Type :=
| GetDocs                                   (* locations by createdAt desc *)
| GetDoc (coll id : string)
| AddDoc (coll : string) (data : Fields)
| UpdateDoc (coll id : string) (data : Fields)
| DeleteDoc (coll id : string)
| UploadBytes (path : string) (file : File.t)
| GetDownloadURL (path : string)
| DeleteObject (path : string).

Inductive MessageType : Type := success | error.

Inductive Event : Type :=
| Requested (r : Request) (fulfilled : bool)
| Message (type : MessageType) (text : string).

(** The collaborators: what each request answers when it is the [n]-th one
    ([None] and [false]: the promise rejects), the clock, and the user's
    answer to a [confirm] dialog. *)
Record Env : Type := {
  getDocs : nat -> option (list DocSnap.t);
  getUser : nat -> string -> option (option User.t);
  getLocation : nat -> string -> option (option Doc.t);
  addDoc : nat -> Fields -> option string;
  updateDoc : nat -> string -> Fields -> bool;
  deleteDoc : nat -> string -> bool;
  uploadBytes : nat -> string -> File.t -> bool;
  getDownloadURL : nat -> string -> option string;
  deleteObject : nat -> string -> bool;
  now : nat -> Z;
  confirm : nat -> string -> bool
}.

(** ** State

    The closure variables of the page and the form fields the handlers
    read and write.  Left out, as nothing below depends on them: the map
    object and its click listener, the console, the debounce timer of the
    search box and its [disabled] flag, [currentUserData], and the
    previews and inner HTML of the two modals. *)

(** [allMarkers], the layers of the cluster group [markers], and the
    module-level [userProfileCache]. *)
Record Store : Type := {
  allMarkers : list MarkerObj.t;
  markers : list Marker.t;
  userProfileCache : gmap string Profile.t
}.

(** The creation flow: its variables and the fields of the creation modal. *)
Record Creation : Type := {
  creationMode : bool;
  tempMarker : option (Js.value * Js.value);
  clickLat : Js.value;
  clickLon : Js.value;
  selectedNewImage : option File.t;
  newTitle : string;
  newNotes : string;
  newAddress : string;
  creationModal : bool
}.

(** The edit flow: its variables and the fields of the edit modal. *)
Record Editing : Type := {
  editingLocationId : option string;
  selectedEditImage : option File.t;
  currentLocationImageUrl : option string;
  editTitle : string;
  editNotes : string;
  editAddress : string;
  editModal : bool
}.

(** The signed-in user's [uid], the search box, the loading overlay, the
    number of requests issued and the history of events, oldest first. *)
Record Page : Type := {
  currentUser : option string;
  search : string;
  loading : bool;
  clock : nat;
  trace : list Event
}.

Record State : Type := {
  store : Store;
  creation : Creation;
  editing : Editing;
  page : Page
}.

Definition withStore (f : Store -> Store) (s : State) : State :=
  {| store := f (store s); creation := creation s;
     editing := editing s; page := page s |}.

Definition withCreation (f : Creation -> Creation) (s : State) : State :=
  {| store := store s; creation := f (creation s);
     editing := editing s; page := page s |}.

Definition withEditing (f : Editing -> Editing) (s : State) : State :=
  {| store := store s; creation := creation s;
     editing := f (editing s); page := page s |}.

Definition withPage (f : Page -> Page) (s : State) : State :=
  {| store := store s; creation := creation s;
     editing := editing s; page := f (page s) |}.

Definition setAllMarkers (l : list MarkerObj.t) (st : Store) : Store :=
  {| allMarkers := l; markers := markers st;
     userProfileCache := userProfileCache st |}.

Definition setMarkers (l : list Marker.t) (st : Store) : Store :=
  {| allMarkers := allMarkers st; markers := l;
     userProfileCache := userProfileCache st |}.

Definition setCache (c : gmap string Profile.t) (st : Store) : Store :=
  {| allMarkers := allMarkers st; markers := markers st;
     userProfileCache := c |}.

Definition setSearch (q : string) (p : Page) : Page :=
  {| currentUser := currentUser p; search := q; loading := loading p;
     clock := clock p; trace := trace p |}.

Definition setLoading (b : bool) (p : Page) : Page :=
  {| currentUser := currentUser p; search := search p; loading := b;
     clock := clock p; trace := trace p |}.

Definition logEvent (e : Event) (p : Page) : Page :=
  {| currentUser := currentUser p; search := search p; loading := loading p;
     clock := clock p; trace := trace p ++ [e] |}.

(** A request was issued: the clock advances and the history records it. *)
Definition logRequest (r : Request) (ok : bool) (p : Page) : Page :=
  {| currentUser := currentUser p; search := search p; loading := loading p;
     clock := S (clock p); trace := trace p ++ [Requested r ok] |}.

(** ** Handlers as state transformers that may throw *)

Inductive Outcome (A : Type) : Type :=
| Return (a : A)
| Throw.
Arguments Return {A} a.
Arguments Throw {A}.

Definition M (A : Type) : Type := State -> Outcome A * State.

Definition ret {A} (a : A) : M A := fun s => (Return a, s).

Definition throw {A} : M A := fun s => (Throw, s).

Definition bind {A B} (m : M A) (k : A -> M B) : M B :=
  fun s =>
    match m s with
    | (Return a, s') => k a s'
    | (Throw, s') => (Throw, s')
    end.

(** [try { m } catch { h }] *)
Definition tryCatch {A} (m : M A) (h : M A) : M A :=
  fun s =>
    match m s with
    | (Return a, s') => (Return a, s')
    | (Throw, s') => h s'
    end.

(** [try { m } finally { f }]: [f] runs on both ways out. *)
Definition finally {A} (m : M A) (f : M unit) : M A :=
  fun s =>
    match m s with
    | (r, s') =>
        match f s' with
        | (Return _, s'') => (r, s'')
        | (Throw, s'') => (Throw, s'')
        end
    end.

Definition modify (f : State -> State) : M unit := fun s => (Return tt, f s).

Definition gets {A} (f : State -> A) : M A := fun s => (Return (f s), s).

Declare Scope handler_scope.
Delimit Scope handler_scope with handler.
Notation "x <- m ;; k" := (bind m (fun x => k))
  (at level 100, m at next level, right associativity) : handler_scope.
Notation "m ;; k" := (bind m (fun _ => k))
  (at level 100, right associativity) : handler_scope.
Local Open Scope handler_scope.

(** A loop [for (const x of l) body(x)]. *)
Fixpoint forEach {A} (l : list A) (body : A -> M unit) : M unit :=
  match l with
  | [] => ret tt
  | x :: l' => body x ;; forEach l' body
  end.

(** Issue a request whose answer carries a value. *)
Definition request {A} (r : Request) (answer : nat -> option A) : M A :=
  fun s =>
    match answer (clock (page s)) with
    | Some a => (Return a, withPage (logRequest r true) s)
    | None => (Throw, withPage (logRequest r false) s)
    end.

(** Issue a request that only resolves or rejects. *)
Definition command (r : Request) (answer : nat -> bool) : M unit :=
  request r (fun n => if answer n then Some tt else None).

(** *** [utils.js] *)

Definition showLoading (show : bool) : M unit :=
  modify (withPage (setLoading show)).

Definition showMessage (text : string) (type : MessageType) : M unit :=
  modify (withPage (logEvent (Message type text))).

Definition showSuccess (text : string) : M unit := showMessage text success.

Definition showError (text : string) : M unit := showMessage text error.


(** ** Marker Presenter: [createPopupContent] *)

Definition gray : string := "#666".
Definition green : string := "#28a745".
Definition red : string := "#dc3545".

Definition voteScore (upvotes downvotes : list string) : Z :=
  Z.of_nat (length upvotes) - Z.of_nat (length downvotes).

(** [scoreColor] and [scorePrefix] after the [if]/[else if] on the score. *)
Definition scoreStyle (score : Z) : string * string :=
  if 0 <? score then (green, "+")
  else if score <? 0 then (red, EmptyString)
  else (gray, EmptyString).

(** The vote-score block appended to the popup. *)
Definition scoreBlock (scoreColor scorePrefix : string)
    (score upvoteCount downvoteCount : Z) : string :=
  "<div style=" ++ Js.dq ++ "margin: 8px 0; padding: 6px 10px; background: #f8f9fa; border-radius: 4px; border-left: 3px solid " ++ scoreColor ++ ";" ++ Js.dq ++ ">" ++ Js.nl ++
  "            <strong style=" ++ Js.dq ++ "color: " ++ scoreColor ++ "; font-size: 14px;" ++ Js.dq ++ ">Score: " ++ scorePrefix ++ Js.ofZ score ++ "</strong>" ++ Js.nl ++
  "            <span style=" ++ Js.dq ++ "color: #666; font-size: 12px; margin-left: 8px;" ++ Js.dq ++ ">(↑" ++ Js.ofZ upvoteCount ++ " ↓" ++ Js.ofZ downvoteCount ++ ")</span>" ++ Js.nl ++
  "        </div>".

(** Address, owner, notes, the details link and the owner's buttons. *)
Definition popupDetails (currentUser : option string)
    (locationId notes address user userId : string) : string :=
  (if Js.truthy address
   then "<br><strong>Address:</strong><br>" ++ address else EmptyString) ++
  (if Js.truthy user
   then "<br><strong>Added By:</strong><br>" ++ user else EmptyString) ++
  (if Js.truthy notes
   then "<br><br><strong>Notes:</strong><br>" ++ notes else EmptyString) ++
  "<br><br><a href=" ++ Js.dq ++ "./location.html?id=" ++ locationId ++ Js.dq ++ " class=" ++ Js.dq ++ "btn btn-primary btn-popup" ++ Js.dq ++ " style=" ++ Js.dq ++ "color:white;" ++ Js.dq ++ ">View Details</a>" ++
  match currentUser with
  | Some uid =>
      if String.eqb userId uid then
        Js.nl ++
        "                <div class=" ++ Js.dq ++ "popup-actions" ++ Js.dq ++ ">" ++ Js.nl ++
        "                    <button class=" ++ Js.dq ++ "btn btn-primary btn-popup" ++ Js.dq ++ " onclick=" ++ Js.dq ++ "window.editLocation('" ++ locationId ++ "')" ++ Js.dq ++ ">Edit</button>" ++ Js.nl ++
        "                    <button class=" ++ Js.dq ++ "btn btn-danger btn-popup" ++ Js.dq ++ " onclick=" ++ Js.dq ++ "window.confirmDeleteLocation('" ++ locationId ++ "')" ++ Js.dq ++ ">Delete</button>" ++ Js.nl ++
        "                </div>" ++ Js.nl ++
        "            "
      else EmptyString
  | None => EmptyString
  end.

(** [createPopupContent]; the closure variable [currentUser] is its first
    argument. *)
Definition createPopupContent (currentUser : option string)
    (locationId title : string) (lat lon : Js.number)
    (notes address user userId : string)
    (upvotes downvotes : list string) : string :=
  let upvoteCount := Z.of_nat (length upvotes) in
  let downvoteCount := Z.of_nat (length downvotes) in
  let score := upvoteCount - downvoteCount in
  let (scoreColor, scorePrefix) := scoreStyle score in
  "<b>" ++ title ++ "</b><br>" ++
  scoreBlock scoreColor scorePrefix score upvoteCount downvoteCount ++
  popupDetails currentUser locationId notes address user userId.

(** ** The handlers of [index.js] *)

(** An element of [locationData], the result of the first pass. *)
Module Location.
Record t : Type := {
  locationId : string;
  title : string;
  notes : string;
  address : string;
  userId : string;
  lat : Js.number;
  lon : Js.number
}.
End Location.

Definition defaultProfile : Profile.t :=
  {| Profile.displayName := "Unknown User"; Profile.email := EmptyString |}.

(** [set.add(x)] on a [Set] kept in insertion order. *)
Definition setAdd (x : string) (l : list string) : list string :=
  if bool_decide (x ∈ l) then l else (l ++ [x])%list.

(** One iteration of the first pass of the load: [acc] is
    [(locationData, uniqueUserIds)]. *)
Definition collect (acc : list Location.t * list string) (docSnap : DocSnap.t)
  : list Location.t * list string :=
  let data := DocSnap.data docSnap in
  let locationId := DocSnap.id docSnap in
  let lat := Js.parseFloat (Doc.latitude data) in
  let lon := Js.parseFloat (Doc.longitude data) in
  let title := Js.orElse (Doc.title data) "Untitled Location" in
  let notes := Js.orElse (Doc.notes data) EmptyString in
  let address := Js.orElse (Doc.address data) EmptyString in
  let userId := Js.orElse (Doc.userId data) EmptyString in
  if negb (Js.isNaN lat) && negb (Js.isNaN lon) then
    ((fst acc ++ [ {| Location.locationId := locationId;
                      Location.title := title;
                      Location.notes := notes;
                      Location.address := address;
                      Location.userId := userId;
                      Location.lat := lat;
                      Location.lon := lon |} ])%list,
     if Js.truthy userId then setAdd userId (snd acc) else snd acc)
  else acc.

Definition firstPass (docs : list DocSnap.t) : list Location.t * list string :=
  fold_left collect docs ([], []).

Definition batchSize : nat := 100.

(** [markers.clearLayers()] and [markers.addLayer(m)]. *)
Definition clearLayers : M unit := modify (withStore (setMarkers [])).

Definition addLayer (m : Marker.t) : M unit :=
  modify (withStore (fun st => setMarkers (markers st ++ [m])%list st)).

Definition pushMarker (o : MarkerObj.t) : M unit :=
  modify (withStore (fun st => setAllMarkers (allMarkers st ++ [o])%list st)).

(** The value of a variable that holds a string or nothing, when it is
    truthy: the test [if (x)]. *)
Definition nonEmpty (o : option string) : option string :=
  match o with
  | Some s => if Js.truthy s then Some s else None
  | None => None
  end.

Section Handlers.

Variable E : Env.

Definition fetchUserProfile (userId : string) : M Profile.t :=
  if negb (Js.truthy userId) then ret defaultProfile
  else
    cache <- gets (fun s => userProfileCache (store s)) ;;
    match cache !! userId with
    | Some profile => ret profile
    | None =>
        fetched <-
          tryCatch
            (userDoc <- request (GetDoc "users" userId)
                          (fun n => getUser E n userId) ;;
             match userDoc with
             | Some userData =>
                 let profile :=
                   {| Profile.displayName :=
                        Js.orElse (User.displayName userData)
                          (Js.orElse (User.email userData) "Unknown User");
                      Profile.email :=
                        Js.orElse (User.email userData) EmptyString |} in
                 modify (withStore (fun st =>
                   setCache (<[userId := profile]> (userProfileCache st)) st)) ;;
                 ret (Some profile)
             | None => ret None
             end)
            (ret None) ;;
        match fetched with
        | Some profile => ret profile
        | None =>
            modify (withStore (fun st =>
              setCache (<[userId := defaultProfile]> (userProfileCache st)) st)) ;;
            ret defaultProfile
        end
    end.

(** The marker object built for one valid location in the second pass. *)
Definition buildMarker (currentUser : option string) (docs : list DocSnap.t)
    (location : Location.t) (username : string) : MarkerObj.t :=
  let locationId := Location.locationId location in
  let locationDoc :=
    find (fun d => String.eqb (DocSnap.id d) locationId) docs in
  let upvotes :=
    match locationDoc with
    | Some d => default [] (Doc.upvotes (DocSnap.data d))
    | None => []
    end in
  let downvotes :=
    match locationDoc with
    | Some d => default [] (Doc.downvotes (DocSnap.data d))
    | None => []
    end in
  let popupContent :=
    createPopupContent currentUser locationId (Location.title location)
      (Location.lat location) (Location.lon location)
      (Location.notes location) (Location.address location)
      username (Location.userId location) upvotes downvotes in
  {| MarkerObj.locationId := locationId;
     MarkerObj.title := Location.title location;
     MarkerObj.notes := Location.notes location;
     MarkerObj.address := Location.address location;
     MarkerObj.user := username;
     MarkerObj.userId := Location.userId location;
     MarkerObj.lat := Location.lat location;
     MarkerObj.lon := Location.lon location;
     MarkerObj.upvotes := upvotes;
     MarkerObj.downvotes := downvotes;
     MarkerObj.marker :=
       {| Marker.lat := Location.lat location;
          Marker.lon := Location.lon location;
          Marker.popup := popupContent |} |}.

(** The second pass; it returns the batch not yet added to the map. *)
Fixpoint secondPass (docs : list DocSnap.t) (locationData : list Location.t)
    (currentBatch : list MarkerObj.t) : M (list MarkerObj.t) :=
  match locationData with
  | [] => ret currentBatch
  | location :: rest =>
      userProfile <- fetchUserProfile (Location.userId location) ;;
      currentUser <- gets (fun s => currentUser (page s)) ;;
      let markerObj :=
        buildMarker currentUser docs location
          (Profile.displayName userProfile) in
      pushMarker markerObj ;;
      let currentBatch := (currentBatch ++ [markerObj])%list in
      if (batchSize <=? length currentBatch)%nat then
        forEach currentBatch (fun obj => addLayer (MarkerObj.marker obj)) ;;
        secondPass docs rest []
      else secondPass docs rest currentBatch
  end.

(** [Promise.all] over the distinct ids: the fetches are issued in the
order of the ids and each call touches the cache entry of its own id only,
so the calls are run one after the other. *)
Definition loadLocationsFromFirestore : M unit :=
  showLoading true ;;
  tryCatch
    (clearLayers ;;
     docs <- request GetDocs (getDocs E) ;;
     showLoading false ;;
     modify (withStore (setAllMarkers [])) ;;
     let (locationData, userIds) := firstPass docs in
     forEach userIds (fun userId => fetchUserProfile userId ;; ret tt) ;;
     currentBatch <- secondPass docs locationData [] ;;
     forEach currentBatch (fun obj => addLayer (MarkerObj.marker obj)))
    (showError "Failed to load locations. Please refresh the page." ;;
     showLoading false).

(** *** Search Filter *)

(** The test of [filterMarkers] on one marker, for a non-empty [term]. *)
Definition matchesTerm (term : string) (markerObj : MarkerObj.t) : bool :=
  let titleMatch :=
    Js.includes (Js.toLowerCase (MarkerObj.title markerObj)) term in
  let notesMatch :=
    Js.includes (Js.toLowerCase (MarkerObj.notes markerObj)) term in
  let addressMatch :=
    Js.includes
      (Js.toLowerCase (Js.orElse (Some (MarkerObj.address markerObj)) EmptyString))
      term in
  let userMatch :=
    Js.includes
      (Js.toLowerCase (Js.orElse (Some (MarkerObj.user markerObj)) EmptyString))
      term in
  titleMatch || notesMatch || addressMatch || userMatch.

Definition filterMarkers (searchTerm : string) : M unit :=
  let term := Js.toLowerCase (Js.trim searchTerm) in
  clearLayers ;;
  all <- gets (fun s => allMarkers (store s)) ;;
  if String.eqb term EmptyString then
    forEach all (fun markerObj => addLayer (MarkerObj.marker markerObj))
  else
    forEach all (fun markerObj =>
      if matchesTerm term markerObj
      then addLayer (MarkerObj.marker markerObj)
      else ret tt).

(** *** Creation mode *)

Definition flipCreationMode (c : Creation) : Creation :=
  {| creationMode := negb (creationMode c); tempMarker := tempMarker c;
     clickLat := clickLat c; clickLon := clickLon c;
     selectedNewImage := selectedNewImage c;
     newTitle := newTitle c; newNotes := newNotes c;
     newAddress := newAddress c; creationModal := creationModal c |}.

(** [if (tempMarker) { map.removeLayer(tempMarker); tempMarker = null; }] *)
Definition dropTempMarker (c : Creation) : Creation :=
  {| creationMode := creationMode c; tempMarker := None;
     clickLat := clickLat c; clickLon := clickLon c;
     selectedNewImage := selectedNewImage c;
     newTitle := newTitle c; newNotes := newNotes c;
     newAddress := newAddress c; creationModal := creationModal c |}.

(** The fields of the creation modal are emptied and the modal closed. *)
Definition clearCreationForm (c : Creation) : Creation :=
  {| creationMode := creationMode c; tempMarker := tempMarker c;
     clickLat := clickLat c; clickLon := clickLon c;
     selectedNewImage := None;
     newTitle := EmptyString; newNotes := EmptyString;
     newAddress := EmptyString; creationModal := false |}.

Definition toggleCreationMode : M unit :=
  modify (withCreation flipCreationMode) ;;
  mode <- gets (fun s => creationMode (creation s)) ;;
  if mode then ret tt
  else
    modify (withCreation dropTempMarker) ;;
    currentSearch <- gets (fun s => search (page s)) ;;
    if Js.truthy currentSearch then filterMarkers currentSearch else ret tt.

(** *** Images *)

Definition uploadImageToStorage (file : File.t) (locationId : string)
  : M string :=
  tryCatch
    (timestamp <- gets (fun s => now E (clock (page s))) ;;
     let fileExtension :=
       default "undefined" (Js.pop (Js.split (File.name file) ".")) in
     let fileName :=
       locationId ++ "_" ++ Js.ofZ timestamp ++ "." ++ fileExtension in
     user <- gets (fun s => currentUser (page s)) ;;
     match user with
     | None => throw
     | Some uid =>
         let storagePath := "locations/" ++ uid ++ "/" ++ fileName in
         command (UploadBytes storagePath file)
           (fun n => uploadBytes E n storagePath file) ;;
         request (GetDownloadURL storagePath)
           (fun n => getDownloadURL E n storagePath)
     end)
    throw.

(** The storage path named by a download URL: the piece after the first
    [/o/], cut at [?] and decoded.  [None]: there is no such piece;
    [Some None]: the decoding throws. *)
Definition storagePathOf (imageUrl : string) : option (option string) :=
  match nonEmpty (Js.split imageUrl "/o/" !! 1%nat) with
  | None => None
  | Some urlParts =>
      let pathPart := hd EmptyString (Js.split urlParts "?") in
      Some (Js.decodeURIComponent pathPart)
  end.

Definition deleteImageFromStorage (imageUrl : string) : M unit :=
  tryCatch
    match storagePathOf imageUrl with
    | None => ret tt
    | Some None => throw
    | Some (Some storagePath) =>
        command (DeleteObject storagePath)
          (fun n => deleteObject E n storagePath)
    end
    (ret tt).

(** *** Mutation Coordinator *)

Definition submitNewLocation : M unit :=
  form <- gets creation ;;
  let title := Js.trim (newTitle form) in
  let notes := Js.trim (newNotes form) in
  let address := Js.trim (newAddress form) in
  if negb (Js.truthy title) then showError "Title is required!"
  else
    showLoading true ;;
    finally
      (tryCatch
         (user <- gets (fun s => currentUser (page s)) ;;
          match user with
          | None => throw
          | Some uid =>
              let locationData :=
                [ ("userId", FString uid);
                  ("latitude", FNumber (clickLat form));
                  ("longitude", FNumber (clickLon form));
                  ("title", FString title);
                  ("notes", FString notes);
                  ("address", FString address);
                  ("createdAt", FServerTimestamp);
                  ("updatedAt", FServerTimestamp) ] in
              locationId <- request (AddDoc "locations" locationData)
                              (fun n => addDoc E n locationData) ;;
              match selectedNewImage form with
              | Some file =>
                  tryCatch
                    (imageUrl <- uploadImageToStorage file locationId ;;
                     let patch := [("imageUrl", FString imageUrl)] in
                     command (UpdateDoc "locations" locationId patch)
                       (fun n => updateDoc E n locationId patch))
                    (showError "Location created but image upload failed. You can add an image by editing the location.")
              | None => ret tt
              end ;;
              modify (withCreation clearCreationForm) ;;
              modify (withCreation dropTempMarker) ;;
              toggleCreationMode ;;
              loadLocationsFromFirestore ;;
              showSuccess "Location added successfully!"
          end)
         (showError "Failed to add location. Please try again."))
      (showLoading false).

(** The edit modal is closed and its variables reset. *)
Definition closeEdit (e : Editing) : Editing :=
  {| editingLocationId := None; selectedEditImage := None;
     currentLocationImageUrl := None;
     editTitle := editTitle e; editNotes := editNotes e;
     editAddress := editAddress e; editModal := false |}.

Definition updateLocation : M unit :=
  form <- gets editing ;;
  match nonEmpty (editingLocationId form) with
  | None => ret tt
  | Some editingId =>
      let title := Js.trim (editTitle form) in
      let notes := Js.trim (editNotes form) in
      let address := Js.trim (editAddress form) in
      if negb (Js.truthy title) then showError "Title is required!"
      else
        showLoading true ;;
        finally
          (tryCatch
             (imageUrl <-
                match selectedEditImage form with
                | Some file =>
                    match nonEmpty (currentLocationImageUrl form) with
                    | Some oldUrl => deleteImageFromStorage oldUrl
                    | None => ret tt
                    end ;;
                    newUrl <- uploadImageToStorage file editingId ;;
                    ret (Some newUrl)
                | None => ret (currentLocationImageUrl form)
                end ;;
              let updateData :=
                ([ ("title", FString title);
                   ("notes", FString notes);
                   ("address", FString address);
                   ("updatedAt", FServerTimestamp) ] ++
                 match nonEmpty imageUrl with
                 | Some url => [("imageUrl", FString url)]
                 | None => []
                 end)%list in
              command (UpdateDoc "locations" editingId updateData)
                (fun n => updateDoc E n editingId updateData) ;;
              modify (withEditing closeEdit) ;;
              loadLocationsFromFirestore ;;
              showSuccess "Location updated successfully!")
             (showError "Failed to update location. Please try again."))
          (showLoading false)
  end.

Definition deleteLocationById (locationId : string) : M unit :=
  showLoading true ;;
  finally
    (tryCatch
       (locationDoc <- request (GetDoc "locations" locationId)
                         (fun n => getLocation E n locationId) ;;
        match locationDoc with
        | Some data =>
            match nonEmpty (Doc.imageUrl data) with
            | Some url => deleteImageFromStorage url
            | None => ret tt
            end
        | None => ret tt
        end ;;
        command (DeleteDoc "locations" locationId)
          (fun n => deleteDoc E n locationId) ;;
        loadLocationsFromFirestore ;;
        showSuccess "Location deleted successfully!")
       (showError "Failed to delete location. Please try again."))
    (showLoading false).

Definition askConfirm (text : string) : M bool :=
  gets (fun s => confirm E (clock (page s)) text).

(** [window.confirmDeleteLocation], the popup's delete button. *)
Definition confirmDeleteLocation (locationId : string) : M unit :=
  yes <- askConfirm "Are you sure you want to delete this location? This cannot be undone." ;;
  if yes then deleteLocationById locationId else ret tt.

Definition clearEditTarget (e : Editing) : Editing :=
  {| editingLocationId := None; selectedEditImage := selectedEditImage e;
     currentLocationImageUrl := currentLocationImageUrl e;
     editTitle := editTitle e; editNotes := editNotes e;
     editAddress := editAddress e; editModal := false |}.

(** The delete button of the edit modal. *)
Definition deleteLocation : M unit :=
  form <- gets editing ;;
  match nonEmpty (editingLocationId form) with
  | None => ret tt
  | Some editingId =>
      yes <- askConfirm "Are you sure you want to delete this location? This cannot be undone." ;;
      if yes then
        deleteLocationById editingId ;;
        modify (withEditing clearEditTarget)
      else ret tt
  end.

Definition forgetImage (e : Editing) : Editing :=
  {| editingLocationId := editingLocationId e;
     selectedEditImage := selectedEditImage e;
     currentLocationImageUrl := None;
     editTitle := editTitle e; editNotes := editNotes e;
     editAddress := editAddress e; editModal := editModal e |}.

Definition handleRemoveImage : M unit :=
  form <- gets editing ;;
  match nonEmpty (currentLocationImageUrl form),
        nonEmpty (editingLocationId form) with
  | Some imageUrl, Some editingId =>
      yes <- askConfirm "Are you sure you want to remove this image?" ;;
      if negb yes then ret tt
      else
        showLoading true ;;
        finally
          (tryCatch
             (deleteImageFromStorage imageUrl ;;
              let patch :=
                [("imageUrl", FNull); ("updatedAt", FServerTimestamp)] in
              command (UpdateDoc "locations" editingId patch)
                (fun n => updateDoc E n editingId patch) ;;
              modify (withEditing forgetImage) ;;
              showSuccess "Image removed successfully!")
             (showError "Failed to remove image. Please try again."))
          (showLoading false)
  | _, _ => ret tt
  end.

End Handlers.

(** ** The Search Filter, in the words of the specification *)

(** [t] occurs in [s]. *)
Definition isSubstring (t s : string) : Prop :=
  exists pre post, s = pre ++ t ++ post.

(** A marker is visible if the trimmed, lowercased query is empty or is a
    substring of its lowercased title, notes, address or owner name. *)
Definition specVisible (query : string) (m : MarkerObj.t) : Prop :=
  let q := Js.trim (Js.toLowerCase query) in
  q = EmptyString \/
  isSubstring q (Js.toLowerCase (MarkerObj.title m)) \/
  isSubstring q (Js.toLowerCase (MarkerObj.notes m)) \/
  isSubstring q (Js.toLowerCase (MarkerObj.address m)) \/
  isSubstring q (Js.toLowerCase (MarkerObj.user m)).

(** The markers [filterMarkers] keeps, as a function of the list. *)
Definition visible (query : string) (all : list MarkerObj.t)
  : list MarkerObj.t :=
  let term := Js.toLowerCase (Js.trim query) in
  List.filter
    (fun m => String.eqb term EmptyString || matchesTerm term m) all.

(** ** Profile Resolver: the profile a fetch resolves to *)

(** The profile [fetchUserProfile] builds from the answer of the backend:
    from the user's record when there is one, the default one when the
    record is absent or the fetch failed. *)
Definition profileOf (answer : option (option User.t)) : Profile.t :=
  match answer with
  | Some (Some userData) =>
      {| Profile.displayName :=
           Js.orElse (User.displayName userData)
             (Js.orElse (User.email userData) "Unknown User");
         Profile.email := Js.orElse (User.email userData) EmptyString |}
  | _ => defaultProfile
  end.

Definition fulfilled {A} (answer : option A) : bool :=
  match answer with Some _ => true | None => false end.

(** A sequence of [resolve] calls, one after the other. *)
Definition resolveAll (E : Env) (userIds : list string) : M unit :=
  forEach userIds (fun userId => fetchUserProfile E userId ;; ret tt).

(** The fetches of the profile of [userId] among some events. *)
Definition isFetchOf (userId : string) (e : Event) : bool :=
  match e with
  | Requested (GetDoc coll id) _ =>
      String.eqb coll "users" && String.eqb id userId
  | _ => false
  end.

Definition fetchesOf (userId : string) (events : list Event) : nat :=
  length (List.filter (isFetchOf userId) events).

(** What a call of [fetchUserProfile], and so a sequence of calls, leaves
    as it was: every cache entry and everything but the history, to which
    it appends fetches only, none for a cached user and at most one for any
    user, who is cached from then on. *)
Definition resolved (s s' : State) : Prop :=
  (forall u p, userProfileCache (store s) !! u = Some p ->
               userProfileCache (store s') !! u = Some p) /\
  allMarkers (store s') = allMarkers (store s) /\
  markers (store s') = markers (store s) /\
  creation s' = creation s /\
  editing s' = editing s /\
  currentUser (page s') = currentUser (page s) /\
  search (page s') = search (page s) /\
  loading (page s') = loading (page s) /\
  exists events,
    trace (page s') = (trace (page s) ++ events)%list /\
    clock (page s') = (clock (page s) + length events)%nat /\
    Forall (fun e => exists id ok, e = Requested (GetDoc "users" id) ok)
      events /\
    (forall u, is_Some (userProfileCache (store s) !! u) ->
               fetchesOf u events = 0%nat) /\
    (forall u, fetchesOf u events <= 1)%nat /\
    (forall u, fetchesOf u events = 1%nat ->
               is_Some (userProfileCache (store s') !! u)).

(** ** Location Store: the two passes as functions of the fetched list *)

(** The test of the first pass: neither coordinate parses to [NaN]. *)
Definition validCoords (docSnap : DocSnap.t) : bool :=
  negb (Js.isNaN (Js.parseFloat (Doc.latitude (DocSnap.data docSnap)))) &&
  negb (Js.isNaN (Js.parseFloat (Doc.longitude (DocSnap.data docSnap)))).

(** The specification's test: both coordinates parse to finite numbers. *)
Definition finiteCoords (docSnap : DocSnap.t) : bool :=
  Js.isFinite (Js.parseFloat (Doc.latitude (DocSnap.data docSnap))) &&
  Js.isFinite (Js.parseFloat (Doc.longitude (DocSnap.data docSnap))).

(** The element of [locationData] pushed for a document. *)
Definition toLocation (docSnap : DocSnap.t) : Location.t :=
  let data := DocSnap.data docSnap in
  {| Location.locationId := DocSnap.id docSnap;
     Location.title := Js.orElse (Doc.title data) "Untitled Location";
     Location.notes := Js.orElse (Doc.notes data) EmptyString;
     Location.address := Js.orElse (Doc.address data) EmptyString;
     Location.userId := Js.orElse (Doc.userId data) EmptyString;
     Location.lat := Js.parseFloat (Doc.latitude data);
     Location.lon := Js.parseFloat (Doc.longitude data) |}.

(** The profile a call returns once the non-empty ids are cached. *)
Definition profileIn (cache : gmap string Profile.t) (userId : string)
  : Profile.t :=
  if Js.truthy userId then default defaultProfile (cache !! userId)
  else defaultProfile.

(** The entries of [allMarkers] after the second pass. *)
Definition builtMarkers (currentUser : option string)
    (cache : gmap string Profile.t) (docs : list DocSnap.t)
    (locationData : list Location.t) : list MarkerObj.t :=
  map (fun location =>
         buildMarker currentUser docs location
           (Profile.displayName (profileIn cache (Location.userId location))))
      locationData.

(** The state in which the profiles are resolved: the layers are cleared,
    the documents fetched, the overlay hidden and [allMarkers] emptied. *)
Definition fetchedState (s : State) : State :=
  withStore (setAllMarkers [])
    (withPage (setLoading false)
       (withPage (logRequest GetDocs true)
          (withStore (setMarkers [])
             (withPage (setLoading true) s)))).

(** The state a load ends in when the fetch of the documents fails. *)
Definition failedState (s : State) : State :=
  withPage (setLoading false)
    (withPage
       (logEvent
          (Message error "Failed to load locations. Please refresh the page."))
       (withPage (logRequest GetDocs false)
          (withStore (setMarkers [])
             (withPage (setLoading true) s)))).

(** ** Mutation Coordinator: histories *)

(** The path [uploadImageToStorage] stores a file under. *)
Definition uploadPath (uid locationId : string) (timestamp : Z)
    (file : File.t) : string :=
  "locations/" ++ uid ++ "/" ++
  (locationId ++ "_" ++ Js.ofZ timestamp ++ "." ++
   default "undefined" (Js.pop (Js.split (File.name file) "."))).

(** The events a handler appends to the history when run from [s]. *)
Definition emitted (handler : M unit) (s : State) (events : list Event)
  : Prop :=
  trace (page (snd (handler s))) = (trace (page s) ++ events)%list.

(** Among [events], the fulfilled request [w] is followed by a fetch of all
    location records, the first step of a reload. *)
Definition reloadsAfter (w : Request) (events : list Event) : Prop :=
  exists before between after ok,
    events
    = (before ++ Requested w true :: between ++
       Requested GetDocs ok :: after)%list.

(** What a load appends after its fetch of the records. *)
Definition loadEvent (e : Event) : Prop :=
  (exists id ok, e = Requested (GetDoc "users" id) ok) \/
  e = Message error "Failed to load locations. Please refresh the page.".

(** The request [deleteImageFromStorage] issues as the [n]-th one for the
    image of a record, if any: none when there is no image or its URL names
    no storage path. *)
Definition deleteEvents (E : Env) (n : nat) (imageUrl : option string)
  : list Event :=
  match nonEmpty imageUrl with
  | Some url =>
      match storagePathOf url with
      | Some (Some path) =>
          [Requested (DeleteObject path) (deleteObject E n path)]
      | _ => []
      end
  | None => []
  end.

(** The requests of [uploadImageToStorage] from the [n]-th one on. *)
Definition uploadEvents (E : Env) (n : nat) (uid locationId : string)
    (file : File.t) : list Event :=
  let path := uploadPath uid locationId (now E n) file in
  if uploadBytes E n path file
  then [ Requested (UploadBytes path file) true;
         Requested (GetDownloadURL path)
           (fulfilled (getDownloadURL E (S n) path)) ]
  else [ Requested (UploadBytes path file) false ].

(** Both requests of the upload are fulfilled. *)
Definition uploaded (E : Env) (n : nat) (uid locationId : string)
    (file : File.t) : bool :=
  let path := uploadPath uid locationId (now E n) file in
  uploadBytes E n path file && fulfilled (getDownloadURL E (S n) path).

(** The end of a mutation from its write of the record [w] on: the write
    fails and [failure] is shown, or it is fulfilled, the locations are
    loaded again and [done] is shown. *)
Definition writeTail (w : Request) (failure done : string)
    (events : list Event) : Prop :=
  events = [Requested w false; Message error failure] \/
  exists ok loaded,
    events
    = (Requested w true :: Requested GetDocs ok :: loaded ++
       [Message success done])%list /\
    Forall loadEvent loaded.

(** The object [submitNewLocation] passes to [addDoc]. *)
Definition newLocationData (uid : string) (form : Creation) : Fields :=
  [ ("userId", FString uid);
    ("latitude", FNumber (clickLat form));
    ("longitude", FNumber (clickLon form));
    ("title", FString (Js.trim (newTitle form)));
    ("notes", FString (Js.trim (newNotes form)));
    ("address", FString (Js.trim (newAddress form)));
    ("createdAt", FServerTimestamp);
    ("updatedAt", FServerTimestamp) ].

(** The writes to the document store. *)
Definition isWrite (r : Request) : bool :=
  match r with
  | AddDoc _ _ | UpdateDoc _ _ _ | DeleteDoc _ _ => true
  | _ => false
  end.

(** A rejected step of an image upload: the storing of the bytes or the
    request for the download URL. *)
Definition failedStep (e : Event) : Prop :=
  exists path,
    (exists file, e = Requested (UploadBytes path file) false) \/
    e = Requested (GetDownloadURL path) false.

(** Among [events] a step of an image upload was rejected. *)
Definition uploadFailed (events : list Event) : Prop :=
  exists e, In e events /\ failedStep e.

(** No request among [events] writes to the document store. *)
Definition noWrites (events : list Event) : Prop :=
  forall w ok, In (Requested w ok) events -> isWrite w = false.

(** ** Sessions *)

(** What happens on the page, one step at a time: a handler runs, or the
    user changes the forms and the search box (as do the handlers of the
    page that are not modelled). *)
Inductive Action : Type :=
| Resolve (userId : string)
| Load
| Search (query : string)
| ToggleCreation
| Submit
| Update
| Delete (locationId : string)
| DeleteEdited
| RemoveImage
| Input (c : Creation) (e : Editing) (query : string).

Definition perform (E : Env) (a : Action) : M unit :=
  match a with
  | Resolve userId => fetchUserProfile E userId ;; ret tt
  | Load => loadLocationsFromFirestore E
  | Search query => filterMarkers query
  | ToggleCreation => toggleCreationMode
  | Submit => submitNewLocation E
  | Update => updateLocation E
  | Delete locationId => confirmDeleteLocation E locationId
  | DeleteEdited => deleteLocation E
  | RemoveImage => handleRemoveImage E
  | Input c e query =>
      modify (fun s =>
        {| store := store s; creation := c; editing := e;
           page := setSearch query (page s) |})
  end.

(** The state after a sequence of steps. *)
Definition session (E : Env) (actions : list Action) (s : State) : State :=
  fold_left (fun x a => snd (perform E a x)) actions s.

(** A handler keeps an invariant of the state, also when it throws. *)
Definition preserves {A} (I : State -> Prop) (m : M A) : Prop :=
  forall s, I s -> I (snd (m s)).

(** The profile of [userId] is cached as [profile], and [n] fetches of it
    were issued so far. *)
Definition settled (userId : string) (profile : Profile.t) (n : nat)
    (s : State) : Prop :=
  userProfileCache (store s) !! userId = Some profile /\
  fetchesOf userId (trace (page s)) = n.

(** ** Sample collaborators and states *)

(** A backend that rejects every request; the user confirms dialogs. *)
Definition offline : Env :=
  {| getDocs := fun _ => None;
     getUser := fun _ _ => None;
     getLocation := fun _ _ => None;
     addDoc := fun _ _ => None;
     updateDoc := fun _ _ _ => false;
     deleteDoc := fun _ _ => false;
     uploadBytes := fun _ _ _ => false;
     getDownloadURL := fun _ _ => None;
     deleteObject := fun _ _ => false;
     now := fun _ => 1700000000000;
     confirm := fun _ _ => true |}.

Definition downloadUrl (path : string) : string :=
  "https://firebasestorage.googleapis.com/v0/b/app/o/" ++ path ++ "?alt=media".

(** A backend that holds [docs] and [users] and fulfils every request,
    save the uploads when [uploads] is [false]. *)
Definition serving (docs : list DocSnap.t) (users : gmap string User.t)
    (uploads : bool) : Env :=
  {| getDocs := fun _ => Some docs;
     getUser := fun _ id => Some (users !! id);
     getLocation := fun _ id =>
       Some (DocSnap.data <$>
               List.find (fun d => String.eqb (DocSnap.id d) id) docs);
     addDoc := fun _ _ => Some "loc9";
     updateDoc := fun _ _ _ => true;
     deleteDoc := fun _ _ => true;
     uploadBytes := fun _ _ _ => uploads;
     getDownloadURL := fun _ path => Some (downloadUrl path);
     deleteObject := fun _ _ => true;
     now := fun _ => 1700000000000;
     confirm := fun _ _ => true |}.

Definition mkDoc (id : string) (lat lon : Js.value) (title owner : option string)
  : DocSnap.t :=
  {| DocSnap.id := id;
     DocSnap.data :=
       {| Doc.latitude := lat; Doc.longitude := lon; Doc.title := title;
          Doc.notes := None; Doc.address := None; Doc.userId := owner;
          Doc.imageUrl := None; Doc.upvotes := None; Doc.downvotes := None |} |}.

(** Three documents: a regular one, one without a title and with textual
    coordinates, and one whose latitude is infinite. *)
Definition sampleDocs : list DocSnap.t :=
  [ mkDoc "loc1" (Js.Num (Js.Finite 4050 (-2))) (Js.Num (Js.Finite (-74) 0))
      (Some "Cafe") (Some "u1");
    mkDoc "loc2" (Js.Str "12.5") (Js.Str "7") None (Some "u2");
    mkDoc "loc3" (Js.Str "north") (Js.Num (Js.Finite 3 0))
      (Some "Nowhere") (Some "u3");
    mkDoc "loc4" (Js.Str "Infinity") (Js.Num (Js.Finite 0 0))
      (Some "Far") (Some "u4") ].

Definition sampleUsers : gmap string User.t :=
  {[ "u1" := {| User.displayName := Some "Ann"; User.email := Some "ann@x.org" |} ]}.

Definition pin : MarkerObj.t :=
  buildMarker (Some "u1") sampleDocs
    (toLocation (mkDoc "loc1" (Js.Num (Js.Finite 4050 (-2)))
                   (Js.Num (Js.Finite (-74) 0)) (Some "Cafe") (Some "u1")))
    "Ann".

Definition idleCreation : Creation :=
  {| creationMode := false; tempMarker := None;
     clickLat := Js.Undefined; clickLon := Js.Undefined;
     selectedNewImage := None; newTitle := EmptyString;
     newNotes := EmptyString; newAddress := EmptyString;
     creationModal := false |}.

Definition idleEditing : Editing :=
  {| editingLocationId := None; selectedEditImage := None;
     currentLocationImageUrl := None; editTitle := EmptyString;
     editNotes := EmptyString; editAddress := EmptyString;
     editModal := false |}.

(** User [u1] is signed in; [all] is loaded and rendered. *)
Definition stateWith (all : list MarkerObj.t) (c : Creation) (e : Editing)
  : State :=
  {| store := {| allMarkers := all;
                 markers := map MarkerObj.marker all;
                 userProfileCache := ∅ |};
     creation := c;
     editing := e;
     page := {| currentUser := Some "u1"; search := EmptyString;
                loading := false; clock := 0; trace := [] |} |}.

Definition startState : State := stateWith [] idleCreation idleEditing.

Definition shownState : State := stateWith [pin] idleCreation idleEditing.

Definition photo : File.t :=
  {| File.name := "cafe.png"; File.type := "image/png"; File.size := 2048 |}.

(** The creation modal is open on a dropped pin; the form holds [title]. *)
Definition creatingState (title : string) (image : option File.t) : State :=
  stateWith [pin]
    {| creationMode := true;
       tempMarker := Some (Js.Num (Js.Finite 41 0), Js.Num (Js.Finite (-73) 0));
       clickLat := Js.Num (Js.Finite 41 0);
       clickLon := Js.Num (Js.Finite (-73) 0);
       selectedNewImage := image; newTitle := title;
       newNotes := "benches"; newAddress := EmptyString;
       creationModal := true |}
    idleEditing.

Definition oldImage : string := downloadUrl "locations%2Fu1%2Floc1_1.png".

(** The edit modal is open on [loc1], which has a stored image. *)
Definition editingState (staged : option File.t) : State :=
  stateWith [pin] idleCreation
    {| editingLocationId := Some "loc1"; selectedEditImage := staged;
       currentLocationImageUrl := Some oldImage;
       editTitle := "Cafe"; editNotes := EmptyString;
       editAddress := EmptyString; editModal := true |}.

(** ** Proof tools *)

Create HintDb preserve.

Ltac unfold_state :=
  unfold withStore, withCreation, withEditing, withPage,
    setAllMarkers, setMarkers, setCache, setLoading, setSearch,
    logEvent, logRequest;
  cbn [store creation editing page allMarkers markers userProfileCache
       currentUser search loading clock trace].

Ltac unfold_handler :=
  unfold bind, ret, throw, modify, gets, tryCatch, finally,
    showLoading, showError, showSuccess, showMessage,
    clearLayers, addLayer, pushMarker;
  unfold_state.


(** Name the run of the body of a guarded mutation in the goal. *)
Ltac body_runs r s' H :=
  match goal with
  | |- context [finally (tryCatch ?body (showError _)) _ ?x] =>
      assert (H : body x = (r, s'))
  end.

(** Split a membership in a list built with [::] and [++] into its cases. *)
Ltac in_cases H :=
  repeat match type of H with
    | In _ (_ ++ _)%list => apply in_app_iff in H; destruct H as [H | H]
    | In _ (_ :: _) => destruct H as [H | H]
    | In _ [] => destruct H
    end.

(** ** The other handlers of [index.js]

    Of the DOM, the file inputs and the image previews stay left out. *)

Definition maxSize : Z := 5 * 1024 * 1024.

Definition allowedTypes : list string :=
  ["image/jpeg"; "image/jpg"; "image/png"; "image/gif"; "image/webp"].

(** [allowedTypes.includes(type)] *)
Definition isAllowedType (type : string) : bool :=
  existsb (String.eqb type) allowedTypes.

Definition validateImageFile (file : File.t) : M bool :=
  if negb (isAllowedType (File.type file)) then
    showError "Invalid file type. Please upload JPG, PNG, GIF, or WebP images." ;;
    ret false
  else if maxSize <? File.size file then
    showError "File size exceeds 5MB limit. Please choose a smaller image." ;;
    ret false
  else ret true.

Definition setSelectedNewImage (image : option File.t) (c : Creation)
  : Creation :=
  {| creationMode := creationMode c; tempMarker := tempMarker c;
     clickLat := clickLat c; clickLon := clickLon c;
     selectedNewImage := image;
     newTitle := newTitle c; newNotes := newNotes c;
     newAddress := newAddress c; creationModal := creationModal c |}.

Definition setSelectedEditImage (image : option File.t) (e : Editing)
  : Editing :=
  {| editingLocationId := editingLocationId e; selectedEditImage := image;
     currentLocationImageUrl := currentLocationImageUrl e;
     editTitle := editTitle e; editNotes := editNotes e;
     editAddress := editAddress e; editModal := editModal e |}.

(** The [change] handler of the file input of the creation modal; [file]
    is [event.target.files[0]]. *)
Definition handleNewImageSelect (file : option File.t) : M unit :=
  match file with
  | None => modify (withCreation (setSelectedNewImage None))
  | Some f =>
      valid <- validateImageFile f ;;
      if negb valid then modify (withCreation (setSelectedNewImage None))
      else modify (withCreation (setSelectedNewImage (Some f)))
  end.

(** The same for the file input of the edit modal. *)
Definition handleEditImageSelect (file : option File.t) : M unit :=
  match file with
  | None => modify (withEditing (setSelectedEditImage None))
  | Some f =>
      valid <- validateImageFile f ;;
      if negb valid then modify (withEditing (setSelectedEditImage None))
      else modify (withEditing (setSelectedEditImage (Some f)))
  end.

(** The click listener of the map: the pin is dropped at the click, the
    previous one is replaced, and the creation modal opens. *)
Definition handleMapClick (lat lon : Js.number) : M unit :=
  modify (withCreation (fun c =>
    {| creationMode := creationMode c;
       tempMarker := Some (Js.Num lat, Js.Num lon);
       clickLat := Js.Num lat; clickLon := Js.Num lon;
       selectedNewImage := selectedNewImage c;
       newTitle := newTitle c; newNotes := newNotes c;
       newAddress := newAddress c; creationModal := true |})).

(** A click on the map: [toggleCreationMode] registers the listener when
    it turns the mode on and removes it when it turns it off. *)
Definition mapClicked (lat lon : Js.number) : M unit :=
  mode <- gets (fun s => creationMode (creation s)) ;;
  if mode then handleMapClick lat lon else ret tt.

Definition cancelNewLocation : M unit :=
  modify (withCreation dropTempMarker) ;;
  modify (withCreation clearCreationForm).

Definition cancelEdit : M unit := modify (withEditing closeEdit).

(** [window.editLocation], the popup's edit button. *)
Definition editLocation (E : Env) (locationId : string) : M unit :=
  tryCatch
    (locationDoc <- request (GetDoc "locations" locationId)
                      (fun n => getLocation E n locationId) ;;
     match locationDoc with
     | Some data =>
         modify (withEditing (fun _ =>
           {| editingLocationId := Some locationId;
              selectedEditImage := None;
              currentLocationImageUrl := nonEmpty (Doc.imageUrl data);
              editTitle := Js.orElse (Doc.title data) EmptyString;
              editNotes := Js.orElse (Doc.notes data) EmptyString;
              editAddress := Js.orElse (Doc.address data) EmptyString;
              editModal := true |}))
     | None => ret tt
     end)
    (showError "Failed to load location details.").

(** *** The debounced search box

    [handleSearch] cancels the pending timer and arms a new one; when it
    fires, 300 ms after the last input, the box is read and the markers
    filtered.  The flag tells whether a timer is pending. *)
Inductive SearchStep : Type :=
| Typed (value : string)
| Elapsed.

Definition timerFires : M unit :=
  searchTerm <- gets (fun s => search (page s)) ;;
  filterMarkers searchTerm.

Definition searchStep (x : State * bool) (e : SearchStep) : State * bool :=
  match e with
  | Typed value => (withPage (setSearch value) (fst x), true)
  | Elapsed => if snd x then (snd (timerFires (fst x)), false) else x
  end.

Definition searchSteps (steps : list SearchStep) (x : State * bool)
  : State * bool :=
  fold_left searchStep steps x.

(** *** Every step of the page

    The steps of a session ([Action]), the listeners added above, the
    deletion run without its confirmation dialog, and the firing of the
    search timer. *)

Inductive Step : Type :=
| Handler (a : Action)
| SelectNewImage (file : option File.t)
| SelectEditImage (file : option File.t)
| MapClick (lat lon : Js.number)
| CancelNew
| CancelEdit
| Edit (locationId : string)
| DeleteById (locationId : string)
| SearchTimer.

Definition run (E : Env) (step : Step) : M unit :=
  match step with
  | Handler a => perform E a
  | SelectNewImage file => handleNewImageSelect file
  | SelectEditImage file => handleEditImageSelect file
  | MapClick lat lon => mapClicked lat lon
  | CancelNew => cancelNewLocation
  | CancelEdit => cancelEdit
  | Edit locationId => editLocation E locationId
  | DeleteById locationId => deleteLocationById E locationId
  | SearchTimer => timerFires
  end.

Definition runAll (E : Env) (steps : list Step) (s : State) : State :=
  fold_left (fun x step => snd (run E step x)) steps s.

(** Every layer on the map is the marker of an entry of [allMarkers]. *)
Definition renderedFromMemory (s : State) : Prop :=
  forall m, In m (markers (store s)) ->
            In m (map MarkerObj.marker (allMarkers (store s))).

(** ** [utils.js]: the message for a Firebase error *)

Module FirebaseError.
Record t : Type := { code : option string; message : option string }.
End FirebaseError.

(** The [case] labels of the two [switch] statements, in order. *)
Definition authMessages : list (string * string) :=
  [ ("auth/invalid-credential", "Invalid email or password. Please try again.");
    ("auth/user-not-found", "No account found with this email.");
    ("auth/wrong-password", "Incorrect password.");
    ("auth/invalid-email", "Invalid email address.");
    ("auth/email-already-in-use", "An account with this email already exists.");
    ("auth/weak-password", "Password is too weak. Use at least 6 characters.");
    ("auth/too-many-requests", "Too many failed attempts. Please try again later.");
    ("auth/popup-closed-by-user", EmptyString);
    ("auth/network-request-failed", "Network error. Please check your connection.") ].

Definition firestoreMessages : list (string * string) :=
  [ ("firestore/permission-denied", "You do not have permission to perform this action.");
    ("firestore/not-found", "The requested data was not found.");
    ("firestore/already-exists", "This data already exists.") ].

(** [switch (label)]: the first [case] equal to the label. *)
Definition switch (label : string) (cases : list (string * string))
  : option string :=
  snd <$> List.find (fun c => String.eqb label (fst c)) cases.

(** A value in a template literal: [undefined] prints as such. *)
Definition interpolate (o : option string) : string := default "undefined" o.

Definition getFirebaseErrorMessage (error : FirebaseError.t) : string :=
  let errorCode := Js.orElse (FirebaseError.code error) EmptyString in
  if Js.startsWith errorCode "auth/" then
    match switch errorCode authMessages with
    | Some text => text
    | None =>
        "Authentication error: " ++ interpolate (FirebaseError.message error)
    end
  else if Js.startsWith errorCode "firestore/" then
    match switch errorCode firestoreMessages with
    | Some text => text
    | None => "Database error: " ++ interpolate (FirebaseError.message error)
    end
  else
    Js.orElse (FirebaseError.message error)
      "An unexpected error occurred. Please try again.".

Definition handleError (error : FirebaseError.t) : M unit :=
  let userMessage := getFirebaseErrorMessage error in
  if Js.truthy userMessage then showError userMessage else ret tt.

(** ** The service worker ([src/unnamed/part_000])

    A cache maps the URL of a request to the response stored for it;
    [caches] holds the named caches in the order they were created.  The
    network answers a URL with a response or not at all ([fetch] rejects).
    [cache.put] is started without being awaited; it is taken to
    complete. *)

Module Sw.

Definition CACHE_NAME : string := "map-app-v6".

Definition urlsToCache : list string :=
  [ "/Interactive-Map.io/";
    "/Interactive-Map.io/index.html";
    "/Interactive-Map.io/login.html";
    "/Interactive-Map.io/settings.html";
    "/Interactive-Map.io/location.html";
    "/Interactive-Map.io/manifest.json";
    "/Interactive-Map.io/css/common.css";
    "/Interactive-Map.io/css/leaflet.css";
    "/Interactive-Map.io/css/MarkerCluster.css";
    "/Interactive-Map.io/css/MarkerCluster.Default.css";
    "/Interactive-Map.io/js/leaflet.js";
    "/Interactive-Map.io/js/leaflet.markercluster.js";
    "/Interactive-Map.io/js/firebase-config.js";
    "/Interactive-Map.io/js/utils.js";
    "/Interactive-Map.io/images/marker-icon.png";
    "/Interactive-Map.io/images/marker-icon-2x.png";
    "/Interactive-Map.io/images/marker-shadow.png";
    "/Interactive-Map.io/icons/icon-192.png";
    "/Interactive-Map.io/icons/icon-512.png" ].

(** A response: [ok] is [response.ok]. *)
Record Response : Type := { ok : bool; status : Z; body : string }.

(** A request: [origin] is the origin of its URL, [new URL(url).origin]. *)
Record Request : Type := {
  method : string;
  url : string;
  origin : string;
  destination : string
}.

Definition CacheStorage : Type := list (string * gmap string Response).

(** [caches.match(url)]: the first cache that holds the URL answers. *)
Fixpoint matchAll (caches : CacheStorage) (url : string) : option Response :=
  match caches with
  | [] => None
  | (_, cache) :: rest =>
      match cache !! url with
      | Some r => Some r
      | None => matchAll rest url
      end
  end.

(** [caches.open(name)] followed by [cache.put(url, r)]; the cache is
    created when it does not exist. *)
Fixpoint openPut (name url : string) (r : Response) (caches : CacheStorage)
  : CacheStorage :=
  match caches with
  | [] => [(name, {[ url := r ]})]
  | (n, cache) :: rest =>
      if String.eqb n name then (n, <[ url := r ]> cache) :: rest
      else (n, cache) :: openPut name url r rest
  end.

(** What a strategy answers, the caches it leaves, and whether it went to
    the network. *)
Record Served : Type := {
  response : option Response;
  caches : CacheStorage;
  fetched : bool
}.

Definition offline503 : Response :=
  {| ok := false; status := 503; body := "Offline: Resource not available." |}.

Section Worker.

(** [fetch] and [self.location.origin]. *)
Variable net : string -> option Response.
Variable selfOrigin : string.

Definition afterFetch (request : Request) (networkResponse : Response)
    (stored : CacheStorage) : CacheStorage :=
  if ok networkResponse
  then openPut CACHE_NAME (url request) networkResponse stored
  else stored.

Definition cacheFirst (stored : CacheStorage) (request : Request) : Served :=
  match matchAll stored (url request) with
  | Some cachedResponse =>
      {| response := Some cachedResponse; caches := stored; fetched := false |}
  | None =>
      match net (url request) with
      | Some networkResponse =>
          {| response := Some networkResponse;
             caches := afterFetch request networkResponse stored;
             fetched := true |}
      | None =>
          if String.eqb (destination request) "image" then
            {| response :=
                 matchAll stored
                   (selfOrigin ++ "/Interactive-Map.io/images/marker-icon.png");
               caches := stored; fetched := true |}
          else
            {| response := Some offline503; caches := stored;
               fetched := true |}
      end
  end.

Definition networkFirst (stored : CacheStorage) (request : Request) : Served :=
  match net (url request) with
  | Some networkResponse =>
      {| response := Some networkResponse;
         caches := afterFetch request networkResponse stored;
         fetched := true |}
  | None =>
      match matchAll stored (url request) with
      | Some cachedResponse =>
          {| response := Some cachedResponse; caches := stored;
             fetched := true |}
      | None =>
          {| response :=
               matchAll stored (selfOrigin ++ "/Interactive-Map.io/index.html");
             caches := stored; fetched := true |}
      end
  end.

Inductive Strategy : Type := Ignored | CacheFirst | NetworkFirst.

(** The [fetch] listener: which strategy answers a request. *)
Definition route (request : Request) : Strategy :=
  if negb (String.eqb (method request) "GET") ||
     negb (Js.includes (origin request)
             (hd EmptyString (Js.split selfOrigin ".")))
  then Ignored
  else if String.eqb (destination request) "style" ||
          String.eqb (destination request) "script" ||
          String.eqb (destination request) "image" ||
          Js.includes (url request) ".css" ||
          Js.includes (url request) ".js" ||
          Js.includes (url request) ".png" ||
          Js.includes (url request) ".jpg"
  then CacheFirst
  else if String.eqb (destination request) "document" then NetworkFirst
  else CacheFirst.

(** The answer of the worker; [None]: the request is left to the
    browser. *)
Definition onFetch (stored : CacheStorage) (request : Request)
  : option Served :=
  match route request with
  | Ignored => None
  | CacheFirst => Some (cacheFirst stored request)
  | NetworkFirst => Some (networkFirst stored request)
  end.

(** The [activate] listener: every cache but the current one is deleted. *)
Definition onActivate (stored : CacheStorage) : CacheStorage :=
  List.filter (fun c => String.eqb (fst c) CACHE_NAME) stored.

(** [cache.addAll(urls)] fetches every URL and stores the responses if
    all of them are ok; otherwise it rejects and stores nothing. *)
Fixpoint fetchAll (urls : list string) : option (list (string * Response)) :=
  match urls with
  | [] => Some []
  | u :: rest =>
      match net u, fetchAll rest with
      | Some r, Some l => if ok r then Some ((u, r) :: l) else None
      | _, _ => None
      end
  end.

(** [caches.open(name)] *)
Definition openCache (name : string) (stored : CacheStorage) : CacheStorage :=
  if existsb (fun c => String.eqb (fst c) name) stored then stored
  else (stored ++ [(name, ∅)])%list.

(** The [install] listener; [false]: the installation fails. *)
Definition onInstall (stored : CacheStorage) : bool * CacheStorage :=
  let opened := openCache CACHE_NAME stored in
  match fetchAll (map (fun path => selfOrigin ++ path) urlsToCache) with
  | Some l =>
      (true,
       fold_left (fun acc ur => openPut CACHE_NAME (fst ur) (snd ur) acc)
         l opened)
  | None => (false, opened)
  end.

(** The caches after the worker has seen a sequence of requests. *)
Definition serveAll (requests : list Request) (stored : CacheStorage)
  : CacheStorage :=
  fold_left
    (fun st request =>
       match onFetch st request with
       | Some served => caches served
       | None => st
       end)
    requests stored.

End Worker.

(** Every response held by a cache is an ok one. *)
Definition sound (stored : CacheStorage) : Prop :=
  forall name cache url r,
    In (name, cache) stored -> cache !! url = Some r -> ok r = true.

(** *** Sample data *)

Definition page200 (text : string) : Response :=
  {| ok := true; status := 200; body := text |}.

Definition notFound : Response :=
  {| ok := false; status := 404; body := "Not Found" |}.

Definition site : string := "https://brooks266.github.io".

(** A network that serves every URL of the site but [missing]. *)
Definition online (missing : string) (u : string) : Response :=
  if String.eqb u missing then notFound else page200 u.

Definition indexRequest : Request :=
  {| method := "GET";
     url := "https://brooks266.github.io/Interactive-Map.io/index.html";
     origin := site;
     destination := "document" |}.

Definition oldCaches : CacheStorage :=
  [ ("map-app-v5",
     {[ "https://brooks266.github.io/Interactive-Map.io/index.html"
        := page200 "old" ]}) ].

End Sw.

(** ** Notions used to state what the handlers do *)

(** The overlay is hidden. *)
Definition loadingOff (s : State) : Prop := loading (page s) = false.

(** A property of the forms, the signed-in user and the search box: it
    does not look at the markers, the profile cache, the overlay, the
    clock or the history. *)
Definition framed (I : State -> Prop) : Prop :=
  forall s s',
    creation s' = creation s -> editing s' = editing s ->
    currentUser (page s') = currentUser (page s) ->
    search (page s') = search (page s) ->
    I s -> I s'.

(** The requests to the file storage. *)
Definition isStorage (r : Request) : bool :=
  match r with
  | UploadBytes _ _ | GetDownloadURL _ | DeleteObject _ => true
  | _ => false
  end.

(** The size and type test of [validateImageFile], as a property. *)
Definition acceptable (f : File.t) : Prop :=
  In (File.type f) allowedTypes /\ File.size f <= 5242880.

(** The object [updateLocation] passes to [updateDoc] when the image of
    the record is [imageUrl]. *)
Definition updateData (form : Editing) (imageUrl : option string) : Fields :=
  ([ ("title", FString (Js.trim (editTitle form)));
     ("notes", FString (Js.trim (editNotes form)));
     ("address", FString (Js.trim (editAddress form)));
     ("updatedAt", FServerTimestamp) ] ++
   match nonEmpty imageUrl with
   | Some url => [("imageUrl", FString url)]
   | None => []
   end)%list.

(** The edit form [editLocation] fills in from a record. *)
Definition editFormOf (locationId : string) (data : Doc.t) : Editing :=
  {| editingLocationId := Some locationId;
     selectedEditImage := None;
     currentLocationImageUrl := nonEmpty (Doc.imageUrl data);
     editTitle := Js.orElse (Doc.title data) EmptyString;
     editNotes := Js.orElse (Doc.notes data) EmptyString;
     editAddress := Js.orElse (Doc.address data) EmptyString;
     editModal := true |}.

(** The steps that belong to the creation flow, and to the edit flow. *)
Definition ofCreationFlow (step : Step) : bool :=
  match step with
  | Handler ToggleCreation | Handler Submit | Handler (Input _ _ _)
  | SelectNewImage _ | MapClick _ _ | CancelNew => true
  | _ => false
  end.

Definition ofEditFlow (step : Step) : bool :=
  match step with
  | Handler Update | Handler DeleteEdited | Handler RemoveImage
  | Handler (Input _ _ _)
  | SelectEditImage _ | CancelEdit | Edit _ => true
  | _ => false
  end.

(** *** More sample data *)

Definition hugePhoto : File.t :=
  {| File.name := "pano.png"; File.type := "image/png";
     File.size := 6 * 1024 * 1024 |}.

Definition cafeRecord : Doc.t :=
  {| Doc.latitude := Js.Num (Js.Finite 4050 (-2));
     Doc.longitude := Js.Num (Js.Finite (-74) 0);
     Doc.title := Some " Cafe "; Doc.notes := None; Doc.address := None;
     Doc.userId := Some "u1"; Doc.imageUrl := Some oldImage;
     Doc.upvotes := None; Doc.downvotes := None |}.

(** A backend like [serving] that holds [cafeRecord] as [loc1], fulfils
    the writes as [writes] says and the fetch of all records as [loads]
    says; the user answers the dialogs with [answer]. *)
Definition backend (writes loads answer : bool) : Env :=
  {| getDocs := fun _ => if loads then Some sampleDocs else None;
     getUser := fun _ id => Some (sampleUsers !! id);
     getLocation := fun _ id =>
       Some (if String.eqb id "loc1" then Some cafeRecord else None);
     addDoc := fun _ _ => if writes then Some "loc9" else None;
     updateDoc := fun _ _ _ => writes;
     deleteDoc := fun _ _ => writes;
     uploadBytes := fun _ _ _ => true;
     getDownloadURL := fun _ path => Some (downloadUrl path);
     deleteObject := fun _ _ => false;
     now := fun _ => 1700000000000;
     confirm := fun _ _ => answer |}.

(** * Verification *)

(** ** The built-ins at work *)

Example split_examples :
  Js.split "https://host/v0/b/app/o/a%2Fb.png?alt=media" "/o/"
  = ["https://host/v0/b/app"; "a%2Fb.png?alt=media"] /\
  Js.split "https://host/pic.png" "/o/" = ["https://host/pic.png"] /\
  Js.split "a/o/" "/o/" = ["a"; EmptyString] /\
  Js.pop (Js.split "my.photo.png" ".") = Some "png".
Proof. split_and!; reflexivity. Qed.

Example trim_examples :
  Js.trim "  Old Mill " = "Old Mill" /\
  Js.toLowerCase "Old Mill" = "old mill" /\
  Js.includes "old mill" "d m" = true /\
  Js.includes "old mill" "dm" = false.
Proof. split_and!; reflexivity. Qed.

Example parseFloat_examples :
  Js.parseFloat (Js.Str " -12.50e1xyz") = Js.Finite (-1250) (-1) /\
  Js.parseFloat (Js.Str ".5") = Js.Finite 5 (-1) /\
  Js.parseFloat (Js.Str "north") = Js.NaN /\
  Js.parseFloat (Js.Str EmptyString) = Js.NaN /\
  Js.parseFloat Js.Undefined = Js.NaN /\
  Js.parseFloat (Js.Str "-Infinity") = Js.Infinity true /\
  Js.parseFloat (Js.Str "1.7976931348623157e308")
  = Js.Finite 17976931348623157 292 /\
  Js.parseFloat (Js.Str "1e309") = Js.Infinity false.
Proof. split_and!; vm_compute; reflexivity. Qed.

Example decodeURIComponent_examples :
  Js.decodeURIComponent "locations%2Fu1%2Floc1_1.png"
  = Some "locations/u1/loc1_1.png" /\
  Js.decodeURIComponent "caf%C3%A9.png" = Some "café.png" /\
  Js.decodeURIComponent "100%" = None /\
  Js.decodeURIComponent "%C3.png" = None.
Proof. split_and!; vm_compute; reflexivity. Qed.

Example storagePathOf_examples :
  storagePathOf (downloadUrl "locations%2Fu1%2Floc1_1.png")
  = Some (Some "locations/u1/loc1_1.png") /\
  storagePathOf "https://host/pic.png" = None /\
  storagePathOf "https://host/o/100%25%" = Some None.
Proof. split_and!; vm_compute; reflexivity. Qed.

(** ** Strings *)

Lemma append_cons (x : ascii) (a b : string) :
  String x a ++ b = String x (a ++ b).
Proof. reflexivity. Qed.

Lemma append_assoc (a b c : string) : (a ++ b) ++ c = a ++ (b ++ c).
Proof.
  induction a as [|x a IH]; [reflexivity |].
  rewrite !append_cons. now rewrite IH.
Qed.

Lemma append_nil_r (a : string) : a ++ EmptyString = a.
Proof.
  induction a as [|x a IH]; [reflexivity |].
  rewrite append_cons. now rewrite IH.
Qed.

(** ** Marker Presenter *)

Lemma scoreStyle_positive (score : Z) :
  0 < score -> scoreStyle score = (green, "+").
Proof.
  intros H. unfold scoreStyle.
  destruct (Z.ltb_spec 0 score); [reflexivity | lia].
Qed.

Lemma scoreStyle_negative (score : Z) :
  score < 0 -> scoreStyle score = (red, EmptyString).
Proof.
  intros H. unfold scoreStyle.
  destruct (Z.ltb_spec 0 score); [lia |].
  destruct (Z.ltb_spec score 0); [reflexivity | lia].
Qed.

Lemma scoreStyle_zero : scoreStyle 0 = (gray, EmptyString).
Proof. reflexivity. Qed.

Lemma ofZ_negative (z : Z) : z < 0 -> Js.ofZ z = "-" ++ Js.ofZ (- z).
Proof. destruct z as [|p|p]; intros H; try lia. reflexivity. Qed.

(** C7. The popup shows the score [|upvotes| - |downvotes|]: green with a
    leading [+] when positive, red with its minus sign when negative, gray
    and unsigned when zero, followed by the counts as [(↑U ↓D)]; so a score
    of 3 reads [+3], of -2 reads [-2], of 0 reads [0]. *)
Theorem vote_score_display (currentUser : option string)
    (locationId title : string) (lat lon : Js.number)
    (notes address user userId : string) (upvotes downvotes : list string) :
  let U := Z.of_nat (length upvotes) in
  let D := Z.of_nat (length downvotes) in
  let score := voteScore upvotes downvotes in
  let color := fst (scoreStyle score) in
  let shown := snd (scoreStyle score) ++ Js.ofZ score in
  score = U - D /\
  (exists pre mid post,
     createPopupContent currentUser locationId title lat lon notes address
       user userId upvotes downvotes
     = pre ++ "<strong style=" ++ Js.dq ++ "color: " ++ color ++
       "; font-size: 14px;" ++ Js.dq ++ ">Score: " ++ shown ++ "</strong>" ++
       mid ++ "(↑" ++ Js.ofZ U ++ " ↓" ++ Js.ofZ D ++ ")" ++ post) /\
  (0 < score -> color = green /\ shown = "+" ++ Js.ofZ score) /\
  (score < 0 -> color = red /\ shown = "-" ++ Js.ofZ (- score)) /\
  (score = 0 -> color = gray /\ shown = "0") /\
  snd (scoreStyle 3) ++ Js.ofZ 3 = "+3" /\
  snd (scoreStyle (-2)) ++ Js.ofZ (-2) = "-2" /\
  snd (scoreStyle 0) ++ Js.ofZ 0 = "0".
Proof.
  intros U D score color shown.
  split; [reflexivity |].
  split.
  { unfold createPopupContent. fold U D.
    change (U - D) with score.
    subst color shown.
    destruct (scoreStyle score) as [c p] eqn:Hst. simpl fst. simpl snd.
    exists ("<b>" ++ title ++ "</b><br>" ++
            "<div style=" ++ Js.dq ++ "margin: 8px 0; padding: 6px 10px; background: #f8f9fa; border-radius: 4px; border-left: 3px solid " ++ c ++ ";" ++ Js.dq ++ ">" ++ Js.nl ++ "            ").
    exists (Js.nl ++ "            <span style=" ++ Js.dq ++ "color: #666; font-size: 12px; margin-left: 8px;" ++ Js.dq ++ ">").
    exists ("</span>" ++ Js.nl ++ "        </div>" ++
            popupDetails currentUser locationId notes address user userId).
    unfold scoreBlock.
    rewrite !append_assoc. reflexivity. }
  split.
  { intros H. subst color shown. rewrite (scoreStyle_positive score H).
    split; reflexivity. }
  split.
  { intros H. subst color shown. rewrite (scoreStyle_negative score H).
    split; [reflexivity |]. simpl snd. simpl. now apply ofZ_negative. }
  split.
  { intros H. subst color shown. rewrite H. split; reflexivity. }
  repeat split.
Qed.

Lemma vote_score_display_witness :
  let up := ["a"; "b"; "c"] in
  let down := ["d"] in
  voteScore up down = 2 /\
  fst (scoreStyle (voteScore up down)) = green /\
  snd (scoreStyle (voteScore up down)) ++ Js.ofZ (voteScore up down) = "+2".
Proof.
  intros up down.
  destruct (vote_score_display None "id" "t" (Js.Finite 0 0) (Js.Finite 0 0)
              "n" "a" "u" "o" up down) as (Hs & _ & Hpos & _).
  split; [exact Hs |].
  apply Hpos. reflexivity.
Defined.

(** ** Search Filter *)

Lemma startsWith_spec (s p : string) :
  Js.startsWith s p = true <-> exists post, s = p ++ post.
Proof.
  revert s. induction p as [|a p IH]; intros s; simpl.
  - split; [intros _; now exists s | reflexivity].
  - destruct s as [|b s].
    + split; [discriminate | intros [post H]; discriminate].
    + rewrite andb_true_iff, Ascii.eqb_eq, IH. split.
      * intros [-> [post ->]]. now exists post.
      * intros [post H]. rewrite append_cons in H.
        injection H as -> ->. split; [reflexivity | now exists post].
Qed.

Lemma includes_spec (s t : string) :
  Js.includes s t = true <-> isSubstring t s.
Proof.
  unfold isSubstring. induction s as [|c s IH].
  - cbn [Js.includes]. rewrite orb_false_r, startsWith_spec. split.
    + intros [post H]. now exists EmptyString, post.
    + intros [[|x pre] [post H]].
      * now exists post.
      * rewrite append_cons in H. discriminate.
  - cbn [Js.includes]. rewrite orb_true_iff, startsWith_spec, IH. split.
    + intros [[post H] | (pre & post & H)].
      * now exists EmptyString, post.
      * exists (String c pre), post. rewrite append_cons. now rewrite H.
    + intros [[|x pre] [post H]].
      * left. now exists post.
      * right. rewrite append_cons in H. injection H as -> ->.
        now exists pre, post.
Qed.

Lemma isWhite_lowerChar (c : ascii) : Js.isWhite (Js.lowerChar c) = Js.isWhite c.
Proof. destruct c as [[] [] [] [] [] [] [] []]; reflexivity. Qed.

Lemma truthy_toLowerCase (s : string) :
  Js.truthy (Js.toLowerCase s) = Js.truthy s.
Proof. destruct s; reflexivity. Qed.

Lemma trimStart_toLowerCase (s : string) :
  Js.trimStart (Js.toLowerCase s) = Js.toLowerCase (Js.trimStart s).
Proof.
  induction s as [|c s IH]; [reflexivity |].
  cbn [Js.toLowerCase Js.trimStart]. rewrite isWhite_lowerChar.
  destruct (Js.isWhite c); [exact IH | reflexivity].
Qed.

Lemma trimEnd_toLowerCase (s : string) :
  Js.trimEnd (Js.toLowerCase s) = Js.toLowerCase (Js.trimEnd s).
Proof.
  induction s as [|c s IH]; [reflexivity |].
  cbn [Js.toLowerCase Js.trimEnd]. rewrite isWhite_lowerChar, IH.
  rewrite truthy_toLowerCase.
  destruct (Js.isWhite c && negb (Js.truthy (Js.trimEnd s))); reflexivity.
Qed.

(** Trimming and lowercasing commute, so the query of the specification is
    the [term] of the code. *)
Lemma trim_toLowerCase (s : string) :
  Js.trim (Js.toLowerCase s) = Js.toLowerCase (Js.trim s).
Proof.
  unfold Js.trim. now rewrite trimStart_toLowerCase, trimEnd_toLowerCase.
Qed.

Lemma orElse_Some_empty (s : string) : Js.orElse (Some s) EmptyString = s.
Proof. destruct s; reflexivity. Qed.

Lemma matchesTerm_spec (term : string) (m : MarkerObj.t) :
  matchesTerm term m = true <->
  isSubstring term (Js.toLowerCase (MarkerObj.title m)) \/
  isSubstring term (Js.toLowerCase (MarkerObj.notes m)) \/
  isSubstring term (Js.toLowerCase (MarkerObj.address m)) \/
  isSubstring term (Js.toLowerCase (MarkerObj.user m)).
Proof.
  unfold matchesTerm. rewrite !orElse_Some_empty.
  rewrite !orb_true_iff, !includes_spec. tauto.
Qed.

Lemma keep_spec (query : string) (m : MarkerObj.t) :
  let term := Js.toLowerCase (Js.trim query) in
  String.eqb term EmptyString || matchesTerm term m = true <->
  specVisible query m.
Proof.
  intros term. unfold specVisible. rewrite trim_toLowerCase. fold term.
  rewrite orb_true_iff, String.eqb_eq, matchesTerm_spec. tauto.
Qed.

Lemma addLayer_run (m : Marker.t) (s : State) :
  addLayer m s
  = (Return tt, withStore (fun st => setMarkers (markers st ++ [m])%list st) s).
Proof. reflexivity. Qed.

Lemma ret_run {A} (a : A) (s : State) : ret a s = (Return a, s).
Proof. reflexivity. Qed.

(** Adding the markers of a list that pass a test appends them in order. *)
Lemma forEach_addLayer (keep : MarkerObj.t -> bool) (l : list MarkerObj.t)
    (s : State) :
  forEach l (fun o => if keep o then addLayer (MarkerObj.marker o) else ret tt) s
  = (Return tt,
     withStore (fun st =>
       setMarkers (markers st ++ map MarkerObj.marker (List.filter keep l))%list st) s).
Proof.
  revert s. induction l as [|o l IH]; intros s.
  - cbn [forEach List.filter map]. unfold_handler.
    rewrite app_nil_r. now destruct s as [[a m c] cr ed pg].
  - cbn [forEach List.filter]. unfold bind at 1.
    destruct (keep o); [rewrite addLayer_run | rewrite ret_run];
      rewrite IH; unfold_state.
    + cbn [map]. now rewrite <- app_assoc.
    + reflexivity.
Qed.

Lemma forEach_addLayer_all (l : list MarkerObj.t) (s : State) :
  forEach l (fun o => addLayer (MarkerObj.marker o)) s
  = (Return tt,
     withStore (fun st =>
       setMarkers (markers st ++ map MarkerObj.marker l)%list st) s).
Proof.
  revert s. induction l as [|o l IH]; intros s.
  - cbn [forEach map]. unfold_handler.
    rewrite app_nil_r. now destruct s as [[a m c] cr ed pg].
  - cbn [forEach]. unfold bind at 1. rewrite addLayer_run, IH.
    unfold_state. cbn [map]. now rewrite <- app_assoc.
Qed.

Lemma filter_true {A} (l : list A) : List.filter (fun _ => true) l = l.
Proof. induction l as [|x l IH]; cbn; [reflexivity | now rewrite IH]. Qed.

Lemma filter_idem {A} (p : A -> bool) (l : list A) :
  List.filter p (List.filter p l) = List.filter p l.
Proof.
  induction l as [|x l IH]; cbn; [reflexivity |].
  destruct (p x) eqn:Hp; cbn; rewrite ?Hp, IH; reflexivity.
Qed.

(** What [filterMarkers] does to the state: the layers become the markers
    of the visible entries, nothing else changes. *)
Lemma filterMarkers_run (query : string) (s : State) :
  filterMarkers query s
  = (Return tt,
     withStore (setMarkers
       (map MarkerObj.marker (visible query (allMarkers (store s))))) s).
Proof.
  unfold filterMarkers, visible.
  set (term := Js.toLowerCase (Js.trim query)).
  unfold bind, clearLayers, modify, gets.
  destruct (String.eqb term EmptyString) eqn:Hterm; cbn [orb].
  - rewrite forEach_addLayer_all. unfold_state. now rewrite filter_true.
  - rewrite forEach_addLayer. unfold_state. reflexivity.
Qed.

(** C6. For every query and marker list the visible set is the set of
    markers for which the trimmed, lowercased query is empty or occurs in
    the lowercased title, notes, address or owner name, kept in order; and
    filtering is idempotent, on the list and on the rendered layers. *)
Theorem filterMarkers_visible (query : string) (s : State) :
  let all := allMarkers (store s) in
  filterMarkers query s
  = (Return tt,
     withStore (setMarkers (map MarkerObj.marker (visible query all))) s) /\
  (forall m, In m (visible query all) <-> In m all /\ specVisible query m) /\
  visible query (visible query all) = visible query all /\
  (filterMarkers query ;; filterMarkers query) s = filterMarkers query s /\
  filterMarkers query
    (withStore (setAllMarkers (visible query all)) s)
  = (Return tt,
     withStore (setMarkers (map MarkerObj.marker (visible query all)))
       (withStore (setAllMarkers (visible query all)) s)).
Proof.
  intros all. split; [apply filterMarkers_run |].
  split.
  { intros m. unfold visible. rewrite filter_In.
    now rewrite (keep_spec query m). }
  split; [apply filter_idem |].
  split.
  { unfold bind. rewrite !filterMarkers_run. reflexivity. }
  rewrite filterMarkers_run. unfold_state. fold all.
  now rewrite (filter_idem _ all : visible query (visible query all) = _).
Qed.

(** ** Profile Resolver *)

Lemma fetchesOf_app (u : string) (l1 l2 : list Event) :
  fetchesOf u (l1 ++ l2) = (fetchesOf u l1 + fetchesOf u l2)%nat.
Proof. unfold fetchesOf. now rewrite List.filter_app, length_app. Qed.

Lemma resolved_refl (s : State) : resolved s s.
Proof.
  unfold resolved. split_and!; auto.
  exists []. rewrite app_nil_r. cbn. split_and!; auto; lia.
Qed.

Lemma resolved_trans (s1 s2 s3 : State) :
  resolved s1 s2 -> resolved s2 s3 -> resolved s1 s3.
Proof.
  intros (Hc1 & Ha1 & Hm1 & Hcr1 & He1 & Hu1 & Hs1 & Hl1 & ev1 & Ht1 & Hk1 & Hf1 & Hz1 & Ho1 & Hi1)
         (Hc2 & Ha2 & Hm2 & Hcr2 & He2 & Hu2 & Hs2 & Hl2 & ev2 & Ht2 & Hk2 & Hf2 & Hz2 & Ho2 & Hi2).
  unfold resolved. split_and!; try congruence; auto.
  exists (ev1 ++ ev2)%list.
  assert (Hmono : forall u, is_Some (userProfileCache (store s1) !! u) ->
                            is_Some (userProfileCache (store s2) !! u)).
  { intros u [p Hp]. exists p. auto. }
  assert (Hmono2 : forall u, is_Some (userProfileCache (store s2) !! u) ->
                             is_Some (userProfileCache (store s3) !! u)).
  { intros u [p Hp]. exists p. auto. }
  split_and!.
  - rewrite Ht2, Ht1. now rewrite app_assoc.
  - rewrite Hk2, Hk1, length_app. lia.
  - apply Forall_app. split; assumption.
  - intros u Hu. rewrite fetchesOf_app, (Hz1 u Hu), (Hz2 u (Hmono u Hu)).
    reflexivity.
  - intros u. rewrite fetchesOf_app.
    specialize (Ho1 u). specialize (Ho2 u).
    destruct (fetchesOf u ev1) as [|[|n]] eqn:H1; try lia.
    rewrite (Hz2 u (Hi1 u H1)). lia.
  - intros u. rewrite fetchesOf_app. intros H.
    specialize (Ho1 u). specialize (Ho2 u).
    destruct (fetchesOf u ev1) as [|[|n]] eqn:H1; try lia.
    + apply Hi2. lia.
    + apply Hmono2, Hi1. exact H1.
Qed.

Section ProfileResolver.

Variable E : Env.

(** One call, case by case. *)
Lemma fetchUserProfile_run (userId : string) (s : State) :
  fetchUserProfile E userId s =
  if negb (Js.truthy userId) then (Return defaultProfile, s)
  else
    match userProfileCache (store s) !! userId with
    | Some profile => (Return profile, s)
    | None =>
        let answer := getUser E (clock (page s)) userId in
        (Return (profileOf answer),
         withStore
           (fun st =>
              setCache (<[userId := profileOf answer]> (userProfileCache st)) st)
           (withPage
              (logRequest (GetDoc "users" userId) (fulfilled answer)) s))
    end.
Proof.
  unfold fetchUserProfile.
  destruct (negb (Js.truthy userId)); [reflexivity |].
  unfold bind at 1, gets at 1.
  destruct (userProfileCache (store s) !! userId) as [p|] eqn:Hc;
    [reflexivity |].
  unfold bind, tryCatch, request.
  destruct (getUser E (clock (page s)) userId) as [[ud|]|]; reflexivity.
Qed.

(** A cached profile is returned as it is: no request, no change. *)
Lemma fetchUserProfile_hit (userId : string) (p : Profile.t) (s : State) :
  userProfileCache (store s) !! userId = Some p ->
  Js.truthy userId = true ->
  fetchUserProfile E userId s = (Return p, s).
Proof.
  intros Hc Ht. rewrite fetchUserProfile_run, Ht, Hc. reflexivity.
Qed.

Lemma fetchesOf_one (u userId : string) (ok : bool) :
  fetchesOf u [Requested (GetDoc "users" userId) ok]
  = if String.eqb userId u then 1%nat else 0%nat.
Proof.
  unfold fetchesOf. cbn. destruct (String.eqb userId u); reflexivity.
Qed.

(** A call never throws, and a non-empty id is cached when it returns. *)
Lemma fetchUserProfile_resolved (userId : string) (s : State) :
  exists p s',
    fetchUserProfile E userId s = (Return p, s') /\
    resolved s s' /\
    (Js.truthy userId = true ->
     userProfileCache (store s') !! userId = Some p).
Proof.
  rewrite fetchUserProfile_run.
  destruct (Js.truthy userId) eqn:Ht; cbn [negb].
  2:{ exists defaultProfile, s. split_and!; [reflexivity | apply resolved_refl | discriminate]. }
  destruct (userProfileCache (store s) !! userId) as [p|] eqn:Hc.
  { exists p, s. split_and!; [reflexivity | apply resolved_refl | auto]. }
  cbv zeta.
  set (answer := getUser E (clock (page s)) userId).
  eexists _, _. split; [reflexivity |].
  split.
  2:{ intros _. unfold_state. apply lookup_insert_eq. }
  unfold resolved. unfold_state. split_and!; auto.
  { intros u p Hu. rewrite lookup_insert_ne; [exact Hu | congruence]. }
  exists [Requested (GetDoc "users" userId) (fulfilled answer)].
  split_and!.
  - reflexivity.
  - cbn. lia.
  - repeat constructor. eauto.
  - intros u [p Hu]. rewrite fetchesOf_one.
    destruct (String.eqb_spec userId u); [congruence | reflexivity].
  - intros u. rewrite fetchesOf_one. destruct (String.eqb userId u); lia.
  - intros u. rewrite fetchesOf_one.
    destruct (String.eqb_spec userId u); [| discriminate].
    intros _. subst u. rewrite lookup_insert_eq. eauto.
Qed.

(** A sequence of calls never throws either. *)
Lemma resolveAll_resolved (userIds : list string) (s : State) :
  exists s',
    resolveAll E userIds s = (Return tt, s') /\
    resolved s s' /\
    (forall u, In u userIds -> Js.truthy u = true ->
               is_Some (userProfileCache (store s') !! u)).
Proof.
  revert s. induction userIds as [|u l IH]; intros s.
  - exists s. split_and!; [reflexivity | apply resolved_refl | intros u []].
  - unfold resolveAll. cbn [forEach]. fold (resolveAll E l).
    destruct (fetchUserProfile_resolved u s) as (p & s1 & Hrun & Hres & Hin).
    destruct (IH s1) as (s2 & Hrun2 & Hres2 & Hin2).
    exists s2. unfold bind at 1 2. rewrite Hrun. unfold ret at 1.
    rewrite Hrun2. split_and!.
    + reflexivity.
    + eapply resolved_trans; eassumption.
    + intros v [<- | Hv] Ht.
      * exists p. destruct Hres2 as [Hmono _]. apply Hmono, Hin, Ht.
      * apply Hin2; assumption.
Qed.

End ProfileResolver.

(** ** Location Store *)

Lemma collect_eq (acc : list Location.t * list string) (d : DocSnap.t) :
  collect acc d =
  if validCoords d then
    ((fst acc ++ [toLocation d])%list,
     if Js.truthy (Location.userId (toLocation d))
     then setAdd (Location.userId (toLocation d)) (snd acc) else snd acc)
  else acc.
Proof. reflexivity. Qed.

Lemma firstPass_from (docs : list DocSnap.t)
    (acc : list Location.t * list string) :
  fst (fold_left collect docs acc)
  = (fst acc ++ map toLocation (List.filter validCoords docs))%list.
Proof.
  revert acc. induction docs as [|d docs IH]; intros acc.
  - cbn. now rewrite app_nil_r.
  - cbn [fold_left List.filter]. rewrite IH, collect_eq.
    destruct (validCoords d); cbn [fst map]; [| reflexivity].
    now rewrite <- app_assoc.
Qed.

(** The first pass keeps the documents with valid coordinates, in order. *)
Lemma firstPass_locations (docs : list DocSnap.t) :
  fst (firstPass docs) = map toLocation (List.filter validCoords docs).
Proof. unfold firstPass. now rewrite firstPass_from. Qed.

Lemma In_setAdd (x u : string) (l : list string) :
  In u (setAdd x l) <-> u = x \/ In u l.
Proof.
  unfold setAdd. destruct (bool_decide_reflect (x ∈ l)) as [Hx | Hx].
  - split; [tauto |]. intros [-> | H]; [| exact H].
    now apply list_elem_of_In.
  - rewrite in_app_iff. cbn. intuition.
Qed.

Lemma firstPass_ids_from (docs : list DocSnap.t)
    (acc : list Location.t * list string) (u : string) :
  In u (snd (fold_left collect docs acc)) <->
  In u (snd acc) \/
  exists d, In d docs /\ validCoords d = true /\
            Js.truthy u = true /\ Location.userId (toLocation d) = u.
Proof.
  revert acc. induction docs as [|d docs IH]; intros acc.
  - cbn. split; [tauto |]. intros [H | (d & [] & _)]. exact H.
  - cbn [fold_left]. rewrite IH, collect_eq. clear IH.
    destruct (validCoords d) eqn:Hv.
    + cbn [snd].
      destruct (Js.truthy (Location.userId (toLocation d))) eqn:Ht.
      * rewrite In_setAdd. split.
        -- intros [[-> | H] | (d' & Hd' & H)].
           ++ right. exists d. cbn. auto.
           ++ now left.
           ++ right. exists d'. cbn. auto.
        -- intros [H | (d' & [<- | Hd'] & Hv' & Ht' & Hu)].
           ++ left. now right.
           ++ left. left. now symmetry.
           ++ right. exists d'. auto.
      * split.
        -- intros [H | (d' & Hd' & H)]; [now left |].
           right. exists d'. cbn. auto.
        -- intros [H | (d' & [<- | Hd'] & Hv' & Ht' & Hu)]; [now left | |].
           ++ congruence.
           ++ right. exists d'. auto.
    + split.
      * intros [H | (d' & Hd' & H)]; [now left |].
        right. exists d'. cbn. auto.
      * intros [H | (d' & [<- | Hd'] & Hv' & Ht' & Hu)]; [now left | |].
        -- congruence.
        -- right. exists d'. auto.
Qed.

(** The distinct-owner pass holds the non-empty owner ids of the documents
    with valid coordinates, and no others. *)
Lemma firstPass_ids (docs : list DocSnap.t) (u : string) :
  In u (snd (firstPass docs)) <->
  exists d, In d docs /\ validCoords d = true /\
            Js.truthy u = true /\ Location.userId (toLocation d) = u.
Proof.
  unfold firstPass. rewrite firstPass_ids_from. cbn. split.
  - intros [[] | H]. exact H.
  - intros H. now right.
Qed.

Lemma pushMarker_run (o : MarkerObj.t) (s : State) :
  pushMarker o s
  = (Return tt,
     withStore (fun st => setAllMarkers (allMarkers st ++ [o])%list st) s).
Proof. reflexivity. Qed.

Section LocationStore.

Variable E : Env.

(** With the owners cached, a call in the second pass is a cache read. *)
Lemma fetchUserProfile_cached (userId : string) (s : State) :
  (Js.truthy userId = true ->
   is_Some (userProfileCache (store s) !! userId)) ->
  fetchUserProfile E userId s
  = (Return (profileIn (userProfileCache (store s)) userId), s).
Proof.
  intros H. rewrite fetchUserProfile_run. unfold profileIn.
  destruct (Js.truthy userId); [| reflexivity].
  destruct (H eq_refl) as [p Hp]. rewrite Hp. reflexivity.
Qed.

(** The second pass appends one entry per location to [allMarkers] and
    adds their markers to the map, save the last batch it returns. *)
Lemma secondPass_run (docs : list DocSnap.t)
    (locationData : list Location.t) :
  forall (currentBatch : list MarkerObj.t) (s : State),
    (forall location, In location locationData ->
       Js.truthy (Location.userId location) = true ->
       is_Some (userProfileCache (store s) !! Location.userId location)) ->
    let built :=
      builtMarkers (currentUser (page s)) (userProfileCache (store s))
        docs locationData in
    exists batch shown,
      secondPass E docs locationData currentBatch s
      = (Return batch,
         withStore
           (fun st =>
              setAllMarkers (allMarkers st ++ built)%list
                (setMarkers (markers st ++ shown)%list st)) s) /\
      (shown ++ map MarkerObj.marker batch)%list
      = map MarkerObj.marker (currentBatch ++ built)%list.
Proof.
  induction locationData as [|location rest IH]; intros currentBatch s Hin built.
  - exists currentBatch, []. subst built. cbn.
    rewrite !app_nil_r. split; [| reflexivity].
    unfold ret. unfold_state. rewrite !app_nil_r.
    now destruct s as [[a m c] cr ed pg].
  - cbn [secondPass]. unfold bind at 1.
    rewrite fetchUserProfile_cached by (apply Hin; now left).
    unfold bind at 1, gets at 1. unfold bind at 1.
    rewrite pushMarker_run.
    set (markerObj :=
           buildMarker (currentUser (page s)) docs location
             (Profile.displayName
                (profileIn (userProfileCache (store s))
                   (Location.userId location)))).
    set (s1 := withStore
                 (fun st => setAllMarkers (allMarkers st ++ [markerObj])%list st) s).
    assert (Hbuilt : built
                     = markerObj ::
                       builtMarkers (currentUser (page s1))
                         (userProfileCache (store s1)) docs rest)
      by reflexivity.
    destruct (batchSize <=? length (currentBatch ++ [markerObj])%list)%nat.
    + unfold bind at 1. rewrite forEach_addLayer_all.
      set (s2 := withStore _ s1).
      destruct (IH [] s2) as (batch & shown & Hrun & Hshown).
      { intros l Hl Ht. apply (Hin l); [now right | exact Ht]. }
      exists batch,
        (map MarkerObj.marker (currentBatch ++ [markerObj]) ++ shown)%list.
      rewrite Hrun. split.
      * subst s2 s1. rewrite Hbuilt. unfold_state.
        rewrite <- !app_assoc. reflexivity.
      * rewrite Hbuilt, <- app_assoc, Hshown. cbn [app].
        rewrite <- map_app, <- app_assoc. reflexivity.
    + destruct (IH (currentBatch ++ [markerObj])%list s1)
        as (batch & shown & Hrun & Hshown).
      { intros l Hl Ht. apply (Hin l); [now right | exact Ht]. }
      exists batch, shown. rewrite Hrun. split.
      * subst s1. rewrite Hbuilt. unfold_state.
        rewrite <- !app_assoc. reflexivity.
      * rewrite Hbuilt, Hshown, <- app_assoc. reflexivity.
Qed.

(** A load whose fetch fails. *)
Lemma load_failure (s : State) :
  getDocs E (clock (page s)) = None ->
  loadLocationsFromFirestore E s = (Return tt, failedState s).
Proof.
  intros H. unfold loadLocationsFromFirestore, failedState.
  unfold bind, tryCatch, request, showLoading, showError, showMessage,
    clearLayers, modify.
  cbn [page withStore withPage clock setLoading]. rewrite H. reflexivity.
Qed.

(** A load whose fetch succeeds: the owners of the valid documents are
    resolved, then the markers are built from the cache. *)
Lemma load_success (s : State) (docs : list DocSnap.t) :
  getDocs E (clock (page s)) = Some docs ->
  exists s1,
    resolveAll E (snd (firstPass docs)) (fetchedState s) = (Return tt, s1) /\
    resolved (fetchedState s) s1 /\
    (forall u, In u (snd (firstPass docs)) ->
               is_Some (userProfileCache (store s1) !! u)) /\
    let built :=
      builtMarkers (currentUser (page s)) (userProfileCache (store s1))
        docs (fst (firstPass docs)) in
    loadLocationsFromFirestore E s
    = (Return tt,
       withStore
         (fun st => setAllMarkers built
                      (setMarkers (map MarkerObj.marker built) st)) s1).
Proof.
  intros H.
  destruct (resolveAll_resolved E (snd (firstPass docs)) (fetchedState s))
    as (s1 & Hrun & Hres & Hin).
  assert (Hids : forall u, In u (snd (firstPass docs)) ->
                           is_Some (userProfileCache (store s1) !! u)).
  { intros u Hu. apply Hin; [exact Hu |].
    apply firstPass_ids in Hu. destruct Hu as (d & _ & _ & Ht & _).
    exact Ht. }
  exists s1. split_and!; [exact Hrun | exact Hres | exact Hids |].
  intros built.
  pose proof Hres as (_ & Ha & Hm & _ & _ & Hu & _).
  destruct (secondPass_run docs (fst (firstPass docs)) [] s1)
    as (batch & shown & Hsecond & Hshown).
  { intros l Hl Ht. apply Hids.
    rewrite firstPass_locations in Hl. apply in_map_iff in Hl.
    destruct Hl as (d & <- & Hd). apply filter_In in Hd.
    apply firstPass_ids. exists d. tauto. }
  unfold loadLocationsFromFirestore.
  unfold bind at 1, showLoading at 1, modify at 1.
  unfold tryCatch. unfold bind at 1, clearLayers at 1, modify at 1.
  unfold bind at 1, request at 1.
  cbn [page withStore withPage clock setLoading]. rewrite H.
  unfold bind at 1, showLoading at 1, modify at 1.
  unfold bind at 1, modify at 1.
  change (withStore (setAllMarkers []) _) with (fetchedState s).
  destruct (firstPass docs) as [locationData userIds] eqn:Hfp.
  cbn [fst snd] in *.
  unfold bind at 1. fold (resolveAll E userIds). rewrite Hrun.
  unfold bind at 1. rewrite Hsecond.
  rewrite forEach_addLayer_all.
  replace (currentUser (page s1)) with (currentUser (page s)) in *
    by (rewrite Hu; reflexivity).
  fold built in Hshown |- *.
  unfold_state. rewrite Ha, Hm. cbn [fetchedState]. unfold_state.
  cbn [app] in *. rewrite <- app_assoc, Hshown. reflexivity.
Qed.

End LocationStore.

(** The events of a sequence of resolutions are fetches for its ids. *)
Lemma resolveAll_events (E : Env) (userIds : list string) (s s' : State) :
  resolveAll E userIds s = (Return tt, s') ->
  exists events,
    trace (page s') = (trace (page s) ++ events)%list /\
    Forall (fun e => exists id ok,
              e = Requested (GetDoc "users" id) ok /\ In id userIds) events.
Proof.
  revert s. induction userIds as [|u l IH]; intros s.
  - cbn. intros [= <-]. exists []. now rewrite app_nil_r.
  - unfold resolveAll. cbn [forEach]. fold (resolveAll E l).
    unfold bind at 1 2. rewrite fetchUserProfile_run.
    assert (Hweaken : forall s1 ev1,
      trace (page s1) = (trace (page s) ++ ev1)%list ->
      Forall (fun e => exists id ok,
                e = Requested (GetDoc "users" id) ok /\ In id (u :: l)) ev1 ->
      resolveAll E l s1 = (Return tt, s') ->
      exists events,
        trace (page s') = (trace (page s) ++ events)%list /\
        Forall (fun e => exists id ok,
                  e = Requested (GetDoc "users" id) ok /\ In id (u :: l)) events).
    { intros s1 ev1 Htr Hev Hrun.
      destruct (IH s1 Hrun) as (ev2 & Htr2 & Hev2).
      exists (ev1 ++ ev2)%list. split.
      - now rewrite Htr2, Htr, app_assoc.
      - apply Forall_app. split; [exact Hev |].
        eapply Forall_impl; [exact Hev2 |].
        intros e (id & ok & -> & Hid). exists id, ok. split; [reflexivity | now right]. }
    destruct (negb (Js.truthy u)).
    { unfold ret at 1. intros Hrun.
      apply (Hweaken s []); [now rewrite app_nil_r | constructor | exact Hrun]. }
    destruct (userProfileCache (store s) !! u).
    { unfold ret at 1. intros Hrun.
      apply (Hweaken s []); [now rewrite app_nil_r | constructor | exact Hrun]. }
    cbv zeta. unfold ret at 1. intros Hrun.
    eapply Hweaken; [| | exact Hrun].
    + unfold_state. reflexivity.
    + repeat constructor. eexists _, _. split; [reflexivity | now left].
Qed.

(** C1 (amended). When the fetch of the location records fails the load
    returns with the error message shown; the marker list, the profile
    cache and the forms are as before, but the map has no markers left:
    the layers are cleared before the fetch is issued. *)
Theorem reload_failure (E : Env) (s : State) :
  getDocs E (clock (page s)) = None ->
  exists s',
    loadLocationsFromFirestore E s = (Return tt, s') /\
    trace (page s')
    = (trace (page s) ++
       [ Requested GetDocs false;
         Message error "Failed to load locations. Please refresh the page." ])%list /\
    allMarkers (store s') = allMarkers (store s) /\
    userProfileCache (store s') = userProfileCache (store s) /\
    creation s' = creation s /\
    editing s' = editing s /\
    loading (page s') = false /\
    markers (store s') = [].
Proof.
  intros H. exists (failedState s). split; [now apply load_failure |].
  unfold failedState. unfold_state. rewrite <- app_assoc.
  split_and!; reflexivity.
Qed.

Lemma reload_failure_witness :
  exists s',
    loadLocationsFromFirestore offline shownState = (Return tt, s') /\
    allMarkers (store s') = [pin] /\
    markers (store s') = [].
Proof.
  destruct (reload_failure offline shownState eq_refl)
    as (s' & Hrun & _ & Hall & _ & _ & _ & _ & Hlayers).
  exists s'. split_and!; [exact Hrun | exact Hall | exact Hlayers].
Defined.

(** C1 as stated fails: with one marker rendered and the backend
    unreachable, the load ends with the marker list intact and the error
    shown, but the rendered markers are not as they were. *)
Lemma failed_load_clears_rendered_markers :
  let s' := snd (loadLocationsFromFirestore offline shownState) in
  getDocs offline (clock (page shownState)) = None /\
  allMarkers (store s') = allMarkers (store shownState) /\
  markers (store shownState) = [MarkerObj.marker pin] /\
  markers (store s') = [] /\
  markers (store s') <> markers (store shownState).
Proof. cbv zeta. split_and!; try reflexivity. discriminate. Qed.

(** C4 (amended). After a load whose fetch succeeds, the markers in memory
    and on the map are those of the documents both of whose coordinates
    parse to a number other than [NaN], in order; the owners resolved are
    the non-empty owner ids of these documents, and every fetch of the
    load is for one of them.  Documents with finite coordinates pass the
    test; so do documents with an infinite one. *)
Theorem valid_coordinates_rendered (E : Env) (s : State)
    (docs : list DocSnap.t) :
  getDocs E (clock (page s)) = Some docs ->
  exists s' events,
    loadLocationsFromFirestore E s = (Return tt, s') /\
    map MarkerObj.locationId (allMarkers (store s'))
    = map DocSnap.id (List.filter validCoords docs) /\
    markers (store s') = map MarkerObj.marker (allMarkers (store s')) /\
    (forall u, In u (snd (firstPass docs)) <->
               exists d, In d docs /\ validCoords d = true /\
                         Doc.userId (DocSnap.data d) = Some u /\
                         u <> EmptyString) /\
    trace (page s')
    = (trace (page s) ++ Requested GetDocs true :: events)%list /\
    Forall (fun e => exists id ok,
              e = Requested (GetDoc "users" id) ok /\
              In id (snd (firstPass docs))) events /\
    (forall u, In u (snd (firstPass docs)) ->
               is_Some (userProfileCache (store s') !! u)) /\
    (forall d, validCoords d = true <->
               Js.parseFloat (Doc.latitude (DocSnap.data d)) <> Js.NaN /\
               Js.parseFloat (Doc.longitude (DocSnap.data d)) <> Js.NaN) /\
    (forall d, finiteCoords d = true -> validCoords d = true).
Proof.
  intros H.
  destruct (load_success E s docs H) as (s1 & Hres & _ & Hids & Hrun).
  destruct (resolveAll_events E _ _ _ Hres) as (events & Htr & Hev).
  eexists _, events. split; [exact Hrun |].
  unfold_state. split_and!.
  - unfold builtMarkers. rewrite firstPass_locations, !map_map. reflexivity.
  - reflexivity.
  - intros u. rewrite firstPass_ids. split.
    + intros (d & Hd & Hv & Ht & Hu). exists d. split_and!; auto.
      * cbn in Hu. unfold Js.orElse in Hu.
        destruct (Doc.userId (DocSnap.data d)) as [o|].
        -- destruct (Js.truthy o); subst; [reflexivity | discriminate].
        -- subst u. discriminate.
      * intros ->. discriminate.
    + intros (d & Hd & Hv & Hu & Hne). exists d. split_and!; auto.
      * destruct u; [congruence | reflexivity].
      * cbn. rewrite Hu. destruct u; [congruence | reflexivity].
  - rewrite Htr. unfold fetchedState. unfold_state.
    rewrite <- app_assoc. reflexivity.
  - exact Hev.
  - exact Hids.
  - intros d. unfold validCoords. rewrite andb_true_iff, !negb_true_iff.
    destruct (Js.parseFloat (Doc.latitude (DocSnap.data d)));
      destruct (Js.parseFloat (Doc.longitude (DocSnap.data d)));
      cbn; split; intros [? ?]; split; congruence.
  - intros d. unfold validCoords, finiteCoords.
    destruct (Js.parseFloat (Doc.latitude (DocSnap.data d)));
      destruct (Js.parseFloat (Doc.longitude (DocSnap.data d)));
      cbn; congruence.
Qed.

Lemma valid_coordinates_rendered_witness :
  exists s',
    loadLocationsFromFirestore (serving sampleDocs sampleUsers true) startState
    = (Return tt, s') /\
    map MarkerObj.locationId (allMarkers (store s')) = ["loc1"; "loc2"; "loc4"].
Proof.
  destruct (valid_coordinates_rendered (serving sampleDocs sampleUsers true)
              startState sampleDocs eq_refl)
    as (s' & events & Hrun & Hids & _).
  exists s'. split; [exact Hrun |]. rewrite Hids. reflexivity.
Defined.

(** C4 as stated fails: the latitude of [loc4] parses to [Infinity], not a
    finite number, yet its marker is in memory and on the map and its owner
    is resolved. *)
Lemma infinite_coordinate_rendered :
  let far := mkDoc "loc4" (Js.Str "Infinity") (Js.Num (Js.Finite 0 0))
               (Some "Far") (Some "u4") in
  let s' := snd (loadLocationsFromFirestore
                   (serving sampleDocs sampleUsers true) startState) in
  In far sampleDocs /\
  Js.parseFloat (Doc.latitude (DocSnap.data far)) = Js.Infinity false /\
  finiteCoords far = false /\
  map MarkerObj.locationId (allMarkers (store s')) = ["loc1"; "loc2"; "loc4"] /\
  length (markers (store s')) = 3%nat /\
  snd (firstPass sampleDocs) = ["u1"; "u2"; "u4"] /\
  In (Requested (GetDoc "users" "u4") true) (trace (page s')).
Proof.
  cbv zeta. split_and!.
  - cbn. tauto.
  - reflexivity.
  - reflexivity.
  - vm_compute. reflexivity.
  - vm_compute. reflexivity.
  - vm_compute. reflexivity.
  - vm_compute. tauto.
Qed.

(** C10. A fetched record with valid coordinates whose title is missing
    or empty is kept: its marker is in memory and on the map under the
    title [Untitled Location]; missing or empty notes, address and owner id
    become the empty string. *)
Theorem untitled_location_included (E : Env) (s : State)
    (docs : list DocSnap.t) (d : DocSnap.t) :
  getDocs E (clock (page s)) = Some docs ->
  In d docs ->
  validCoords d = true ->
  Doc.title (DocSnap.data d) = None \/
  Doc.title (DocSnap.data d) = Some EmptyString ->
  exists s' m,
    loadLocationsFromFirestore E s = (Return tt, s') /\
    In m (allMarkers (store s')) /\
    In (MarkerObj.marker m) (markers (store s')) /\
    MarkerObj.locationId m = DocSnap.id d /\
    MarkerObj.title m = "Untitled Location" /\
    (Doc.notes (DocSnap.data d) = None \/
     Doc.notes (DocSnap.data d) = Some EmptyString ->
     MarkerObj.notes m = EmptyString) /\
    (Doc.address (DocSnap.data d) = None \/
     Doc.address (DocSnap.data d) = Some EmptyString ->
     MarkerObj.address m = EmptyString) /\
    (Doc.userId (DocSnap.data d) = None \/
     Doc.userId (DocSnap.data d) = Some EmptyString ->
     MarkerObj.userId m = EmptyString).
Proof.
  intros H Hd Hv Htitle.
  destruct (load_success E s docs H) as (s1 & _ & _ & _ & Hrun).
  cbv zeta in Hrun.
  set (cache := userProfileCache (store s1)) in *.
  set (m := buildMarker (currentUser (page s)) docs (toLocation d)
              (Profile.displayName
                 (profileIn cache (Location.userId (toLocation d))))).
  assert (Hm : In m (builtMarkers (currentUser (page s)) cache docs
                       (fst (firstPass docs)))).
  { unfold builtMarkers. rewrite firstPass_locations.
    apply in_map_iff. exists (toLocation d). split; [reflexivity |].
    apply in_map. apply filter_In. split; assumption. }
  eexists _, m. split; [exact Hrun |]. unfold_state.
  split_and!.
  - exact Hm.
  - now apply in_map.
  - reflexivity.
  - cbn. destruct Htitle as [-> | ->]; reflexivity.
  - cbn. intros [-> | ->]; reflexivity.
  - cbn. intros [-> | ->]; reflexivity.
  - cbn. intros [-> | ->]; reflexivity.
Qed.

Lemma untitled_location_included_witness :
  exists s' m,
    loadLocationsFromFirestore (serving sampleDocs sampleUsers true) startState
    = (Return tt, s') /\
    In m (allMarkers (store s')) /\
    MarkerObj.locationId m = "loc2" /\
    MarkerObj.title m = "Untitled Location".
Proof.
  destruct (untitled_location_included (serving sampleDocs sampleUsers true)
              startState sampleDocs
              (mkDoc "loc2" (Js.Str "12.5") (Js.Str "7") None (Some "u2"))
              eq_refl)
    as (s' & m & Hrun & Hin & _ & Hid & Htitle & _).
  - cbn. tauto.
  - reflexivity.
  - left. reflexivity.
  - exists s', m. split_and!; assumption.
Defined.

(** ** Mutation Coordinator *)

Section Mutations.

Variable E : Env.

(** A load never throws; it issues the fetch of the records, then only
    profile fetches or its own error message, and leaves the forms. *)
Lemma load_events (s : State) :
  exists s' ok events,
    loadLocationsFromFirestore E s = (Return tt, s') /\
    trace (page s')
    = (trace (page s) ++ Requested GetDocs ok :: events)%list /\
    Forall loadEvent events /\
    creation s' = creation s /\
    editing s' = editing s /\
    currentUser (page s') = currentUser (page s) /\
    search (page s') = search (page s).
Proof.
  destruct (getDocs E (clock (page s))) as [docs|] eqn:H.
  - destruct (load_success E s docs H)
      as (s1 & _ & Hres & _ & Hrun).
    destruct Hres as (_ & _ & _ & Hcr & Hed & Hu & Hse & _ & events & Htr & _ & Hev & _).
    eexists _, true, events. split; [exact Hrun |].
    unfold_state. rewrite Htr, Hcr, Hed, Hu, Hse.
    unfold fetchedState. unfold_state. rewrite <- app_assoc.
    split_and!; try reflexivity.
    eapply Forall_impl; [exact Hev |]. intros e He. unfold loadEvent. now left.
  - exists (failedState s), false,
      [Message error "Failed to load locations. Please refresh the page."].
    split; [now apply load_failure |].
    unfold failedState. unfold_state. rewrite <- app_assoc.
    split_and!; try reflexivity.
    constructor; [unfold loadEvent; now right | constructor].
Qed.

Lemma toggleCreationMode_run (s : State) :
  exists s',
    toggleCreationMode s = (Return tt, s') /\
    page s' = page s /\
    editing s' = editing s.
Proof.
  unfold toggleCreationMode.
  unfold bind at 1, modify at 1. unfold bind at 1, gets at 1.
  destruct (creationMode (creation (withCreation flipCreationMode s))).
  - eexists. split; [reflexivity |]. split; reflexivity.
  - unfold bind at 1, modify at 1. unfold bind at 1, gets at 1.
    destruct (Js.truthy _).
    + rewrite filterMarkers_run. eexists. split; [reflexivity |].
      split; reflexivity.
    + eexists. split; [reflexivity |]. split; reflexivity.
Qed.

(** Deleting a stored image never throws: it issues one request when the
    URL names a storage path, none otherwise. *)
Lemma deleteImageFromStorage_run (imageUrl : string) (s : State) :
  deleteImageFromStorage E imageUrl s =
  (Return tt,
   match storagePathOf imageUrl with
   | Some (Some path) =>
       withPage
         (logRequest (DeleteObject path)
            (deleteObject E (clock (page s)) path)) s
   | _ => s
   end).
Proof.
  unfold deleteImageFromStorage, tryCatch.
  destruct (storagePathOf imageUrl) as [[path|]|]; try reflexivity.
  unfold command, request.
  destruct (deleteObject E (clock (page s)) path); reflexivity.
Qed.

(** An upload: the request to store the bytes, then the one for the
    download URL; either may reject. *)
Lemma uploadImageToStorage_run (file : File.t) (locationId : string)
    (s : State) :
  uploadImageToStorage E file locationId s =
  match currentUser (page s) with
  | None => (Throw, s)
  | Some uid =>
      let path :=
        uploadPath uid locationId (now E (clock (page s))) file in
      let s1 :=
        withPage
          (logRequest (UploadBytes path file)
             (uploadBytes E (clock (page s)) path file)) s in
      if uploadBytes E (clock (page s)) path file then
        match getDownloadURL E (S (clock (page s))) path with
        | Some url =>
            (Return url,
             withPage (logRequest (GetDownloadURL path) true) s1)
        | None =>
            (Throw, withPage (logRequest (GetDownloadURL path) false) s1)
        end
      else (Throw, s1)
  end.
Proof.
  unfold uploadImageToStorage, tryCatch.
  unfold bind at 1, gets at 1. unfold bind at 1, gets at 1.
  destruct (currentUser (page s)) as [uid|]; [| reflexivity].
  cbv zeta. fold (uploadPath uid locationId (now E (clock (page s))) file).
  set (path := uploadPath uid locationId (now E (clock (page s))) file).
  unfold bind, command, request, throw.
  destruct (uploadBytes E (clock (page s)) path file); [| reflexivity].
  cbn [page withPage clock logRequest].
  destruct (getDownloadURL E (S (clock (page s))) path); reflexivity.
Qed.

Lemma deleteImageFromStorage_events (imageUrl : string) (s : State) :
  exists s',
    deleteImageFromStorage E imageUrl s = (Return tt, s') /\
    trace (page s')
    = (trace (page s) ++
       deleteEvents E (clock (page s)) (Some imageUrl))%list /\
    (Js.truthy imageUrl = true ->
     clock (page s')
     = (clock (page s) +
        length (deleteEvents E (clock (page s)) (Some imageUrl)))%nat) /\
    store s' = store s /\ creation s' = creation s /\
    editing s' = editing s /\
    currentUser (page s') = currentUser (page s) /\
    search (page s') = search (page s).
Proof.
  rewrite deleteImageFromStorage_run. eexists. split; [reflexivity |].
  unfold deleteEvents, nonEmpty.
  destruct (Js.truthy imageUrl) eqn:Ht.
  - destruct (storagePathOf imageUrl) as [[path|]|]; unfold_state;
      rewrite ?app_nil_r; split_and!; try reflexivity; intros _; cbn; lia.
  - assert (Hnone : storagePathOf imageUrl = None).
    { destruct imageUrl; [reflexivity | discriminate]. }
    rewrite Hnone, app_nil_r. split_and!; try reflexivity. discriminate.
Qed.

(** The steps of a mutation after its write: load again, report. *)
Lemma reload_and_report (done : string) (s : State) :
  exists s' ok loaded,
    (loadLocationsFromFirestore E ;; showSuccess done) s = (Return tt, s') /\
    trace (page s')
    = (trace (page s) ++ Requested GetDocs ok :: loaded ++
       [Message success done])%list /\
    Forall loadEvent loaded.
Proof.
  destruct (load_events s) as (s1 & ok & loaded & Hrun & Htr & Hev & _).
  eexists _, ok, loaded. unfold bind. rewrite Hrun.
  split; [reflexivity |]. split; [| exact Hev].
  unfold showSuccess, showMessage, modify. unfold_state.
  rewrite Htr, <- app_assoc. reflexivity.
Qed.

(** A write of the record followed by the reload and the report. *)
Lemma write_and_reload (w : Request) (answer : nat -> bool)
    (after : State -> State) (failure done : string) (s : State) :
  (forall x, page (after x) = page x) ->
  exists r s' events,
    (command w answer ;; modify after ;;
     loadLocationsFromFirestore E ;; showSuccess done) s = (r, s') /\
    trace (page s') = (trace (page s) ++ events)%list /\
    ((r = Throw /\ events = [Requested w false]) \/
     (r = Return tt /\
      exists ok loaded,
        events
        = (Requested w true :: Requested GetDocs ok :: loaded ++
           [Message success done])%list /\
        Forall loadEvent loaded)).
Proof.
  intros Hafter. unfold bind at 1, command, request.
  destruct (answer (clock (page s))).
  - unfold bind at 1, modify at 1.
    destruct (reload_and_report done
                (after (withPage (logRequest w true) s)))
      as (s' & ok & loaded & Hrun & Htr & Hev).
    eexists (Return tt), s', _. split; [exact Hrun |].
    split; [| right; split; [reflexivity | exists ok, loaded; split; [reflexivity | exact Hev]]].
    rewrite Htr, Hafter. unfold_state. rewrite <- app_assoc. reflexivity.
  - eexists Throw, _, _. split; [reflexivity |].
    split; [| left; split; reflexivity]. reflexivity.
Qed.

(** The handler around a mutation: a throw is reported as [failure],
    the overlay is hidden on both ways out. *)
Lemma guarded_run (body : M unit) (failure : string) (s : State)
    (r : Outcome unit) (s' : State) :
  body s = (r, s') ->
  exists s'',
    finally (tryCatch body (showError failure)) (showLoading false) s
    = (Return tt, s'') /\
    trace (page s'')
    = (trace (page s') ++
       match r with
       | Return _ => []
       | Throw => [Message error failure]
       end)%list.
Proof.
  intros Hrun. unfold finally, tryCatch. rewrite Hrun.
  destruct r as [[]|]; eexists; (split; [reflexivity |]);
    unfold showError, showMessage, showLoading, modify; unfold_state;
    rewrite ?app_nil_r; reflexivity.
Qed.

Lemma uploadImageToStorage_events (file : File.t) (locationId uid : string)
    (s : State) :
  currentUser (page s) = Some uid ->
  exists r s',
    uploadImageToStorage E file locationId s = (r, s') /\
    trace (page s')
    = (trace (page s) ++
       uploadEvents E (clock (page s)) uid locationId file)%list /\
    clock (page s')
    = (clock (page s) +
       length (uploadEvents E (clock (page s)) uid locationId file))%nat /\
    (if uploaded E (clock (page s)) uid locationId file
     then exists url, r = Return url
     else r = Throw).
Proof.
  intros Hu. rewrite uploadImageToStorage_run, Hu. cbv zeta.
  unfold uploadEvents, uploaded.
  set (path := uploadPath uid locationId (now E (clock (page s))) file).
  destruct (uploadBytes E (clock (page s)) path file); cbn [andb].
  - destruct (getDownloadURL E (S (clock (page s))) path) as [url|];
      eexists _, _; (split; [reflexivity |]); unfold_state;
      rewrite <- app_assoc; cbn; split_and!; eauto; lia.
  - eexists _, _. split; [reflexivity |]. unfold_state. cbn.
    split_and!; eauto; lia.
Qed.

(** The image stage of an update with a staged file: the old image is
    deleted, then the new one uploaded. *)
Lemma replace_image_run (file : File.t) (locationId : string)
    (old : option string) (s : State) :
  let del := deleteEvents E (clock (page s)) old in
  exists r s',
    (match nonEmpty old with
     | Some oldUrl => deleteImageFromStorage E oldUrl
     | None => ret tt
     end ;;
     newUrl <- uploadImageToStorage E file locationId ;;
     ret (Some newUrl)) s = (r, s') /\
    match currentUser (page s) with
    | None => r = Throw /\ trace (page s') = (trace (page s) ++ del)%list
    | Some uid =>
        let n := (clock (page s) + length del)%nat in
        trace (page s')
        = (trace (page s) ++ del ++
           uploadEvents E n uid locationId file)%list /\
        clock (page s')
        = (n + length (uploadEvents E n uid locationId file))%nat /\
        (if uploaded E n uid locationId file
         then exists url, r = Return (Some url)
         else r = Throw)
    end.
Proof.
  intros del.
  assert (Hdel : exists s1,
    match nonEmpty old with
    | Some oldUrl => deleteImageFromStorage E oldUrl
    | None => ret tt
    end s = (Return tt, s1) /\
    trace (page s1) = (trace (page s) ++ del)%list /\
    clock (page s1) = (clock (page s) + length del)%nat /\
    currentUser (page s1) = currentUser (page s)).
  { subst del. unfold deleteEvents.
    destruct (nonEmpty old) as [oldUrl|] eqn:Hold.
    - assert (Ht : Js.truthy oldUrl = true).
      { destruct old as [o|]; [| discriminate]. cbn in Hold.
        destruct (Js.truthy o) eqn:Ho; [| discriminate].
        now injection Hold as <-. }
      destruct (deleteImageFromStorage_events oldUrl s)
        as (s1 & Hrun & Htr & Hck & _ & _ & _ & Hu & _).
      exists s1. unfold deleteEvents, nonEmpty in Htr, Hck.
      rewrite Ht in Htr, Hck. split_and!; auto.
    - exists s. rewrite app_nil_r. cbn. split_and!; auto. }
  destruct Hdel as (s1 & Hrun1 & Htr1 & Hck1 & Hu1).
  unfold bind at 1. rewrite Hrun1.
  destruct (currentUser (page s)) as [uid|] eqn:Hu.
  - destruct (uploadImageToStorage_events file locationId uid s1)
      as (r & s2 & Hrun2 & Htr2 & Hck2 & Hr); [congruence |].
    rewrite Hck1 in Htr2, Hck2, Hr. cbv zeta.
    unfold bind. rewrite Hrun2.
    destruct (uploaded E (clock (page s) + length del) uid locationId file).
    + destruct Hr as [url ->]. eexists _, _. split; [reflexivity |].
      rewrite Htr2, Htr1, <- app_assoc. split_and!; eauto.
    + subst r. eexists _, _. split; [reflexivity |].
      rewrite Htr2, Htr1, <- app_assoc. split_and!; eauto.
  - unfold bind. rewrite uploadImageToStorage_run, Hu1. 
    eexists _, _. split; [reflexivity |]. split; [reflexivity | exact Htr1].
Qed.

(** All the histories of an update. *)
Lemma updateLocation_events (s : State) :
  exists s' events,
    updateLocation E s = (Return tt, s') /\
    trace (page s') = (trace (page s) ++ events)%list /\
    match nonEmpty (editingLocationId (editing s)) with
    | None => events = [] /\ s' = s
    | Some id =>
        if negb (Js.truthy (Js.trim (editTitle (editing s))))
        then events = [Message error "Title is required!"]
        else
          match selectedEditImage (editing s) with
          | None =>
              exists data,
                writeTail (UpdateDoc "locations" id data)
                  "Failed to update location. Please try again."
                  "Location updated successfully!" events
          | Some file =>
              let del :=
                deleteEvents E (clock (page s))
                  (currentLocationImageUrl (editing s)) in
              match currentUser (page s) with
              | None =>
                  events
                  = (del ++
                     [Message error
                        "Failed to update location. Please try again."])%list
              | Some uid =>
                  let n := (clock (page s) + length del)%nat in
                  let upl := uploadEvents E n uid id file in
                  if uploaded E n uid id file then
                    exists data tail,
                      events = (del ++ upl ++ tail)%list /\
                      writeTail (UpdateDoc "locations" id data)
                        "Failed to update location. Please try again."
                        "Location updated successfully!" tail
                  else
                    events
                    = (del ++ upl ++
                       [Message error
                          "Failed to update location. Please try again."])%list
              end
          end
    end.
Proof.
  unfold updateLocation. unfold bind at 1, gets at 1.
  destruct (nonEmpty (editingLocationId (editing s))) as [id|].
  2:{ exists s, []. rewrite app_nil_r. split_and!; reflexivity. }
  destruct (negb (Js.truthy (Js.trim (editTitle (editing s))))).
  { eexists _, _. split; [reflexivity |]. split; reflexivity. }
  unfold bind at 1, showLoading at 1, modify at 1.
  set (s0 := withPage (setLoading true) s).
  assert (Htail : forall imageUrl (x : State),
    exists r s' events data,
      (let updateData :=
         ([("title", FString (Js.trim (editTitle (editing s))));
           ("notes", FString (Js.trim (editNotes (editing s))));
           ("address", FString (Js.trim (editAddress (editing s))));
           ("updatedAt", FServerTimestamp)] ++
          match nonEmpty imageUrl with
          | Some url => [("imageUrl", FString url)]
          | None => []
          end)%list in
       command (UpdateDoc "locations" id updateData)
         (fun n => updateDoc E n id updateData) ;;
       modify (withEditing closeEdit) ;;
       loadLocationsFromFirestore E ;;
       showSuccess "Location updated successfully!") x = (r, s') /\
      trace (page s') = (trace (page x) ++ events)%list /\
      ((r = Throw /\
        events = [Requested (UpdateDoc "locations" id data) false]) \/
       (r = Return tt /\
        exists ok loaded,
          events
          = (Requested (UpdateDoc "locations" id data) true ::
             Requested GetDocs ok :: loaded ++
             [Message success "Location updated successfully!"])%list /\
          Forall loadEvent loaded))).
  { intros imageUrl x. cbv zeta.
    match goal with
    | |- context [command ?w ?a] =>
        destruct (write_and_reload w a (withEditing closeEdit)
                    "Failed to update location. Please try again."
                    "Location updated successfully!" x
                    (fun _ => eq_refl))
          as (r & s' & events & Hrun & Htr & Hcases)
    end.
    eexists r, s', events, _. split; [exact Hrun |].
    split; [exact Htr | exact Hcases]. }
  destruct (selectedEditImage (editing s)) as [file|].
  - destruct (replace_image_run file id
                (currentLocationImageUrl (editing s)) s0)
      as (r1 & s1 & Hrun1 & Hcases1).
    change (clock (page s0)) with (clock (page s)) in *.
    change (currentUser (page s0)) with (currentUser (page s)) in *.
    change (trace (page s0)) with (trace (page s)) in *.
    set (del := deleteEvents E (clock (page s))
                  (currentLocationImageUrl (editing s))) in *.
    destruct (currentUser (page s)) as [uid|].
    + cbv zeta in Hcases1. destruct Hcases1 as (Htr1 & _ & Hr1).
      cbv zeta.
      destruct (uploaded E (clock (page s) + length del) uid id file).
      * destruct Hr1 as [url ->].
        destruct (Htail (Some url) s1)
          as (r & s2 & tail & data & Hrun2 & Htr2 & Hcases2).
        body_runs r s2 Hbody.
        { unfold bind at 1. rewrite Hrun1. exact Hrun2. }
        destruct (guarded_run _ "Failed to update location. Please try again." _ _ _ Hbody)
          as (s3 & Hrun3 & Htr3).
        exists s3.
        destruct Hcases2 as [[-> ->] | (-> & ok & loaded & -> & Hev)].
        -- exists (del ++ uploadEvents E (clock (page s) + length del) uid id file ++
                   [Requested (UpdateDoc "locations" id data) false;
                    Message error "Failed to update location. Please try again."])%list.
           split; [exact Hrun3 |].
           rewrite Htr3, Htr2, Htr1.
           split; [rewrite <- !app_assoc; reflexivity |].
           exists data. eexists. split; [reflexivity |]. now left.
        -- eexists (del ++ uploadEvents E (clock (page s) + length del) uid id file ++ _)%list.
           split; [exact Hrun3 |].
           rewrite Htr3, Htr2, Htr1.
           split; [rewrite app_nil_r, <- !app_assoc; reflexivity |].
           exists data. eexists. split; [reflexivity |].
           right. exists ok, loaded. split; [reflexivity | exact Hev].
      * subst r1.
        body_runs (@Throw unit) s1 Hbody.
        { unfold bind at 1. rewrite Hrun1. reflexivity. }
        destruct (guarded_run _ "Failed to update location. Please try again." _ _ _ Hbody)
          as (s3 & Hrun3 & Htr3).
        exists s3. eexists. split; [exact Hrun3 |].
        rewrite Htr3, Htr1. split; [rewrite <- !app_assoc; reflexivity |].
        reflexivity.
    + destruct Hcases1 as [-> Htr1].
      body_runs (@Throw unit) s1 Hbody.
        { unfold bind at 1. rewrite Hrun1. reflexivity. }
        destruct (guarded_run _ "Failed to update location. Please try again." _ _ _ Hbody)
          as (s3 & Hrun3 & Htr3).
      exists s3. eexists. split; [exact Hrun3 |].
      rewrite Htr3, Htr1. split; [rewrite <- !app_assoc; reflexivity |].
      reflexivity.
  - destruct (Htail (currentLocationImageUrl (editing s)) s0)
      as (r & s2 & tail & data & Hrun2 & Htr2 & Hcases2).
    body_runs r s2 Hbody.
        { unfold bind at 1. unfold ret at 1. exact Hrun2. }
        destruct (guarded_run _ "Failed to update location. Please try again." _ _ _ Hbody)
          as (s3 & Hrun3 & Htr3).
    exists s3.
    change (trace (page s0)) with (trace (page s)) in Htr2.
    destruct Hcases2 as [[-> ->] | (-> & ok & loaded & -> & Hev)].
    + exists [Requested (UpdateDoc "locations" id data) false;
              Message error "Failed to update location. Please try again."].
      split; [exact Hrun3 |]. rewrite Htr3, Htr2.
      split; [rewrite <- !app_assoc; reflexivity |].
      exists data. now left.
    + eexists. split; [exact Hrun3 |]. rewrite Htr3, Htr2, app_nil_r.
      split; [reflexivity |].
      exists data. right. exists ok, loaded. split; [reflexivity | exact Hev].
Qed.

(** All the histories of a deletion. *)
Lemma deleteLocationById_events (locationId : string) (s : State) :
  exists s' events,
    deleteLocationById E locationId s = (Return tt, s') /\
    trace (page s') = (trace (page s) ++ events)%list /\
    match getLocation E (clock (page s)) locationId with
    | None =>
        events
        = [ Requested (GetDoc "locations" locationId) false;
            Message error "Failed to delete location. Please try again." ]
    | Some locationDoc =>
        let del :=
          deleteEvents E (S (clock (page s)))
            (match locationDoc with
             | Some data => Doc.imageUrl data
             | None => None
             end) in
        exists tail,
          events
          = (Requested (GetDoc "locations" locationId) true :: del ++ tail)%list /\
          writeTail (DeleteDoc "locations" locationId)
            "Failed to delete location. Please try again."
            "Location deleted successfully!" tail
    end.
Proof.
  unfold deleteLocationById. unfold bind at 1, showLoading at 1, modify at 1.
  set (s0 := withPage (setLoading true) s).
  destruct (getLocation E (clock (page s)) locationId) as [locationDoc|] eqn:Hget.
  - set (s1 := withPage (logRequest (GetDoc "locations" locationId) true) s0).
    set (old := match locationDoc with
                | Some data => Doc.imageUrl data
                | None => None
                end).
    assert (Hdel : exists s2,
      match locationDoc with
      | Some data =>
          match nonEmpty (Doc.imageUrl data) with
          | Some url => deleteImageFromStorage E url
          | None => ret tt
          end
      | None => ret tt
      end s1 = (Return tt, s2) /\
      trace (page s2)
      = (trace (page s1) ++ deleteEvents E (S (clock (page s))) old)%list).
    { unfold deleteEvents. subst old.
      destruct locationDoc as [data|];
        [| exists s1; now rewrite app_nil_r].
      destruct (nonEmpty (Doc.imageUrl data)) as [url|] eqn:Hurl;
        [| exists s1; now rewrite app_nil_r].
      assert (Ht : Js.truthy url = true).
      { destruct (Doc.imageUrl data) as [o|]; [| discriminate].
        cbn in Hurl. destruct (Js.truthy o) eqn:Ho; [| discriminate].
        now injection Hurl as <-. }
      destruct (deleteImageFromStorage_events url s1)
        as (s2 & Hrun & Htr & _).
      exists s2. split; [exact Hrun |].
      unfold deleteEvents, nonEmpty in Htr. rewrite Ht in Htr. exact Htr. }
    destruct Hdel as (s2 & Hrun2 & Htr2).
    assert (Htail : exists r s3 tail,
      (command (DeleteDoc "locations" locationId)
         (fun n => deleteDoc E n locationId) ;;
       loadLocationsFromFirestore E ;;
       showSuccess "Location deleted successfully!") s2 = (r, s3) /\
      trace (page s3) = (trace (page s2) ++ tail)%list /\
      ((r = Throw /\
        tail = [Requested (DeleteDoc "locations" locationId) false]) \/
       (r = Return tt /\
        exists ok loaded,
          tail
          = (Requested (DeleteDoc "locations" locationId) true ::
             Requested GetDocs ok :: loaded ++
             [Message success "Location deleted successfully!"])%list /\
          Forall loadEvent loaded))).
    { unfold bind at 1, command, request.
      destruct (deleteDoc E (clock (page s2)) locationId).
      - destruct (reload_and_report "Location deleted successfully!"
                    (withPage
                       (logRequest (DeleteDoc "locations" locationId) true) s2))
          as (s3 & ok & loaded & Hrun & Htr & Hev).
        eexists (Return tt), s3, _. split; [exact Hrun |]. split.
        + rewrite Htr. unfold_state. rewrite <- app_assoc. reflexivity.
        + right. split; [reflexivity |]. now exists ok, loaded.
      - eexists Throw, _, _. split; [reflexivity |].
        split; [reflexivity | left; split; reflexivity]. }
    destruct Htail as (r & s3 & tail & Hrun3 & Htr3 & Hcases).
    body_runs r s3 Hbody.
    { unfold bind at 1, request at 1.
      change (clock (page s0)) with (clock (page s)). rewrite Hget.
      fold s1. unfold bind at 1. rewrite Hrun2. exact Hrun3. }
    destruct (guarded_run _ "Failed to delete location. Please try again."
                _ _ _ Hbody) as (s4 & Hrun4 & Htr4).
    exists s4.
    assert (Htr1 : trace (page s1)
                   = (trace (page s) ++
                      [Requested (GetDoc "locations" locationId) true])%list)
      by reflexivity.
    destruct Hcases as [[-> ->] | (-> & ok & loaded & -> & Hev)].
    + eexists (Requested (GetDoc "locations" locationId) true ::
               deleteEvents E (S (clock (page s))) old ++
               [Requested (DeleteDoc "locations" locationId) false;
                Message error "Failed to delete location. Please try again."])%list.
      split; [exact Hrun4 |]. rewrite Htr4, Htr3, Htr2, Htr1.
      split; [rewrite <- !app_assoc; reflexivity |].
      eexists. split; [reflexivity |]. now left.
    + eexists (Requested (GetDoc "locations" locationId) true ::
               deleteEvents E (S (clock (page s))) old ++ _)%list.
      split; [exact Hrun4 |]. rewrite Htr4, Htr3, Htr2, Htr1, app_nil_r.
      split; [rewrite <- !app_assoc; reflexivity |].
      eexists. split; [reflexivity |].
      right. exists ok, loaded. split; [reflexivity | exact Hev].
  - body_runs (@Throw unit)
      (withPage (logRequest (GetDoc "locations" locationId) false) s0) Hbody.
    { unfold bind at 1, request at 1.
      change (clock (page s0)) with (clock (page s)). rewrite Hget.
      reflexivity. }
    destruct (guarded_run _ "Failed to delete location. Please try again."
                _ _ _ Hbody) as (s4 & Hrun4 & Htr4).
    exists s4. eexists. split; [exact Hrun4 |]. rewrite Htr4.
    subst s0. unfold_state. rewrite <- app_assoc.
    split; reflexivity.
Qed.

(** All the histories of the removal of an image: no load among them. *)
Lemma handleRemoveImage_events (s : State) :
  exists s' events,
    handleRemoveImage E s = (Return tt, s') /\
    trace (page s') = (trace (page s) ++ events)%list /\
    (events = [] \/
     exists imageUrl id ok,
       nonEmpty (currentLocationImageUrl (editing s)) = Some imageUrl /\
       nonEmpty (editingLocationId (editing s)) = Some id /\
       events
       = (deleteEvents E (clock (page s)) (Some imageUrl) ++
          [ Requested
              (UpdateDoc "locations" id
                 [("imageUrl", FNull); ("updatedAt", FServerTimestamp)]) ok;
            if ok then Message success "Image removed successfully!"
            else Message error "Failed to remove image. Please try again." ])%list).
Proof.
  unfold handleRemoveImage. unfold bind at 1, gets at 1.
  destruct (nonEmpty (currentLocationImageUrl (editing s))) as [imageUrl|];
    [| exists s, []; rewrite app_nil_r; split_and!; auto].
  destruct (nonEmpty (editingLocationId (editing s))) as [id|];
    [| exists s, []; rewrite app_nil_r; split_and!; auto].
  unfold bind at 1, askConfirm at 1, gets at 1.
  destruct (confirm E (clock (page s)) _); cbn [negb];
    [| exists s, []; rewrite app_nil_r; split_and!; auto].
  unfold bind at 1, showLoading at 1, modify at 1.
  set (s0 := withPage (setLoading true) s).
  destruct (deleteImageFromStorage_events imageUrl s0)
    as (s1 & Hrun1 & Htr1 & _).
  change (clock (page s0)) with (clock (page s)) in Htr1.
  change (trace (page s0)) with (trace (page s)) in Htr1.
  set (patch := [("imageUrl", FNull); ("updatedAt", FServerTimestamp)]).
  destruct (updateDoc E (clock (page s1)) id patch) eqn:Hupd.
  - body_runs (Return tt)
      (withPage (logEvent (Message success "Image removed successfully!"))
         (withEditing forgetImage
            (withPage (logRequest (UpdateDoc "locations" id patch) true) s1)))
      Hbody.
    { unfold bind at 1. rewrite Hrun1.
      unfold bind at 1, command, request. fold patch. rewrite Hupd.
      reflexivity. }
    destruct (guarded_run _ "Failed to remove image. Please try again."
                _ _ _ Hbody) as (s4 & Hrun4 & Htr4).
    exists s4. eexists. split; [exact Hrun4 |]. rewrite Htr4.
    unfold_state. rewrite Htr1, app_nil_r, <- !app_assoc.
    split; [reflexivity |]. right. exists imageUrl, id, true.
    split_and!; reflexivity.
  - body_runs (@Throw unit)
      (withPage (logRequest (UpdateDoc "locations" id patch) false) s1)
      Hbody.
    { unfold bind at 1. rewrite Hrun1.
      unfold bind at 1, command, request. fold patch. rewrite Hupd.
      reflexivity. }
    destruct (guarded_run _ "Failed to remove image. Please try again."
                _ _ _ Hbody) as (s4 & Hrun4 & Htr4).
    exists s4. eexists. split; [exact Hrun4 |]. rewrite Htr4.
    unfold_state. rewrite Htr1, <- !app_assoc.
    split; [reflexivity |]. right. exists imageUrl, id, false.
    split_and!; reflexivity.
Qed.

(** The image stage of a creation: upload, then patch the new record;
    any failure is reported by the image warning and goes no further. *)
Lemma attach_image_run (file : File.t) (locationId uid : string)
    (s : State) :
  currentUser (page s) = Some uid ->
  exists s' img,
    tryCatch
      (imageUrl <- uploadImageToStorage E file locationId ;;
       let patch := [("imageUrl", FString imageUrl)] in
       command (UpdateDoc "locations" locationId patch)
         (fun n => updateDoc E n locationId patch))
      (showError "Location created but image upload failed. You can add an image by editing the location.")
      s = (Return tt, s') /\
    trace (page s') = (trace (page s) ++ img)%list /\
    let upl := uploadEvents E (clock (page s)) uid locationId file in
    if uploaded E (clock (page s)) uid locationId file then
      exists url ok,
        img
        = (upl ++
           Requested
             (UpdateDoc "locations" locationId [("imageUrl", FString url)])
             ok ::
           if ok then []
           else [Message error "Location created but image upload failed. You can add an image by editing the location."])%list
    else
      img
      = (upl ++
         [Message error "Location created but image upload failed. You can add an image by editing the location."])%list.
Proof.
  intros Hu.
  destruct (uploadImageToStorage_events file locationId uid s Hu)
    as (r & s1 & Hrun1 & Htr1 & _ & Hr).
  unfold tryCatch. unfold bind at 1. rewrite Hrun1. cbv zeta.
  destruct (uploaded E (clock (page s)) uid locationId file).
  - destruct Hr as [url ->]. unfold command, request.
    destruct (updateDoc E (clock (page s1)) locationId
                [("imageUrl", FString url)]) eqn:Hupd.
    + eexists _, _. split; [reflexivity |]. unfold_state. rewrite Htr1.
      split; [rewrite <- app_assoc; reflexivity |].
      exists url, true. reflexivity.
    + eexists _, _. split; [reflexivity |].
      unfold showError, showMessage, modify. unfold_state. rewrite Htr1.
      split; [rewrite <- !app_assoc; reflexivity |].
      exists url, false. reflexivity.
  - subst r. eexists _, _. split; [reflexivity |].
    unfold showError, showMessage, modify. unfold_state. rewrite Htr1.
    split; [rewrite <- !app_assoc; reflexivity |]. reflexivity.
Qed.

(** The end of a creation: the form is cleared, creation mode left, the
    locations loaded again and the success reported. *)
Lemma finish_creation_run (s : State) :
  exists s' ok loaded,
    (modify (withCreation clearCreationForm) ;;
     modify (withCreation dropTempMarker) ;;
     toggleCreationMode ;;
     loadLocationsFromFirestore E ;;
     showSuccess "Location added successfully!") s = (Return tt, s') /\
    trace (page s')
    = (trace (page s) ++ Requested GetDocs ok :: loaded ++
       [Message success "Location added successfully!"])%list /\
    Forall loadEvent loaded.
Proof.
  unfold bind at 1, modify at 1. unfold bind at 1, modify at 1.
  set (s1 := withCreation dropTempMarker _).
  destruct (toggleCreationMode_run s1) as (s2 & Hrun2 & Hpage & _).
  destruct (reload_and_report "Location added successfully!" s2)
    as (s3 & ok & loaded & Hrun3 & Htr3 & Hev).
  exists s3, ok, loaded. unfold bind at 1. rewrite Hrun2.
  split; [exact Hrun3 |]. split; [| exact Hev].
  rewrite Htr3, Hpage. reflexivity.
Qed.

(** All the histories of a creation. *)
Lemma submitNewLocation_events (s : State) :
  exists s' events,
    submitNewLocation E s = (Return tt, s') /\
    trace (page s') = (trace (page s) ++ events)%list /\
    if negb (Js.truthy (Js.trim (newTitle (creation s)))) then
      s' = withPage (logEvent (Message error "Title is required!")) s /\
      events = [Message error "Title is required!"]
    else
      match currentUser (page s) with
      | None =>
          events = [Message error "Failed to add location. Please try again."]
      | Some uid =>
          let data := newLocationData uid (creation s) in
          match addDoc E (clock (page s)) data with
          | None =>
              events
              = [ Requested (AddDoc "locations" data) false;
                  Message error "Failed to add location. Please try again." ]
          | Some id =>
              exists img ok loaded,
                events
                = (Requested (AddDoc "locations" data) true :: img ++
                   Requested GetDocs ok :: loaded ++
                   [Message success "Location added successfully!"])%list /\
                Forall loadEvent loaded /\
                match selectedNewImage (creation s) with
                | None => img = []
                | Some file =>
                    let upl := uploadEvents E (S (clock (page s))) uid id file in
                    if uploaded E (S (clock (page s))) uid id file then
                      exists url okp,
                        img
                        = (upl ++
                           Requested
                             (UpdateDoc "locations" id
                                [("imageUrl", FString url)]) okp ::
                           if okp then []
                           else [Message error "Location created but image upload failed. You can add an image by editing the location."])%list
                    else
                      img
                      = (upl ++
                         [Message error "Location created but image upload failed. You can add an image by editing the location."])%list
                end
          end
      end.
Proof.
  unfold submitNewLocation. unfold bind at 1, gets at 1.
  destruct (negb (Js.truthy (Js.trim (newTitle (creation s))))).
  { eexists _, _. split; [reflexivity |]. split_and!; reflexivity. }
  unfold bind at 1, showLoading at 1, modify at 1.
  set (s0 := withPage (setLoading true) s).
  destruct (currentUser (page s)) as [uid|] eqn:Hu.
  2:{ body_runs (@Throw unit) s0 Hbody.
      { unfold bind at 1, gets at 1.
        change (currentUser (page s0)) with (currentUser (page s)).
        rewrite Hu. reflexivity. }
      destruct (guarded_run _ "Failed to add location. Please try again."
                  _ _ _ Hbody) as (s4 & Hrun4 & Htr4).
      exists s4. eexists. split; [exact Hrun4 |]. rewrite Htr4.
      split; reflexivity. }
  cbv zeta. fold (newLocationData uid (creation s)).
  set (data := newLocationData uid (creation s)).
  destruct (addDoc E (clock (page s)) data) as [id|] eqn:Hadd.
  2:{ body_runs (@Throw unit)
        (withPage (logRequest (AddDoc "locations" data) false) s0) Hbody.
      { unfold bind at 1, gets at 1.
        change (currentUser (page s0)) with (currentUser (page s)).
        rewrite Hu. unfold bind at 1, request at 1.
        change (clock (page s0)) with (clock (page s)).
        fold (newLocationData uid (creation s)). fold data.
        rewrite Hadd. reflexivity. }
      destruct (guarded_run _ "Failed to add location. Please try again."
                  _ _ _ Hbody) as (s4 & Hrun4 & Htr4).
      exists s4. eexists. split; [exact Hrun4 |]. rewrite Htr4.
      subst s0. unfold_state. rewrite <- app_assoc. split; reflexivity. }
  set (s1 := withPage (logRequest (AddDoc "locations" data) true) s0).
  assert (Himg : exists s2 img,
    match selectedNewImage (creation s) with
    | Some file =>
        tryCatch
          (imageUrl <- uploadImageToStorage E file id ;;
           command
             (UpdateDoc "locations" id [("imageUrl", FString imageUrl)])
             (fun n => updateDoc E n id [("imageUrl", FString imageUrl)]))
          (showError "Location created but image upload failed. You can add an image by editing the location.")
    | None => ret tt
    end s1 = (Return tt, s2) /\
    trace (page s2) = (trace (page s1) ++ img)%list /\
    match selectedNewImage (creation s) with
    | None => img = []
    | Some file =>
        let upl := uploadEvents E (S (clock (page s))) uid id file in
        if uploaded E (S (clock (page s))) uid id file then
          exists url okp,
            img
            = (upl ++
               Requested
                 (UpdateDoc "locations" id [("imageUrl", FString url)]) okp ::
               if okp then []
               else [Message error "Location created but image upload failed. You can add an image by editing the location."])%list
        else
          img
          = (upl ++
             [Message error "Location created but image upload failed. You can add an image by editing the location."])%list
    end).
  { destruct (selectedNewImage (creation s)) as [file|].
    - destruct (attach_image_run file id uid s1 Hu)
        as (s2 & img & Hrun & Htr & Hshape).
      exists s2, img. split_and!; assumption.
    - exists s1, []. rewrite app_nil_r. split_and!; reflexivity. }
  destruct Himg as (s2 & img & Hrun2 & Htr2 & Hshape).
  destruct (finish_creation_run s2) as (s3 & ok & loaded & Hrun3 & Htr3 & Hev).
  body_runs (Return tt) s3 Hbody.
  { unfold bind at 1, gets at 1.
    change (currentUser (page s0)) with (currentUser (page s)).
    rewrite Hu. unfold bind at 1, request at 1.
    change (clock (page s0)) with (clock (page s)).
    fold (newLocationData uid (creation s)). fold data.
    rewrite Hadd. cbv beta iota. fold s1.
    unfold bind at 1. rewrite Hrun2. exact Hrun3. }
  destruct (guarded_run _ "Failed to add location. Please try again."
              _ _ _ Hbody) as (s4 & Hrun4 & Htr4).
  exists s4.
  exists (Requested (AddDoc "locations" data) true :: img ++
          Requested GetDocs ok :: loaded ++
          [Message success "Location added successfully!"])%list.
  split; [exact Hrun4 |]. rewrite Htr4, Htr3, Htr2, app_nil_r.
  subst s1 s0. unfold_state.
  split; [rewrite <- !app_assoc; reflexivity |].
  exists img, ok, loaded. split_and!; [reflexivity | exact Hev | exact Hshape].
Qed.

End Mutations.

(** ** Mutation Coordinator: the claims *)

Lemma Forall_In {A} (P : A -> Prop) (l : list A) (x : A) :
  Forall P l -> In x l -> P x.
Proof.
  induction 1 as [|y l Hy Hl IH]; intros Hin; [destruct Hin |].
  destruct Hin as [<- | Hin]; [exact Hy | now apply IH].
Qed.

Lemma emitted_of_run (handler : M unit) (s s' : State) (events : list Event) :
  handler s = (Return tt, s') ->
  trace (page s') = (trace (page s) ++ events)%list ->
  emitted handler s events.
Proof. intros Hrun Htr. unfold emitted. now rewrite Hrun. Qed.

Lemma deleteEvents_cases (E : Env) (n : nat) (old : option string)
    (e : Event) :
  In e (deleteEvents E n old) -> exists path ok, e = Requested (DeleteObject path) ok.
Proof.
  unfold deleteEvents. destruct (nonEmpty old) as [url|]; [| intros []].
  destruct (storagePathOf url) as [[path|]|];
    [intros [<- | []]; eauto | intros [] | intros []].
Qed.

Lemma uploadEvents_cases (E : Env) (n : nat) (uid id : string)
    (file : File.t) (e : Event) :
  In e (uploadEvents E n uid id file) ->
  exists path ok,
    (e = Requested (UploadBytes path file) ok \/
     e = Requested (GetDownloadURL path) ok) /\
    (ok = false -> uploaded E n uid id file = false).
Proof.
  unfold uploadEvents, uploaded. cbv zeta.
  destruct (uploadBytes E n _ file); cbn [andb].
  - intros [<- | [<- | []]]; eexists _, _; (split; [eauto |]).
    + discriminate.
    + auto.
  - intros [<- | []]. eexists _, _. split; [eauto | reflexivity].
Qed.

Lemma loadEvent_cases (loaded : list Event) (e : Event) :
  Forall loadEvent loaded -> In e loaded ->
  (exists id ok, e = Requested (GetDoc "users" id) ok) \/
  e = Message error "Failed to load locations. Please refresh the page.".
Proof. intros H Hin. exact (Forall_In _ _ _ H Hin). Qed.

(** C8. A creation whose title is empty once trimmed shows the validation
    message and does nothing else: no request is issued, and the form, the
    staged image, the pin and the markers are as they were. *)
Theorem create_empty_title (E : Env) (s : State) :
  Js.trim (newTitle (creation s)) = EmptyString ->
  exists s',
    submitNewLocation E s = (Return tt, s') /\
    trace (page s')
    = (trace (page s) ++ [Message error "Title is required!"])%list /\
    clock (page s') = clock (page s) /\
    loading (page s') = loading (page s) /\
    creation s' = creation s /\
    editing s' = editing s /\
    store s' = store s.
Proof.
  intros H. unfold submitNewLocation. unfold bind at 1, gets at 1.
  rewrite H. cbn [Js.truthy negb].
  eexists. split; [reflexivity |]. split_and!; reflexivity.
Qed.

Lemma create_empty_title_witness :
  exists s',
    submitNewLocation offline (creatingState "   " (Some photo))
    = (Return tt, s') /\
    trace (page s') = [Message error "Title is required!"] /\
    creation s' = creation (creatingState "   " (Some photo)).
Proof.
  destruct (create_empty_title offline (creatingState "   " (Some photo))
              eq_refl)
    as (s' & Hrun & Htr & _ & _ & Hform & _).
  exists s'. split_and!; assumption.
Defined.

(** C9. In an update that replaces the stored image of the record (an
    image whose URL names a storage path, as the download URLs of the
    storage do; the user is signed in), the request that deletes the old
    image is answered before the upload of the new one is issued, and the
    upload is issued whatever the answer to the deletion was. *)
Theorem old_image_deleted_before_upload (E : Env) (s : State)
    (id uid oldUrl path : string) (file : File.t) :
  nonEmpty (editingLocationId (editing s)) = Some id ->
  Js.trim (editTitle (editing s)) <> EmptyString ->
  selectedEditImage (editing s) = Some file ->
  currentLocationImageUrl (editing s) = Some oldUrl ->
  storagePathOf oldUrl = Some (Some path) ->
  currentUser (page s) = Some uid ->
  let n := clock (page s) in
  let newPath := uploadPath uid id (now E (S n)) file in
  exists s' later,
    updateLocation E s = (Return tt, s') /\
    trace (page s')
    = (trace (page s) ++
       Requested (DeleteObject path) (deleteObject E n path) ::
       Requested (UploadBytes newPath file) (uploadBytes E (S n) newPath file) ::
       later)%list.
Proof.
  intros Hid Htitle Hfile Hold Hpath Hu n newPath.
  destruct (updateLocation_events E s) as (s' & events & Hrun & Htr & Hshape).
  rewrite Hid, Hfile, Hold, Hu in Hshape.
  assert (Ht : Js.truthy (Js.trim (editTitle (editing s))) = true).
  { destruct (Js.trim (editTitle (editing s))); [congruence | reflexivity]. }
  rewrite Ht in Hshape. cbn [negb] in Hshape. cbv zeta in Hshape.
  assert (Hdel : deleteEvents E (clock (page s)) (Some oldUrl)
                 = [Requested (DeleteObject path) (deleteObject E n path)]).
  { unfold deleteEvents, nonEmpty.
    destruct (Js.truthy oldUrl) eqn:Hto.
    - rewrite Hpath. reflexivity.
    - destruct oldUrl; [discriminate Hpath | discriminate Hto]. }
  rewrite Hdel in Hshape. cbn [length] in Hshape.
  replace (clock (page s) + 1)%nat with (S n) in Hshape by (subst n; lia).
  assert (Hupl : exists rest,
    uploadEvents E (S n) uid id file
    = Requested (UploadBytes newPath file) (uploadBytes E (S n) newPath file)
      :: rest).
  { unfold uploadEvents. cbv zeta. fold newPath.
    destruct (uploadBytes E (S n) newPath file); eauto. }
  destruct Hupl as (rest & Hupl). rewrite Hupl in Hshape.
  exists s'. destruct (uploaded E (S n) uid id file).
  - destruct Hshape as (data & tail & -> & _).
    exists (rest ++ tail)%list. split; [exact Hrun |]. exact Htr.
  - subst events. eexists. split; [exact Hrun |]. exact Htr.
Qed.

Lemma old_image_deleted_before_upload_witness :
  exists s' later,
    updateLocation (serving sampleDocs sampleUsers true)
      (editingState (Some photo)) = (Return tt, s') /\
    trace (page s')
    = Requested (DeleteObject "locations/u1/loc1_1.png") true ::
      Requested
        (UploadBytes "locations/u1/loc1_1700000000000.png" photo) true ::
      later.
Proof.
  destruct (old_image_deleted_before_upload
              (serving sampleDocs sampleUsers true) (editingState (Some photo))
              "loc1" "u1" oldImage "locations/u1/loc1_1.png" photo)
    as (s' & later & Hrun & Htr).
  - reflexivity.
  - discriminate.
  - reflexivity.
  - reflexivity.
  - vm_compute. reflexivity.
  - reflexivity.
  - exists s', later. split; [exact Hrun |]. exact Htr.
Defined.

(** The deletion of the old image is rejected; the upload is issued all
    the same. *)
Example upload_issued_after_rejected_deletion :
  trace (page (snd (updateLocation offline (editingState (Some photo)))))
  = [ Requested (DeleteObject "locations/u1/loc1_1.png") false;
      Requested
        (UploadBytes "locations/u1/loc1_1700000000000.png" photo) false;
      Message error "Failed to update location. Please try again." ].
Proof. vm_compute. reflexivity. Qed.

(** An image URL that names no storage path: nothing is deleted, the
    upload is the first request. *)
Example no_deletion_without_storage_path :
  let s :=
    withEditing
      (fun e =>
         {| editingLocationId := editingLocationId e;
            selectedEditImage := selectedEditImage e;
            currentLocationImageUrl := Some "https://host/pic.png";
            editTitle := editTitle e; editNotes := editNotes e;
            editAddress := editAddress e; editModal := editModal e |})
      (editingState (Some photo)) in
  trace (page (snd (updateLocation offline s)))
  = [ Requested
        (UploadBytes "locations/u1/loc1_1700000000000.png" photo) false;
      Message error "Failed to update location. Please try again." ].
Proof. vm_compute. reflexivity. Qed.

Lemma noWrites_app (l1 l2 : list Event) :
  noWrites l1 -> noWrites l2 -> noWrites (l1 ++ l2).
Proof.
  intros H1 H2 w ok Hin. apply in_app_iff in Hin.
  destruct Hin; [eapply H1 | eapply H2]; eassumption.
Qed.

Lemma noWrites_delete (E : Env) (n : nat) (old : option string) :
  noWrites (deleteEvents E n old).
Proof.
  intros w ok Hin. apply deleteEvents_cases in Hin.
  destruct Hin as (path & ok' & [= -> _]). reflexivity.
Qed.

Lemma noWrites_upload (E : Env) (n : nat) (uid id : string) (file : File.t) :
  noWrites (uploadEvents E n uid id file).
Proof.
  intros w ok Hin. apply uploadEvents_cases in Hin.
  destruct Hin as (path & ok' & [[= -> _] | [= -> _]] & _); reflexivity.
Qed.

Lemma noWrites_loaded (loaded : list Event) :
  Forall loadEvent loaded -> noWrites loaded.
Proof.
  intros H w ok Hin.
  destruct (loadEvent_cases _ _ H Hin) as [(id & ok' & [= -> _]) | [=]].
  reflexivity.
Qed.

Lemma noWrites_message (type : MessageType) (text : string) :
  noWrites [Message type text].
Proof. intros w ok [[=] | []]. Qed.

Lemma noWrites_nil : noWrites [].
Proof. intros w ok []. Qed.

(** After events without writes, the end of a mutation reloads after its
    write whenever the write is fulfilled. *)
Lemma writeTail_reloads (before : list Event) (w0 : Request)
    (failure done : string) (tail : list Event) :
  noWrites before ->
  writeTail w0 failure done tail ->
  forall w, isWrite w = true ->
            In (Requested w true) (before ++ tail) ->
            reloadsAfter w (before ++ tail).
Proof.
  intros Hpre Htail w Hw Hin. apply in_app_iff in Hin.
  destruct Hin as [Hin | Hin].
  { rewrite (Hpre w true Hin) in Hw. discriminate. }
  destruct Htail as [-> | (ok & loaded & -> & Hev)].
  - destruct Hin as [[=] | [[=] | []]].
  - destruct Hin as [[= <-] | [[= <-] | Hin]].
    + exists before, [], (loaded ++ [Message success done])%list, ok.
      reflexivity.
    + discriminate.
    + pose proof (noWrites_app _ _ (noWrites_loaded _ Hev)
                    (noWrites_message success done) w true Hin) as Hno.
      rewrite Hno in Hw. discriminate.
Qed.

Lemma reloadsAfter_none (events : list Event) :
  noWrites events ->
  forall w, isWrite w = true -> In (Requested w true) events ->
            reloadsAfter w events.
Proof. intros Hno w Hw Hin. rewrite (Hno w true Hin) in Hw. discriminate. Qed.

Lemma failed_write_no_reload (w0 : Request) (failure : string)
    (before : list Event) :
  noWrites before ->
  forall w, isWrite w = true ->
            In (Requested w true)
              (before ++ [Requested w0 false; Message error failure]) ->
            reloadsAfter w
              (before ++ [Requested w0 false; Message error failure]).
Proof.
  intros Hno w Hw Hin. apply in_app_iff in Hin.
  destruct Hin as [Hin | [[=] | [[=] | []]]].
  rewrite (Hno w true Hin) in Hw. discriminate.
Qed.

Section Claims.

Variable E : Env.

Lemma create_reloads (s : State) :
  exists events,
    emitted (submitNewLocation E) s events /\
    forall w, isWrite w = true -> In (Requested w true) events ->
              reloadsAfter w events.
Proof.
  destruct (submitNewLocation_events E s)
    as (s' & events & Hrun & Htr & Hshape).
  exists events. split; [exact (emitted_of_run _ _ _ _ Hrun Htr) |].
  destruct (negb (Js.truthy (Js.trim (newTitle (creation s))))).
  { destruct Hshape as [_ ->]. apply reloadsAfter_none, noWrites_message. }
  destruct (currentUser (page s)) as [uid|].
  2:{ subst events. apply reloadsAfter_none, noWrites_message. }
  cbv zeta in Hshape.
  destruct (addDoc E (clock (page s)) (newLocationData uid (creation s)))
    as [id|].
  2:{ subst events. apply (failed_write_no_reload _ _ []), noWrites_nil. }
  destruct Hshape as (img & ok & loaded & -> & Hev & Himg).
  set (data := newLocationData uid (creation s)) in *.
  set (done := Message success "Location added successfully!").
  assert (Hafter : noWrites (Requested GetDocs ok :: loaded ++ [done])).
  { apply (noWrites_app [Requested GetDocs ok]).
    - intros w okw [[= <- _] | []]. reflexivity.
    - apply noWrites_app;
        [now apply noWrites_loaded | apply noWrites_message]. }
  intros w Hw [[= <-] | Hin].
  { exists [], img, (loaded ++ [done])%list, ok. reflexivity. }
  apply in_app_iff in Hin. destruct Hin as [Hin | Hin].
  2:{ rewrite (Hafter w true Hin) in Hw. discriminate. }
  destruct (selectedNewImage (creation s)) as [file|];
    [| subst img; destruct Hin].
  cbv zeta in Himg.
  destruct (uploaded E (S (clock (page s))) uid id file).
  - destruct Himg as (url & okp & ->).
    apply in_app_iff in Hin. destruct Hin as [Hin | Hin].
    { rewrite (noWrites_upload _ _ _ _ _ w true Hin) in Hw. discriminate. }
    destruct Hin as [[= <- ->] | Hin].
    + exists (Requested (AddDoc "locations" data) true ::
              uploadEvents E (S (clock (page s))) uid id file)%list,
        [], (loaded ++ [done])%list, ok.
      cbn [app]. rewrite <- app_assoc. reflexivity.
    + destruct okp; [destruct Hin | destruct Hin as [[=] | []]].
  - subst img. apply in_app_iff in Hin. destruct Hin as [Hin | [[=] | []]].
    rewrite (noWrites_upload _ _ _ _ _ w true Hin) in Hw. discriminate.
Qed.

Lemma update_reloads (s : State) :
  exists events,
    emitted (updateLocation E) s events /\
    forall w, isWrite w = true -> In (Requested w true) events ->
              reloadsAfter w events.
Proof.
  destruct (updateLocation_events E s)
    as (s' & events & Hrun & Htr & Hshape).
  exists events. split; [exact (emitted_of_run _ _ _ _ Hrun Htr) |].
  destruct (nonEmpty (editingLocationId (editing s))) as [id|].
  2:{ destruct Hshape as [-> _]. apply reloadsAfter_none, noWrites_nil. }
  destruct (negb (Js.truthy (Js.trim (editTitle (editing s))))).
  { subst events. apply reloadsAfter_none, noWrites_message. }
  destruct (selectedEditImage (editing s)) as [file|].
  2:{ destruct Hshape as (data & Htail).
      exact (writeTail_reloads [] _ _ _ _ noWrites_nil Htail). }
  cbv zeta in Hshape.
  destruct (currentUser (page s)) as [uid|].
  2:{ subst events. apply reloadsAfter_none.
      apply noWrites_app; [apply noWrites_delete | apply noWrites_message]. }
  destruct (uploaded E _ uid id file).
  - destruct Hshape as (data & tail & -> & Htail).
    rewrite app_assoc.
    apply (writeTail_reloads _ _ _ _ _
             (noWrites_app _ _ (noWrites_delete _ _ _)
                (noWrites_upload _ _ _ _ _)) Htail).
  - subst events. apply reloadsAfter_none.
    apply noWrites_app; [apply noWrites_delete |].
    apply noWrites_app; [apply noWrites_upload | apply noWrites_message].
Qed.

Lemma delete_reloads (locationId : string) (s : State) :
  exists events,
    emitted (deleteLocationById E locationId) s events /\
    forall w, isWrite w = true -> In (Requested w true) events ->
              reloadsAfter w events.
Proof.
  destruct (deleteLocationById_events E locationId s)
    as (s' & events & Hrun & Htr & Hshape).
  exists events. split; [exact (emitted_of_run _ _ _ _ Hrun Htr) |].
  destruct (getLocation E (clock (page s)) locationId) as [locationDoc|].
  - cbv zeta in Hshape. destruct Hshape as (tail & -> & Htail).
    eapply (writeTail_reloads (_ :: _)); [| exact Htail].
    apply (noWrites_app [_]); [| apply noWrites_delete].
    intros w ok [[= <- _] | []]. reflexivity.
  - subst events. apply reloadsAfter_none.
    apply (noWrites_app [_]); [| apply noWrites_message].
    intros w ok [[= <- _] | []]. reflexivity.
Qed.

Lemma remove_image_never_reloads (s : State) :
  exists events,
    emitted (handleRemoveImage E) s events /\
    forall ok, ~ In (Requested GetDocs ok) events.
Proof.
  destruct (handleRemoveImage_events E s)
    as (s' & events & Hrun & Htr & Hshape).
  exists events. split; [exact (emitted_of_run _ _ _ _ Hrun Htr) |].
  intros ok Hin.
  destruct Hshape as [-> | (imageUrl & id & okw & _ & _ & ->)];
    [destruct Hin |].
  apply in_app_iff in Hin. destruct Hin as [Hin | [[=] | [Hin | []]]].
  - apply deleteEvents_cases in Hin. destruct Hin as (path & ok' & [=]).
  - destruct okw; discriminate.
Qed.

End Claims.

(** C2 (amended). A creation, an update and a deletion load the locations
    again after their write to the document store is fulfilled: the
    history then shows a fetch of all records after that write.  The
    removal of an image never does: it patches the record and updates the
    edit form in place. *)
Theorem reload_after_write (E : Env) (s : State) :
  (exists events,
     emitted (submitNewLocation E) s events /\
     forall w, isWrite w = true -> In (Requested w true) events ->
               reloadsAfter w events) /\
  (exists events,
     emitted (updateLocation E) s events /\
     forall w, isWrite w = true -> In (Requested w true) events ->
               reloadsAfter w events) /\
  (forall locationId,
   exists events,
     emitted (deleteLocationById E locationId) s events /\
     forall w, isWrite w = true -> In (Requested w true) events ->
               reloadsAfter w events) /\
  (exists events,
     emitted (handleRemoveImage E) s events /\
     forall ok, ~ In (Requested GetDocs ok) events).
Proof.
  split_and!.
  - apply create_reloads.
  - apply update_reloads.
  - intros locationId. apply delete_reloads.
  - apply remove_image_never_reloads.
Qed.

Lemma reload_after_write_witness :
  exists events,
    emitted (updateLocation (serving sampleDocs sampleUsers true))
      (editingState None) events /\
    reloadsAfter
      (UpdateDoc "locations" "loc1"
         [ ("title", FString "Cafe"); ("notes", FString EmptyString);
           ("address", FString EmptyString); ("updatedAt", FServerTimestamp);
           ("imageUrl", FString oldImage) ])
      events.
Proof.
  destruct (reload_after_write (serving sampleDocs sampleUsers true)
              (editingState None))
    as (_ & (events & Hem & Hreload) & _).
  exists events. split; [exact Hem |].
  apply Hreload; [reflexivity |].
  unfold emitted in Hem. vm_compute in Hem. rewrite <- Hem.
  left. reflexivity.
Defined.

(** C2 as stated fails for the removal of an image: its write to the
    record is fulfilled and no load follows. *)
Lemma remove_image_without_reload :
  let s' := snd (handleRemoveImage (serving sampleDocs sampleUsers true)
                   (editingState None)) in
  trace (page s')
  = [ Requested (DeleteObject "locations/u1/loc1_1.png") true;
      Requested
        (UpdateDoc "locations" "loc1"
           [("imageUrl", FNull); ("updatedAt", FServerTimestamp)]) true;
      Message success "Image removed successfully!" ] /\
  (forall ok, ~ In (Requested GetDocs ok) (trace (page s'))) /\
  allMarkers (store s') = [pin] /\
  currentLocationImageUrl (editing s') = None.
Proof.
  cbv zeta. split_and!.
  - vm_compute. reflexivity.
  - intros ok Hin. vm_compute in Hin.
    destruct Hin as [[=] | [[=] | [[=] | []]]].
  - vm_compute. reflexivity.
  - vm_compute. reflexivity.
Qed.

Lemma failedStep_request (e : Event) :
  failedStep e ->
  exists r, e = Requested r false /\ isWrite r = false /\ r <> GetDocs /\
            (forall coll id, r <> GetDoc coll id) /\
            (forall path, r <> DeleteObject path).
Proof.
  intros (path & [[file ->] | ->]); eexists; split_and!;
    try reflexivity; intros; discriminate.
Qed.

Lemma failedStep_upload (E : Env) (n : nat) (uid id : string)
    (file : File.t) (e : Event) :
  failedStep e -> In e (uploadEvents E n uid id file) ->
  uploaded E n uid id file = false.
Proof.
  intros He Hin. apply uploadEvents_cases in Hin.
  destruct Hin as (p & ok & Hshape & Hfalse). apply Hfalse.
  destruct (failedStep_request e He) as (r & -> & _).
  destruct Hshape as [[= _ <-] | [= _ <-]]; reflexivity.
Qed.

Lemma failedStep_not_delete (E : Env) (n : nat) (old : option string)
    (e : Event) :
  failedStep e -> ~ In e (deleteEvents E n old).
Proof.
  intros He Hin. apply deleteEvents_cases in Hin.
  destruct Hin as (p & ok & ->).
  destruct (failedStep_request _ He) as (r & [= <- _] & _ & _ & _ & Hno).
  now apply (Hno p).
Qed.

Lemma failedStep_not_loaded (loaded : list Event) (e : Event) :
  Forall loadEvent loaded -> failedStep e -> ~ In e loaded.
Proof.
  intros Hev He Hin.
  destruct (failedStep_request _ He) as (r & -> & _ & _ & Hno & _).
  destruct (loadEvent_cases _ _ Hev Hin) as [(id & ok & [= -> _]) | [=]].
  now apply (Hno "users" id).
Qed.

Lemma failedStep_not_message (type : MessageType) (text : string) :
  ~ failedStep (Message type text).
Proof. intros He. destruct (failedStep_request _ He) as (r & [=] & _). Qed.

Lemma failedStep_not_write (r : Request) (ok : bool) :
  isWrite r = true -> ~ failedStep (Requested r ok).
Proof.
  intros Hw He.
  destruct (failedStep_request _ He) as (r' & [= <- _] & Hno & _).
  congruence.
Qed.

Lemma failedStep_not_getDocs (ok : bool) : ~ failedStep (Requested GetDocs ok).
Proof.
  intros He.
  destruct (failedStep_request _ He) as (r' & [= <- _] & _ & Hno & _).
  now apply Hno.
Qed.

Lemma failedStep_not_tail (w : Request) (failure done : string)
    (tail : list Event) (e : Event) :
  isWrite w = true -> writeTail w failure done tail ->
  failedStep e -> ~ In e tail.
Proof.
  intros Hw [-> | (ok & loaded & -> & Hev)] He Hin; in_cases Hin;
    try (subst e; first
           [ now apply (failedStep_not_write _ _ Hw) in He
           | now apply failedStep_not_message in He
           | now apply failedStep_not_getDocs in He ]).
  now apply (failedStep_not_loaded _ _ Hev He).
Qed.

Section UploadFailure.

Variable E : Env.

(** A creation in which a step of the upload is rejected still completes:
    the record was created, the image warning is shown and not the message
    of a failed creation, the locations are loaded again and the success
    is reported. *)
Lemma create_survives_upload_failure (s : State) :
  exists events,
    emitted (submitNewLocation E) s events /\
    (uploadFailed events ->
     (exists data,
        In (Requested (AddDoc "locations" data) true) events /\
        reloadsAfter (AddDoc "locations" data) events) /\
     In (Message error "Location created but image upload failed. You can add an image by editing the location.") events /\
     ~ In (Message error "Failed to add location. Please try again.") events /\
     In (Message success "Location added successfully!") events).
Proof.
  destruct (submitNewLocation_events E s)
    as (s' & events & Hrun & Htr & Hshape).
  exists events. split; [exact (emitted_of_run _ _ _ _ Hrun Htr) |].
  intros (e & Hin & He).
  destruct (negb (Js.truthy (Js.trim (newTitle (creation s))))).
  { destruct Hshape as [_ ->]. in_cases Hin. subst e.
    now apply failedStep_not_message in He. }
  destruct (currentUser (page s)) as [uid|].
  2:{ subst events. in_cases Hin. subst e.
      now apply failedStep_not_message in He. }
  cbv zeta in Hshape.
  destruct (addDoc E (clock (page s)) (newLocationData uid (creation s)))
    as [id|].
  2:{ subst events. in_cases Hin; subst e.
      - now apply failedStep_not_write in He.
      - now apply failedStep_not_message in He. }
  destruct Hshape as (img & ok & loaded & -> & Hev & Himg).
  set (data := newLocationData uid (creation s)) in *.
  assert (Himg_in : In e img).
  { in_cases Hin; try assumption; exfalso.
    - subst e. now apply failedStep_not_write in He.
    - subst e. now apply failedStep_not_getDocs in He.
    - now apply (failedStep_not_loaded _ _ Hev He).
    - subst e. now apply failedStep_not_message in He. }
  clear Hin.
  destruct (selectedNewImage (creation s)) as [file|];
    [| subst img; destruct Himg_in].
  cbv zeta in Himg.
  destruct (uploaded E (S (clock (page s))) uid id file) eqn:Hup.
  { exfalso. destruct Himg as (url & okp & ->). in_cases Himg_in.
    - rewrite (failedStep_upload _ _ _ _ _ _ He Himg_in) in Hup.
      discriminate.
    - subst e. now apply failedStep_not_write in He.
    - destruct okp; in_cases Himg_in. subst e.
      now apply failedStep_not_message in He. }
  subst img. split_and!.
  - exists data. split; [now left |].
    eexists [], _, _, ok. reflexivity.
  - right. apply in_app_iff. left. apply in_app_iff. right. now left.
  - intros H. in_cases H; try discriminate.
    + apply uploadEvents_cases in H.
      destruct H as (p & okx & [[=] | [=]] & _).
    + destruct (loadEvent_cases _ _ Hev H) as [(? & ? & [=]) | [=]].
  - right. apply in_app_iff. right. right. apply in_app_iff. right.
    now left.
Qed.

(** An update in which a step of the upload is rejected issues no write
    to the record, shows the message of a failed update and loads nothing
    again. *)
Lemma update_aborts_on_upload_failure (s : State) :
  exists events,
    emitted (updateLocation E) s events /\
    (uploadFailed events ->
     (forall id data ok,
        ~ In (Requested (UpdateDoc "locations" id data) ok) events) /\
     In (Message error "Failed to update location. Please try again.") events /\
     (forall ok, ~ In (Requested GetDocs ok) events)).
Proof.
  destruct (updateLocation_events E s)
    as (s' & events & Hrun & Htr & Hshape).
  exists events. split; [exact (emitted_of_run _ _ _ _ Hrun Htr) |].
  intros (e & Hin & He).
  destruct (nonEmpty (editingLocationId (editing s))) as [id|].
  2:{ destruct Hshape as [-> _]. destruct Hin. }
  destruct (negb (Js.truthy (Js.trim (editTitle (editing s))))).
  { subst events. in_cases Hin. subst e.
    now apply failedStep_not_message in He. }
  destruct (selectedEditImage (editing s)) as [file|].
  2:{ destruct Hshape as (data & Htail).
      destruct (failedStep_not_tail (UpdateDoc "locations" id data) _ _ _ _
                  eq_refl Htail He Hin). }
  cbv zeta in Hshape.
  set (del := deleteEvents E (clock (page s))
                (currentLocationImageUrl (editing s))) in *.
  destruct (currentUser (page s)) as [uid|].
  2:{ subst events. in_cases Hin.
      - destruct (failedStep_not_delete _ _ _ _ He Hin).
      - subst e. now apply failedStep_not_message in He. }
  destruct (uploaded E (clock (page s) + length del) uid id file) eqn:Hup.
  { exfalso. destruct Hshape as (data & tail & -> & Htail). in_cases Hin.
    - destruct (failedStep_not_delete _ _ _ _ He Hin).
    - rewrite (failedStep_upload _ _ _ _ _ _ He Hin) in Hup. discriminate.
    - destruct (failedStep_not_tail (UpdateDoc "locations" id data) _ _ _ _
                  eq_refl Htail He Hin). }
  subst events. clear Hin He e. split_and!.
  - intros i d ok H. in_cases H; try discriminate.
    + apply deleteEvents_cases in H. destruct H as (p & okx & [=]).
    + apply uploadEvents_cases in H.
      destruct H as (p & okx & [[=] | [=]] & _).
  - apply in_app_iff. right. apply in_app_iff. right. now left.
  - intros ok H. in_cases H; try discriminate.
    + apply deleteEvents_cases in H. destruct H as (p & okx & [=]).
    + apply uploadEvents_cases in H.
      destruct H as (p & okx & [[=] | [=]] & _).
Qed.

End UploadFailure.

(** The creation that survives: the upload of the staged image is
    rejected, the record is created all the same, the image warning is
    shown and the locations are loaded again. *)
Example creation_survives_rejected_upload :
  exists events,
    emitted (submitNewLocation (serving sampleDocs sampleUsers false))
      (creatingState "Park" (Some photo)) events /\
    uploadFailed events /\
    In (Message error "Location created but image upload failed. You can add an image by editing the location.") events /\
    In (Message success "Location added successfully!") events.
Proof.
  destruct (create_survives_upload_failure
              (serving sampleDocs sampleUsers false)
              (creatingState "Park" (Some photo)))
    as (events & Hem & Hcreate).
  assert (Hfailed : uploadFailed events).
  { unfold emitted in Hem. vm_compute in Hem. rewrite <- Hem.
    eexists. split; [right; left; reflexivity |].
    eexists. left. eexists. reflexivity. }
  destruct (Hcreate Hfailed) as (_ & Hwarned & _ & Hdone).
  exists events. split_and!; assumption.
Qed.

(** C3 (defect of [updateLocation]). An update whose staged image fails
    to upload does not complete: with the edit modal open on [loc1], a
    staged image and a storage that rejects uploads, the old image is
    deleted, the upload is rejected, no write to the record is issued, the
    message is the one of a failed update and the edit form still refers
    to the deleted image.  A creation in the same situation completes and
    warns of the image only. *)
Theorem update_lost_on_upload_failure :
  let E := serving sampleDocs sampleUsers false in
  let s' := snd (updateLocation E (editingState (Some photo))) in
  trace (page s')
  = [ Requested (DeleteObject "locations/u1/loc1_1.png") true;
      Requested
        (UploadBytes "locations/u1/loc1_1700000000000.png" photo) false;
      Message error "Failed to update location. Please try again." ] /\
  uploadFailed (trace (page s')) /\
  (forall id data ok,
     ~ In (Requested (UpdateDoc "locations" id data) ok) (trace (page s'))) /\
  editing s' = editing (editingState (Some photo)).
Proof.
  cbv zeta. split_and!.
  - vm_compute. reflexivity.
  - eexists. split; [vm_compute; right; left; reflexivity |].
    eexists. left. eexists. reflexivity.
  - intros id data ok Hin. vm_compute in Hin.
    destruct Hin as [[=] | [[=] | [[=] | []]]].
  - vm_compute. reflexivity.
Qed.

(** ** Sessions: what every handler keeps *)

Lemma preserves_ret {A} (I : State -> Prop) (a : A) : preserves I (ret a).
Proof. intros s H. exact H. Qed.

Lemma preserves_throw {A} (I : State -> Prop) : preserves I (@throw A).
Proof. intros s H. exact H. Qed.

Lemma preserves_gets {A} (I : State -> Prop) (f : State -> A) :
  preserves I (gets f).
Proof. intros s H. exact H. Qed.

Lemma preserves_bind {A B} (I : State -> Prop) (m : M A) (k : A -> M B) :
  preserves I m -> (forall a, preserves I (k a)) -> preserves I (bind m k).
Proof.
  intros Hm Hk s H. unfold bind. specialize (Hm s H).
  destruct (m s) as [[a|] s']; cbn in *; [now apply Hk | exact Hm].
Qed.

Lemma preserves_tryCatch {A} (I : State -> Prop) (m h : M A) :
  preserves I m -> preserves I h -> preserves I (tryCatch m h).
Proof.
  intros Hm Hh s H. unfold tryCatch. specialize (Hm s H).
  destruct (m s) as [[a|] s']; cbn in *; [exact Hm | now apply Hh].
Qed.

Lemma preserves_finally {A} (I : State -> Prop) (m : M A) (f : M unit) :
  preserves I m -> preserves I f -> preserves I (finally m f).
Proof.
  intros Hm Hf s H. unfold finally. specialize (Hm s H).
  destruct (m s) as [r s']. cbn in Hm. specialize (Hf s' Hm).
  destruct (f s') as [[[]|] s'']; exact Hf.
Qed.

Lemma preserves_forEach {A} (I : State -> Prop) (l : list A)
    (body : A -> M unit) :
  (forall x, preserves I (body x)) -> preserves I (forEach l body).
Proof.
  intros Hbody. induction l as [|x l IH]; cbn [forEach].
  - apply preserves_ret.
  - apply preserves_bind; [apply Hbody | intros _; exact IH].
Qed.

#[local] Hint Resolve preserves_ret preserves_throw preserves_gets
  preserves_bind preserves_tryCatch preserves_finally preserves_forEach
  : preserve.

#[local] Hint Extern 1 (preserves _ (match ?x with _ => _ end)) =>
  destruct x : preserve.

#[local] Hint Extern 1 (preserves _ (let _ := _ in _)) =>
  cbv zeta : preserve.

(** A change that leaves the cache and the history keeps a profile
    settled. *)
Lemma preserves_modify (userId : string) (profile : Profile.t) (n : nat)
    (f : State -> State) :
  (forall s, userProfileCache (store (f s)) = userProfileCache (store s)) ->
  (forall s, fetchesOf userId (trace (page (f s)))
             = fetchesOf userId (trace (page s))) ->
  preserves (settled userId profile n) (modify f).
Proof.
  intros Hc Ht s [H1 H2]. unfold modify, settled. cbn [snd].
  now rewrite Hc, Ht.
Qed.

Lemma preserves_showMessage (userId : string) (profile : Profile.t) (n : nat)
    (text : string) (type : MessageType) :
  preserves (settled userId profile n) (showMessage text type).
Proof.
  apply preserves_modify; intros s; [reflexivity |].
  unfold_state. rewrite fetchesOf_app. cbn. lia.
Qed.

(** So does a request that is not a fetch of that profile. *)
Lemma preserves_request {A} (userId : string) (profile : Profile.t) (n : nat)
    (r : Request) (answer : nat -> option A) :
  isFetchOf userId (Requested r true) = false ->
  preserves (settled userId profile n) (request r answer).
Proof.
  intros Hr s [H1 H2]. unfold request, settled.
  assert (Hsame : forall ok,
            fetchesOf userId (trace (page s) ++ [Requested r ok]) = n).
  { intros ok. rewrite fetchesOf_app, H2. unfold fetchesOf. cbn [List.filter].
    replace (isFetchOf userId (Requested r ok)) with false
      by (rewrite <- Hr; destruct r; reflexivity).
    cbn. lia. }
  destruct (answer (clock (page s))); cbn [snd]; unfold_state;
    (split; [exact H1 | apply Hsame]).
Qed.

Lemma preserves_command (userId : string) (profile : Profile.t) (n : nat)
    (r : Request) (answer : nat -> bool) :
  isFetchOf userId (Requested r true) = false ->
  preserves (settled userId profile n) (command r answer).
Proof. intros Hr. unfold command. now apply preserves_request. Qed.

(** A resolution of any id keeps the settled profile: a fetch is issued
    for an id that is not cached only. *)
Lemma preserves_fetchUserProfile (E : Env) (userId : string)
    (profile : Profile.t) (n : nat) (other : string) :
  preserves (settled userId profile n) (fetchUserProfile E other).
Proof.
  intros s [H1 H2]. rewrite fetchUserProfile_run.
  destruct (negb (Js.truthy other)); [now split |].
  destruct (userProfileCache (store s) !! other) as [p|] eqn:Hc;
    [now split |].
  cbv zeta. cbn [snd]. unfold settled. unfold_state.
  assert (Hne : other <> userId) by congruence.
  split.
  - rewrite lookup_insert_ne; [exact H1 | exact Hne].
  - rewrite fetchesOf_app, H2, fetchesOf_one.
    destruct (String.eqb_spec other userId); [contradiction | lia].
Qed.

#[local] Hint Resolve preserves_showMessage preserves_fetchUserProfile
  : preserve.

#[local] Hint Extern 2 (preserves (settled _ _ _) (modify _)) =>
  apply preserves_modify; intros ?; reflexivity : preserve.

#[local] Hint Extern 2 (preserves (settled _ _ _) (request _ _)) =>
  apply preserves_request; reflexivity : preserve.

#[local] Hint Extern 2 (preserves (settled _ _ _) (command _ _)) =>
  apply preserves_command; reflexivity : preserve.

#[local] Hint Unfold showLoading showError showSuccess clearLayers addLayer
  pushMarker askConfirm : preserve.

Lemma preserves_secondPass (E : Env) (userId : string) (profile : Profile.t)
    (n : nat) (docs : list DocSnap.t) (locationData : list Location.t) :
  forall currentBatch,
    preserves (settled userId profile n)
      (secondPass E docs locationData currentBatch).
Proof.
  induction locationData as [|location rest IH]; intros currentBatch;
    cbn [secondPass]; [apply preserves_ret |].
  apply preserves_bind; [apply preserves_fetchUserProfile | intros p].
  apply preserves_bind; [apply preserves_gets | intros cu].
  apply preserves_bind; [unfold pushMarker; auto with preserve | intros _].
  destruct (batchSize <=? _)%nat; [| apply IH].
  apply preserves_bind; [| intros _; apply IH].
  apply preserves_forEach. intros obj. unfold addLayer. auto with preserve.
Qed.

#[local] Hint Resolve preserves_secondPass : preserve.

Lemma preserves_load (E : Env) (userId : string) (profile : Profile.t)
    (n : nat) :
  preserves (settled userId profile n) (loadLocationsFromFirestore E).
Proof.
  unfold loadLocationsFromFirestore, showLoading, showError, clearLayers,
    addLayer.
  eauto 30 with preserve.
Qed.

Lemma preserves_filterMarkers (userId : string) (profile : Profile.t)
    (n : nat) (query : string) :
  preserves (settled userId profile n) (filterMarkers query).
Proof.
  unfold filterMarkers, clearLayers, addLayer. cbv zeta.
  apply preserves_bind; [auto with preserve | intros _].
  apply preserves_bind; [auto with preserve | intros all].
  destruct (String.eqb _ _); apply preserves_forEach; intros o;
    [| destruct (matchesTerm _ o)]; auto with preserve.
Qed.

#[local] Hint Resolve preserves_load preserves_filterMarkers : preserve.

Lemma preserves_toggleCreationMode (userId : string) (profile : Profile.t)
    (n : nat) :
  preserves (settled userId profile n) toggleCreationMode.
Proof. unfold toggleCreationMode. eauto 20 with preserve. Qed.

Lemma preserves_deleteImageFromStorage (E : Env) (userId : string)
    (profile : Profile.t) (n : nat) (imageUrl : string) :
  preserves (settled userId profile n) (deleteImageFromStorage E imageUrl).
Proof. unfold deleteImageFromStorage. eauto 20 with preserve. Qed.

Lemma preserves_uploadImageToStorage (E : Env) (userId : string)
    (profile : Profile.t) (n : nat) (file : File.t) (locationId : string) :
  preserves (settled userId profile n)
    (uploadImageToStorage E file locationId).
Proof. unfold uploadImageToStorage. eauto 20 with preserve. Qed.

#[local] Hint Resolve preserves_toggleCreationMode
  preserves_deleteImageFromStorage preserves_uploadImageToStorage : preserve.

Lemma preserves_submitNewLocation (E : Env) (userId : string)
    (profile : Profile.t) (n : nat) :
  preserves (settled userId profile n) (submitNewLocation E).
Proof.
  unfold submitNewLocation, showLoading, showError, showSuccess.
  eauto 40 with preserve.
Qed.

Lemma preserves_updateLocation (E : Env) (userId : string)
    (profile : Profile.t) (n : nat) :
  preserves (settled userId profile n) (updateLocation E).
Proof.
  unfold updateLocation, showLoading, showError, showSuccess.
  eauto 40 with preserve.
Qed.

Lemma preserves_deleteLocationById (E : Env) (userId : string)
    (profile : Profile.t) (n : nat) (locationId : string) :
  preserves (settled userId profile n) (deleteLocationById E locationId).
Proof.
  unfold deleteLocationById, showLoading, showError, showSuccess.
  eauto 40 with preserve.
Qed.

#[local] Hint Resolve preserves_deleteLocationById : preserve.

Lemma preserves_handleRemoveImage (E : Env) (userId : string)
    (profile : Profile.t) (n : nat) :
  preserves (settled userId profile n) (handleRemoveImage E).
Proof.
  unfold handleRemoveImage, askConfirm, showLoading, showError, showSuccess.
  eauto 40 with preserve.
Qed.

(** Every step of a session keeps a settled profile. *)
Lemma preserves_perform (E : Env) (userId : string) (profile : Profile.t)
    (n : nat) (a : Action) :
  preserves (settled userId profile n) (perform E a).
Proof.
  destruct a; cbn [perform].
  - auto with preserve.
  - apply preserves_load.
  - apply preserves_filterMarkers.
  - apply preserves_toggleCreationMode.
  - apply preserves_submitNewLocation.
  - apply preserves_updateLocation.
  - unfold confirmDeleteLocation, askConfirm. eauto 10 with preserve.
  - unfold deleteLocation, askConfirm. eauto 20 with preserve.
  - apply preserves_handleRemoveImage.
  - apply preserves_modify; intros s; reflexivity.
Qed.

Lemma session_settled (E : Env) (userId : string) (profile : Profile.t)
    (n : nat) (actions : list Action) (s : State) :
  settled userId profile n s ->
  settled userId profile n (session E actions s).
Proof.
  revert s. induction actions as [|a l IH]; intros s H; [exact H |].
  cbn [session fold_left]. apply IH. now apply preserves_perform.
Qed.

(** C5. Of the calls of [fetchUserProfile] with one non-empty id at most
    the first issues a fetch.  A call always completes, with the id cached
    to the profile it returns: the cached one if there was one, else the
    one built from the answer, which is the default [Unknown User] profile
    when the record is absent or the fetch failed.  From then on, whatever
    the session goes through, the entry stays, no fetch for that id is
    issued again, and a call returns the cached profile and changes
    nothing. *)
Theorem profile_resolved_once (E : Env) (userId : string) (s : State) :
  userId <> EmptyString ->
  exists profile s1 events,
    fetchUserProfile E userId s = (Return profile, s1) /\
    userProfileCache (store s1) !! userId = Some profile /\
    trace (page s1) = (trace (page s) ++ events)%list /\
    (fetchesOf userId events <= 1)%nat /\
    (forall cached, userProfileCache (store s) !! userId = Some cached ->
                    profile = cached /\ s1 = s) /\
    (userProfileCache (store s) !! userId = None ->
     profile = profileOf (getUser E (clock (page s)) userId) /\
     (getUser E (clock (page s)) userId = None ->
      profile = defaultProfile /\
      defaultProfile
      = {| Profile.displayName := "Unknown User";
           Profile.email := EmptyString |})) /\
    forall actions : list Action,
      let s2 := session E actions s1 in
      userProfileCache (store s2) !! userId = Some profile /\
      fetchesOf userId (trace (page s2)) = fetchesOf userId (trace (page s1)) /\
      fetchUserProfile E userId s2 = (Return profile, s2).
Proof.
  intros Hne.
  assert (Ht : Js.truthy userId = true)
    by (destruct userId; [congruence | reflexivity]).
  destruct (fetchUserProfile_resolved E userId s)
    as (p & s1 & Hrun & Hres & Hin).
  specialize (Hin Ht).
  pose proof Hres
    as (_ & _ & _ & _ & _ & _ & _ & _ & ev & Htr & _ & _ & _ & Hle & _).
  exists p, s1, ev. split_and!; auto.
  - intros cached Hc. rewrite fetchUserProfile_run, Ht, Hc in Hrun.
    cbn in Hrun. split; congruence.
  - intros Hc. split; [| intros Hfail; split; [| reflexivity]];
      rewrite fetchUserProfile_run, Ht, Hc in Hrun; cbn in Hrun;
      [| rewrite Hfail in Hrun; cbn in Hrun]; congruence.
  - intros actions s2.
    destruct (session_settled E userId p _ actions s1 (conj Hin eq_refl))
      as [Hkept Hquiet].
    fold s2 in Hkept, Hquiet. split_and!; [exact Hkept | exact Hquiet |].
    now apply fetchUserProfile_hit.
Qed.

Lemma profile_resolved_once_witness :
  exists s1,
    fetchUserProfile offline "u7" startState = (Return defaultProfile, s1) /\
    userProfileCache (store s1) !! "u7" = Some defaultProfile /\
    let s2 := session offline [Load; Resolve "u7"; Update] s1 in
    fetchUserProfile offline "u7" s2 = (Return defaultProfile, s2).
Proof.
  destruct (profile_resolved_once offline "u7" startState)
    as (p & s1 & events & Hrun & Hcached & _ & _ & _ & Hmiss & Hlater);
    [discriminate |].
  assert (Hnone : userProfileCache (store startState) !! "u7" = None)
    by reflexivity.
  destruct (Hmiss Hnone) as [_ Hfail].
  destruct (Hfail eq_refl) as [-> _].
  destruct (Hlater [Load; Resolve "u7"; Update]) as (_ & _ & Hhit).
  exists s1. split_and!; assumption.
Defined.

(** ** The state a guarded handler ends in, and what handlers leave alone *)

(** A body run under [try]/[catch]/[finally]: the state it ends in. *)
Lemma guarded_state (body : M unit) (failure : string) (s : State)
    (r : Outcome unit) (s' : State) :
  body s = (r, s') ->
  finally (tryCatch body (showError failure)) (showLoading false) s
  = (Return tt,
     withPage (setLoading false)
       match r with
       | Return _ => s'
       | Throw => withPage (logEvent (Message error failure)) s'
       end).
Proof.
  intros H. unfold finally, tryCatch. rewrite H.
  destruct r as [[]|]; reflexivity.
Qed.

Lemma truthy_trim (t : string) :
  Js.trim t <> EmptyString -> negb (Js.truthy (Js.trim t)) = false.
Proof. destruct (Js.trim t); [congruence | reflexivity]. Qed.

Lemma nonEmpty_Some (o : option string) (x : string) :
  nonEmpty o = Some x -> o = Some x /\ Js.truthy x = true.
Proof.
  destruct o as [y|]; [| discriminate]. cbn.
  destruct (Js.truthy y) eqn:Hy; [| discriminate].
  intros [= <-]. now split.
Qed.

Lemma nonEmpty_truthy (x : string) :
  x <> EmptyString -> nonEmpty (Some x) = Some x.
Proof. destruct x; [congruence | reflexivity]. Qed.

(** What [toggleCreationMode] does to the state. *)
Lemma toggleCreationMode_state (s : State) :
  toggleCreationMode s
  = (Return tt,
     if creationMode (creation s) then
       let s1 := withCreation dropTempMarker (withCreation flipCreationMode s) in
       if Js.truthy (search (page s))
       then withStore
              (setMarkers
                 (map MarkerObj.marker
                    (visible (search (page s)) (allMarkers (store s))))) s1
       else s1
     else withCreation flipCreationMode s).
Proof.
  unfold toggleCreationMode. unfold bind at 1, modify at 1.
  unfold bind at 1, gets at 1.
  destruct (creationMode (creation s)) eqn:Hmode.
  - assert (Hm : creationMode (creation (withCreation flipCreationMode s))
                 = false).
    { cbn. now rewrite Hmode. }
    rewrite Hm. unfold bind at 1, modify at 1. unfold bind at 1, gets at 1.
    cbv zeta.
    change (search (page (withCreation dropTempMarker
                            (withCreation flipCreationMode s))))
      with (search (page s)).
    destruct (Js.truthy (search (page s))); [| reflexivity].
    now rewrite filterMarkers_run.
  - assert (Hm : creationMode (creation (withCreation flipCreationMode s))
                 = true).
    { cbn. now rewrite Hmode. }
    rewrite Hm. reflexivity.
Qed.

Lemma preserves_modify_frame (I : State -> Prop) (f : State -> State) :
  (forall s, I s -> I (f s)) -> preserves I (modify f).
Proof. intros H s Hs. exact (H s Hs). Qed.

Section Frame.

Variable E : Env.
Variable I : State -> Prop.
Hypothesis I_framed : framed I.

Lemma framed_run {A} (m : M A) :
  (forall s,
     creation (snd (m s)) = creation s /\ editing (snd (m s)) = editing s /\
     currentUser (page (snd (m s))) = currentUser (page s) /\
     search (page (snd (m s))) = search (page s)) ->
  preserves I m.
Proof.
  intros H s Hs. destruct (H s) as (Hc & He & Hu & Hq).
  exact (I_framed s _ Hc He Hu Hq Hs).
Qed.

Lemma framed_request {A} (r : Request) (answer : nat -> option A) :
  preserves I (request r answer).
Proof.
  apply framed_run. intros s. unfold request.
  destruct (answer (clock (page s))); split_and!; reflexivity.
Qed.

Lemma framed_command (r : Request) (answer : nat -> bool) :
  preserves I (command r answer).
Proof. apply framed_request. Qed.

Lemma framed_showMessage (text : string) (type : MessageType) :
  preserves I (showMessage text type).
Proof. apply framed_run. intros s. split_and!; reflexivity. Qed.

Lemma framed_showLoading (show : bool) : preserves I (showLoading show).
Proof. apply framed_run. intros s. split_and!; reflexivity. Qed.

Lemma framed_store (f : Store -> Store) : preserves I (modify (withStore f)).
Proof. apply framed_run. intros s. split_and!; reflexivity. Qed.

Lemma framed_load : preserves I (loadLocationsFromFirestore E).
Proof.
  apply framed_run. intros s.
  destruct (load_events E s) as (s' & ok & events & Hrun & _ & _ & H).
  rewrite Hrun. exact H.
Qed.

Lemma framed_filterMarkers (query : string) :
  preserves I (filterMarkers query).
Proof.
  apply framed_run. intros s. rewrite filterMarkers_run.
  split_and!; reflexivity.
Qed.

Lemma framed_fetchUserProfile (userId : string) :
  preserves I (fetchUserProfile E userId).
Proof.
  apply framed_run. intros s.
  destruct (fetchUserProfile_resolved E userId s)
    as (p & s' & Hrun & Hres & _).
  rewrite Hrun. destruct Hres as (_ & _ & _ & Hc & He & Hu & Hq & _).
  now split_and!.
Qed.

Lemma framed_deleteImageFromStorage (imageUrl : string) :
  preserves I (deleteImageFromStorage E imageUrl).
Proof.
  apply framed_run. intros s. rewrite deleteImageFromStorage_run.
  destruct (storagePathOf imageUrl) as [[path|]|]; split_and!; reflexivity.
Qed.

Lemma framed_uploadImageToStorage (file : File.t) (locationId : string) :
  preserves I (uploadImageToStorage E file locationId).
Proof.
  apply framed_run. intros s. rewrite uploadImageToStorage_run.
  destruct (currentUser (page s)) as [uid|] eqn:Hu;
    [| cbn [snd]; now split_and!].
  cbv zeta. destruct (uploadBytes E _ _ _); [| now split_and!].
  destruct (getDownloadURL E _ _); now split_and!.
Qed.

#[local] Hint Resolve framed_request framed_command framed_showMessage
  framed_showLoading framed_store framed_load framed_filterMarkers
  framed_fetchUserProfile framed_deleteImageFromStorage
  framed_uploadImageToStorage : preserve.

Lemma framed_deleteLocationById (locationId : string) :
  preserves I (deleteLocationById E locationId).
Proof. unfold deleteLocationById. eauto 30 with preserve. Qed.

(** The image stage of a creation. *)
Lemma framed_attach (image : option File.t) (locationId : string) :
  preserves I
    (match image with
     | Some file =>
         tryCatch
           (imageUrl <- uploadImageToStorage E file locationId ;;
            let patch := [("imageUrl", FString imageUrl)] in
            command (UpdateDoc "locations" locationId patch)
              (fun n => updateDoc E n locationId patch))
           (showError "Location created but image upload failed. You can add an image by editing the location.")
     | None => ret tt
     end).
Proof. eauto 30 with preserve. Qed.

(** The image stage of an update. *)
Lemma framed_replace (image : option File.t) (old : option string)
    (locationId : string) :
  preserves I
    (match image with
     | Some file =>
         match nonEmpty old with
         | Some oldUrl => deleteImageFromStorage E oldUrl
         | None => ret tt
         end ;;
         newUrl <- uploadImageToStorage E file locationId ;;
         ret (Some newUrl)
     | None => ret old
     end).
Proof. eauto 30 with preserve. Qed.

End Frame.

Lemma framed_editing (e : Editing) : framed (fun s => editing s = e).
Proof. intros s s' _ He _ _ H. congruence. Qed.

Lemma framed_creation (c : Creation) : framed (fun s => creation s = c).
Proof. intros s s' Hc _ _ _ H. congruence. Qed.

Lemma framed_user (u : option string) :
  framed (fun s => currentUser (page s) = u).
Proof. intros s s' _ _ Hu _ H. congruence. Qed.

(** * Further properties of the handlers *)

(** ** Image selection *)

Lemma isAllowedType_spec (type : string) :
  isAllowedType type = true <-> In type allowedTypes.
Proof.
  unfold isAllowedType. rewrite List.existsb_exists. split.
  - intros (x & Hin & Heq). apply String.eqb_eq in Heq. now subst.
  - intros H. exists type. split; [exact H | apply String.eqb_refl].
Qed.

Lemma validateImageFile_run (file : File.t) (s : State) :
  validateImageFile file s
  = if isAllowedType (File.type file) then
      if maxSize <? File.size file then
        (Return false,
         withPage (logEvent (Message error "File size exceeds 5MB limit. Please choose a smaller image.")) s)
      else (Return true, s)
    else
      (Return false,
       withPage (logEvent (Message error "Invalid file type. Please upload JPG, PNG, GIF, or WebP images.")) s).
Proof.
  unfold validateImageFile.
  destruct (isAllowedType _); cbn [negb]; [destruct (maxSize <? _) |];
    reflexivity.
Qed.

(** The test of [validateImageFile] decides [acceptable]. *)
Lemma acceptable_spec (f : File.t) :
  acceptable f <->
  isAllowedType (File.type f) = true /\ (maxSize <? File.size f) = false.
Proof.
  unfold acceptable. rewrite isAllowedType_spec, Z.ltb_ge.
  change maxSize with 5242880. tauto.
Qed.

(** A rejected file is reported and nothing stays staged. *)
Lemma select_rejected (f : File.t) (s : State) :
  ~ acceptable f ->
  exists text,
    handleNewImageSelect (Some f) s
    = (Return tt,
       withCreation (setSelectedNewImage None)
         (withPage (logEvent (Message error text)) s)) /\
    handleEditImageSelect (Some f) s
    = (Return tt,
       withEditing (setSelectedEditImage None)
         (withPage (logEvent (Message error text)) s)).
Proof.
  intros Hno. rewrite acceptable_spec in Hno.
  unfold handleNewImageSelect, handleEditImageSelect, bind.
  rewrite validateImageFile_run.
  destruct (isAllowedType (File.type f));
    [destruct (maxSize <? File.size f) |].
  - eexists. split; reflexivity.
  - exfalso. apply Hno. now split.
  - eexists. split; reflexivity.
Qed.

Lemma select_accepted (f : File.t) (s : State) :
  acceptable f ->
  handleNewImageSelect (Some f) s
  = (Return tt, withCreation (setSelectedNewImage (Some f)) s) /\
  handleEditImageSelect (Some f) s
  = (Return tt, withEditing (setSelectedEditImage (Some f)) s).
Proof.
  intros Hok. rewrite acceptable_spec in Hok. destruct Hok as [Ht Hs].
  unfold handleNewImageSelect, handleEditImageSelect, bind.
  rewrite validateImageFile_run, Ht, Hs. split; reflexivity.
Qed.

Lemma acceptable_dec (f : File.t) : acceptable f \/ ~ acceptable f.
Proof.
  rewrite acceptable_spec.
  destruct (isAllowedType (File.type f)), (maxSize <? File.size f);
    intuition congruence.
Qed.

(** X1. Whatever file is picked in the file input of the creation modal
    or of the edit modal, the handler returns, issues no request, and the
    image staged afterwards is the picked file exactly when its type is one
    of the five allowed ones and its size is at most 5242880 bytes; in
    every other case (no file, wrong type, too large) nothing is staged,
    also when a file was staged before, and a rejected file is reported by
    one error message. *)
Theorem staged_image_is_acceptable (file : option File.t) (s : State) :
  exists s1 s2,
    handleNewImageSelect file s = (Return tt, s1) /\
    handleEditImageSelect file s = (Return tt, s2) /\
    (forall f, selectedNewImage (creation s1) = Some f <->
               file = Some f /\ acceptable f) /\
    (forall f, selectedEditImage (editing s2) = Some f <->
               file = Some f /\ acceptable f) /\
    clock (page s1) = clock (page s) /\
    clock (page s2) = clock (page s) /\
    (forall f, file = Some f -> ~ acceptable f ->
       selectedNewImage (creation s1) = None /\
       selectedEditImage (editing s2) = None /\
       exists text,
         trace (page s1) = (trace (page s) ++ [Message error text])%list /\
         trace (page s2) = (trace (page s) ++ [Message error text])%list) /\
    (file = None ->
       selectedNewImage (creation s1) = None /\
       selectedEditImage (editing s2) = None /\
       trace (page s1) = trace (page s) /\ trace (page s2) = trace (page s)).
Proof.
  destruct file as [f0|].
  - destruct (acceptable_dec f0) as [Hok | Hno].
    + destruct (select_accepted f0 s Hok) as [H1 H2].
      eexists _, _. split; [exact H1 |]. split; [exact H2 |].
      split_and!; try reflexivity.
      * intros f. cbn. split; [intros [= <-]; now split | now intros [H _]].
      * intros f. cbn. split; [intros [= <-]; now split | now intros [H _]].
      * intros f [= <-] Hno. contradiction.
      * discriminate.
    + destruct (select_rejected f0 s Hno) as (text & H1 & H2).
      eexists _, _. split; [exact H1 |]. split; [exact H2 |].
      split_and!; try reflexivity.
      * intros f. cbn. split; [discriminate |].
        intros [[= <-] Hok]. contradiction.
      * intros f. cbn. split; [discriminate |].
        intros [[= <-] Hok]. contradiction.
      * intros f _ _. split_and!; try reflexivity.
        exists text. split; reflexivity.
      * discriminate.
  - eexists _, _. split; [reflexivity |]. split; [reflexivity |].
    split_and!; try reflexivity.
    + intros f. cbn. split; [discriminate | now intros [[=] _]].
    + intros f. cbn. split; [discriminate | now intros [[=] _]].
    + discriminate.
    + intros _. split_and!; reflexivity.
Qed.

Lemma loaded_no_storage (loaded : list Event) (r : Request) (ok : bool) :
  Forall loadEvent loaded -> In (Requested r ok) loaded -> isStorage r = false.
Proof.
  intros H Hin.
  destruct (loadEvent_cases _ _ H Hin) as [(id & ok' & [= -> _]) | [=]].
  reflexivity.
Qed.

(** A creation without a staged image issues no storage request. *)
Lemma submit_without_image (E : Env) (s : State) :
  selectedNewImage (creation s) = None ->
  exists s' events,
    submitNewLocation E s = (Return tt, s') /\
    trace (page s') = (trace (page s) ++ events)%list /\
    forall r ok, In (Requested r ok) events -> isStorage r = false.
Proof.
  intros Hnone.
  destruct (submitNewLocation_events E s) as (s' & events & Hrun & Htr & Hshape).
  exists s', events. split; [exact Hrun |]. split; [exact Htr |].
  intros r ok Hin.
  destruct (negb (Js.truthy (Js.trim (newTitle (creation s))))).
  { destruct Hshape as [_ ->]. in_cases Hin; discriminate. }
  destruct (currentUser (page s)) as [uid|].
  2:{ subst events. in_cases Hin; discriminate. }
  cbv zeta in Hshape.
  destruct (addDoc E (clock (page s)) (newLocationData uid (creation s)))
    as [id|].
  2:{ subst events. in_cases Hin; [injection Hin as <- _ | discriminate].
      reflexivity. }
  destruct Hshape as (img & okl & loaded & -> & Hev & Himg).
  rewrite Hnone in Himg. subst img. cbn [app] in Hin.
  in_cases Hin.
  - injection Hin as <- _. reflexivity.
  - injection Hin as <- _. reflexivity.
  - exact (loaded_no_storage _ _ _ Hev Hin).
  - discriminate.
Qed.

Lemma writeTail_no_storage (w : Request) (failure done : string)
    (tail : list Event) (r : Request) (ok : bool) :
  isStorage w = false -> writeTail w failure done tail ->
  In (Requested r ok) tail -> isStorage r = false.
Proof.
  intros Hw [-> | (okl & loaded & -> & Hev)] Hin; in_cases Hin.
  - now injection Hin as <- _.
  - discriminate.
  - now injection Hin as <- _.
  - now injection Hin as <- _.
  - exact (loaded_no_storage _ _ _ Hev Hin).
  - discriminate.
Qed.

(** An update without a staged image issues no storage request. *)
Lemma update_without_image (E : Env) (s : State) :
  selectedEditImage (editing s) = None ->
  exists s' events,
    updateLocation E s = (Return tt, s') /\
    trace (page s') = (trace (page s) ++ events)%list /\
    forall r ok, In (Requested r ok) events -> isStorage r = false.
Proof.
  intros Hnone.
  destruct (updateLocation_events E s) as (s' & events & Hrun & Htr & Hshape).
  exists s', events. split; [exact Hrun |]. split; [exact Htr |].
  intros r ok Hin.
  destruct (nonEmpty (editingLocationId (editing s))) as [id|].
  2:{ destruct Hshape as [-> _]. destruct Hin. }
  destruct (negb (Js.truthy (Js.trim (editTitle (editing s))))).
  { subst events. in_cases Hin; discriminate. }
  rewrite Hnone in Hshape. destruct Hshape as (data & Htail).
  apply (writeTail_no_storage _ _ _ _ r ok (eq_refl : isStorage (UpdateDoc "locations" id data) = false) Htail Hin).
Qed.

(** X2. A file that the validation rejects reaches the storage through
    no later save: a creation submitted after the rejected selection, and
    an update saved after it, both return and issue no request to the
    file storage (no upload, no download URL, no deletion), also when an
    acceptable image had been staged before the rejected one. *)
Theorem rejected_image_reaches_no_storage (E : Env) (f : File.t) (s : State) :
  ~ acceptable f ->
  (exists s' events,
     (handleNewImageSelect (Some f) ;; submitNewLocation E) s
     = (Return tt, s') /\
     trace (page s') = (trace (page s) ++ events)%list /\
     forall r ok, In (Requested r ok) events -> isStorage r = false) /\
  (exists s' events,
     (handleEditImageSelect (Some f) ;; updateLocation E) s
     = (Return tt, s') /\
     trace (page s') = (trace (page s) ++ events)%list /\
     forall r ok, In (Requested r ok) events -> isStorage r = false).
Proof.
  intros Hno. destruct (select_rejected f s Hno) as (text & Hnew & Hedit).
  split.
  - unfold bind. rewrite Hnew.
    edestruct (submit_without_image E) as (s' & events & Hrun & Htr & Hev);
      [| exists s', (Message error text :: events); split; [exact Hrun |]].
    + reflexivity.
    + rewrite Htr. unfold_state. rewrite <- app_assoc.
      split; [reflexivity |].
      intros r ok [[=] | Hin]. exact (Hev r ok Hin).
  - unfold bind. rewrite Hedit.
    edestruct (update_without_image E) as (s' & events & Hrun & Htr & Hev);
      [| exists s', (Message error text :: events); split; [exact Hrun |]].
    + reflexivity.
    + rewrite Htr. unfold_state. rewrite <- app_assoc.
      split; [reflexivity |].
      intros r ok [[=] | Hin]. exact (Hev r ok Hin).
Qed.

Lemma rejected_image_reaches_no_storage_witness :
  exists s' events,
    (handleEditImageSelect (Some hugePhoto) ;;
     updateLocation (serving sampleDocs sampleUsers true))
      (editingState (Some photo)) = (Return tt, s') /\
    trace (page s') = events /\
    forall r ok, In (Requested r ok) events -> isStorage r = false.
Proof.
  destruct (rejected_image_reaches_no_storage
              (serving sampleDocs sampleUsers true) hugePhoto
              (editingState (Some photo)))
    as [_ (s' & events & Hrun & Htr & Hev)].
  - unfold acceptable. cbn. lia.
  - exists s', events. split_and!; assumption.
Defined.

(** ** The creation flow *)

Lemma mapClicked_off (lat lon : Js.number) (s : State) :
  creationMode (creation s) = false -> mapClicked lat lon s = (Return tt, s).
Proof. intros H. unfold mapClicked, bind, gets. now rewrite H. Qed.

Lemma mapClicked_on (lat lon : Js.number) (s : State) :
  creationMode (creation s) = true ->
  mapClicked lat lon s = handleMapClick lat lon s.
Proof. intros H. unfold mapClicked, bind, gets. now rewrite H. Qed.

(** Clicks in creation mode move the pin and touch nothing else of the
    form. *)
Lemma clicks_run (clicks : list (Js.number * Js.number)) :
  forall s,
    creationMode (creation s) = true ->
    exists s',
      forEach clicks (fun c => mapClicked (fst c) (snd c)) s = (Return tt, s') /\
      creationMode (creation s') = true /\
      newTitle (creation s') = newTitle (creation s) /\
      newNotes (creation s') = newNotes (creation s) /\
      newAddress (creation s') = newAddress (creation s) /\
      selectedNewImage (creation s') = selectedNewImage (creation s) /\
      (clicks = [] -> creation s' = creation s) /\
      (clicks <> [] -> creationModal (creation s') = true) /\
      page s' = page s /\ store s' = store s /\ editing s' = editing s.
Proof.
  induction clicks as [|[lat lon] l IH]; intros s Hmode.
  - exists s. split_and!; try reflexivity; [assumption | congruence].
  - cbn [forEach fst snd]. unfold bind at 1.
    rewrite (mapClicked_on _ _ _ Hmode). unfold handleMapClick, modify.
    match goal with
    | |- context [forEach l _ ?x] => destruct (IH x Hmode)
        as (s' & Hrun & Hm & Ht & Hn & Ha & Hi & Hnil & Hopen & Hp & Hst & He)
    end.
    exists s'. split; [exact Hrun |].
    split_and!; try assumption; try discriminate.
    intros _. destruct l as [|c l'].
    + rewrite (Hnil eq_refl). reflexivity.
    + apply Hopen. discriminate.
Qed.

(** X3. In creation mode, after any number of clicks on the map, the
    record a submission creates lies at the last click: the first request
    of the submission is the creation of a record whose latitude and
    longitude are those of that click and whose title, notes and address
    are the trimmed fields of the form. *)
Theorem record_created_at_last_click (E : Env)
    (clicks : list (Js.number * Js.number)) (lat lon : Js.number)
    (uid : string) (s : State) :
  creationMode (creation s) = true ->
  Js.trim (newTitle (creation s)) <> EmptyString ->
  currentUser (page s) = Some uid ->
  exists s' ok later,
    (forEach clicks (fun c => mapClicked (fst c) (snd c)) ;;
     mapClicked lat lon ;;
     submitNewLocation E) s = (Return tt, s') /\
    trace (page s')
    = (trace (page s) ++
       Requested
         (AddDoc "locations"
            [ ("userId", FString uid);
              ("latitude", FNumber (Js.Num lat));
              ("longitude", FNumber (Js.Num lon));
              ("title", FString (Js.trim (newTitle (creation s))));
              ("notes", FString (Js.trim (newNotes (creation s))));
              ("address", FString (Js.trim (newAddress (creation s))));
              ("createdAt", FServerTimestamp);
              ("updatedAt", FServerTimestamp) ]) ok :: later)%list.
Proof.
  intros Hmode Htitle Hu.
  destruct (clicks_run clicks s Hmode)
    as (s1 & Hrun1 & Hm1 & Ht1 & Hn1 & Ha1 & _ & _ & _ & Hp1 & _).
  unfold bind at 1. rewrite Hrun1. unfold bind at 1.
  rewrite (mapClicked_on _ _ _ Hm1). unfold handleMapClick, modify.
  match goal with
  | |- context [submitNewLocation E ?x] =>
      destruct (submitNewLocation_events E x)
        as (s' & events & Hrun & Htr & Hshape); set (s2 := x) in *
  end.
  assert (Hform : newLocationData uid (creation s2)
                  = [ ("userId", FString uid);
                      ("latitude", FNumber (Js.Num lat));
                      ("longitude", FNumber (Js.Num lon));
                      ("title", FString (Js.trim (newTitle (creation s))));
                      ("notes", FString (Js.trim (newNotes (creation s))));
                      ("address", FString (Js.trim (newAddress (creation s))));
                      ("createdAt", FServerTimestamp);
                      ("updatedAt", FServerTimestamp) ]).
  { unfold newLocationData. subst s2. cbn. now rewrite Ht1, Hn1, Ha1. }
  assert (Ht2 : negb (Js.truthy (Js.trim (newTitle (creation s2)))) = false).
  { subst s2. cbn. rewrite Ht1. now apply truthy_trim. }
  assert (Hu2 : currentUser (page s2) = Some uid).
  { subst s2. cbn. now rewrite Hp1. }
  assert (Hp2 : trace (page s2) = trace (page s)).
  { subst s2. cbn. now rewrite Hp1. }
  rewrite Ht2, Hu2 in Hshape. cbv zeta in Hshape. rewrite Hform in Hshape.
  rewrite Hp2 in Htr. exists s'.
  destruct (addDoc E (clock (page s2)) _) as [id|].
  - destruct Hshape as (img & okl & loaded & -> & _).
    exists true. eexists. split; [exact Hrun |]. exact Htr.
  - subst events. exists false. eexists. split; [exact Hrun |]. exact Htr.
Qed.

Lemma record_created_at_last_click_witness :
  exists s' ok later,
    (forEach [(Js.Finite 1 0, Js.Finite 2 0)]
       (fun c => mapClicked (fst c) (snd c)) ;;
     mapClicked (Js.Finite 3 0) (Js.Finite 4 0) ;;
     submitNewLocation offline) (creatingState "Park" None) = (Return tt, s') /\
    trace (page s')
    = Requested
        (AddDoc "locations"
           [ ("userId", FString "u1");
             ("latitude", FNumber (Js.Num (Js.Finite 3 0)));
             ("longitude", FNumber (Js.Num (Js.Finite 4 0)));
             ("title", FString "Park");
             ("notes", FString "benches");
             ("address", FString EmptyString);
             ("createdAt", FServerTimestamp);
             ("updatedAt", FServerTimestamp) ]) ok :: later.
Proof.
  destruct (record_created_at_last_click offline
              [(Js.Finite 1 0, Js.Finite 2 0)] (Js.Finite 3 0) (Js.Finite 4 0)
              "u1" (creatingState "Park" None))
    as (s' & ok & later & Hrun & Htr).
  - reflexivity.
  - discriminate.
  - reflexivity.
  - exists s', ok, later. split; [exact Hrun | exact Htr].
Defined.

Lemma clicks_off (clicks : list (Js.number * Js.number)) (s : State) :
  creationMode (creation s) = false ->
  forEach clicks (fun c => mapClicked (fst c) (snd c)) s = (Return tt, s).
Proof.
  intros Hmode. induction clicks as [|c l IH]; [reflexivity |].
  cbn [forEach]. unfold bind. now rewrite (mapClicked_off _ _ _ Hmode).
Qed.

(** X4. Outside creation mode clicks on the map do nothing.  Entering
    creation mode, clicking any number of times and leaving it again
    leaves no pin on the map and creation mode off; the history, the
    clock, the edit form and the loaded markers are as before, and the
    layers are filtered again by the search box when it is not empty.  The
    creation modal a click opened stays open. *)
Theorem leaving_creation_mode_removes_pin
    (clicks : list (Js.number * Js.number)) (s : State) :
  creationMode (creation s) = false ->
  forEach clicks (fun c => mapClicked (fst c) (snd c)) s = (Return tt, s) /\
  exists s',
    (toggleCreationMode ;;
     forEach clicks (fun c => mapClicked (fst c) (snd c)) ;;
     toggleCreationMode) s = (Return tt, s') /\
    creationMode (creation s') = false /\
    tempMarker (creation s') = None /\
    page s' = page s /\ editing s' = editing s /\
    allMarkers (store s') = allMarkers (store s) /\
    markers (store s')
    = (if Js.truthy (search (page s))
       then map MarkerObj.marker
              (visible (search (page s)) (allMarkers (store s)))
       else markers (store s)) /\
    (clicks <> [] -> creationModal (creation s') = true).
Proof.
  intros Hmode. split; [now apply clicks_off |].
  unfold bind at 1. rewrite toggleCreationMode_state, Hmode.
  assert (Hon : creationMode (creation (withCreation flipCreationMode s))
                = true).
  { cbn. now rewrite Hmode. }
  destruct (clicks_run clicks _ Hon)
    as (s1 & Hrun1 & Hm1 & _ & _ & _ & _ & _ & Hopen & Hp1 & Hst1 & He1).
  unfold bind at 1. rewrite Hrun1, toggleCreationMode_state, Hm1.
  cbv zeta. rewrite Hp1, Hst1. cbn [page store withCreation].
  eexists. split; [reflexivity |].
  destruct (Js.truthy (search (page s))); cbn; rewrite ?Hm1, ?Hp1, ?Hst1, ?He1;
    split_and!; try reflexivity; exact Hopen.
Qed.

Lemma leaving_creation_mode_removes_pin_witness :
  exists s',
    (toggleCreationMode ;;
     forEach [(Js.Finite 1 0, Js.Finite 2 0)]
       (fun c => mapClicked (fst c) (snd c)) ;;
     toggleCreationMode) shownState = (Return tt, s') /\
    creationMode (creation s') = false /\
    tempMarker (creation s') = None /\
    creationModal (creation s') = true.
Proof.
  destruct (leaving_creation_mode_removes_pin
              [(Js.Finite 1 0, Js.Finite 2 0)] shownState eq_refl)
    as (_ & s' & Hrun & Hmode & Hpin & _ & _ & _ & _ & Hopen).
  exists s'. split_and!; try assumption. apply Hopen. discriminate.
Defined.

(** X5. Cancelling the creation modal and then submitting creates
    nothing: the only effect of the submission is the message that a
    title is required.  No request is issued, the pin is gone, the staged
    image is dropped and the modal closed; creation mode stays as it
    was. *)
Theorem cancelled_creation_creates_nothing (E : Env) (s : State) :
  exists s',
    (cancelNewLocation ;; submitNewLocation E) s = (Return tt, s') /\
    trace (page s')
    = (trace (page s) ++ [Message error "Title is required!"])%list /\
    clock (page s') = clock (page s) /\
    tempMarker (creation s') = None /\
    selectedNewImage (creation s') = None /\
    creationModal (creation s') = false /\
    creationMode (creation s') = creationMode (creation s) /\
    store s' = store s /\ editing s' = editing s.
Proof.
  exists (withPage (logEvent (Message error "Title is required!"))
            (withCreation clearCreationForm (withCreation dropTempMarker s))).
  split_and!; reflexivity.
Qed.

Lemma toggle_creation (s : State) :
  exists s',
    toggleCreationMode s = (Return tt, s') /\
    creation s'
    = (if creationMode (creation s)
       then dropTempMarker (flipCreationMode (creation s))
       else flipCreationMode (creation s)) /\
    editing s' = editing s /\ page s' = page s.
Proof.
  rewrite toggleCreationMode_state. eexists. split; [reflexivity |].
  destruct (creationMode (creation s)); cbv zeta;
    [destruct (Js.truthy (search (page s))) |]; split_and!; reflexivity.
Qed.

(** The end of a creation: what is left of the form. *)
Lemma finish_creation_state (E : Env) (s : State) :
  exists s',
    (modify (withCreation clearCreationForm) ;;
     modify (withCreation dropTempMarker) ;;
     toggleCreationMode ;;
     loadLocationsFromFirestore E ;;
     showSuccess "Location added successfully!") s = (Return tt, s') /\
    creation s'
    = (let c := dropTempMarker (clearCreationForm (creation s)) in
       if creationMode c then dropTempMarker (flipCreationMode c)
       else flipCreationMode c) /\
    editing s' = editing s /\
    currentUser (page s') = currentUser (page s).
Proof.
  unfold bind at 1, modify at 1. unfold bind at 1, modify at 1.
  match goal with
  | |- context [bind toggleCreationMode _ ?x] =>
      destruct (toggle_creation x) as (s2 & Hrun2 & Hc2 & He2 & Hp2)
  end.
  unfold bind at 1. rewrite Hrun2.
  destruct (load_events E s2) as (s3 & ok & events & Hrun3 & _ & _ & Hc3 & He3 & Hu3 & _).
  unfold bind at 1. rewrite Hrun3.
  eexists. split; [reflexivity |].
  cbn [creation editing page currentUser showSuccess showMessage modify snd
       withPage logEvent].
  rewrite Hc3, He3, Hu3, Hc2, He2, Hp2. split_and!; reflexivity.
Qed.

(** X6. A submission whose record is created resets the creation flow,
    whether or not an image was staged and whether or not its upload
    succeeded: title, notes and address are emptied, no image stays
    staged, the pin is removed, the modal closed and creation mode
    flipped; the edit form is untouched and the overlay hidden.  A second
    submission right after it therefore creates nothing: it only reports
    that a title is required. *)
Theorem created_form_is_reset (E : Env) (uid id : string) (s : State) :
  Js.trim (newTitle (creation s)) <> EmptyString ->
  currentUser (page s) = Some uid ->
  addDoc E (clock (page s)) (newLocationData uid (creation s)) = Some id ->
  exists s',
    submitNewLocation E s = (Return tt, s') /\
    newTitle (creation s') = EmptyString /\
    newNotes (creation s') = EmptyString /\
    newAddress (creation s') = EmptyString /\
    selectedNewImage (creation s') = None /\
    tempMarker (creation s') = None /\
    creationModal (creation s') = false /\
    creationMode (creation s') = negb (creationMode (creation s)) /\
    editing s' = editing s /\
    loading (page s') = false /\
    submitNewLocation E s'
    = (Return tt, withPage (logEvent (Message error "Title is required!")) s').
Proof.
  intros Htitle Hu Hadd.
  unfold submitNewLocation at 1. unfold bind at 1, gets at 1.
  rewrite (truthy_trim _ Htitle).
  unfold bind at 1, showLoading at 1, modify at 1.
  set (s0 := withPage (setLoading true) s).
  set (s1 := withPage
               (logRequest
                  (AddDoc "locations" (newLocationData uid (creation s))) true)
               s0).
  pose (attach :=
    match selectedNewImage (creation s) with
    | Some file =>
        tryCatch
          (imageUrl <- uploadImageToStorage E file id ;;
           let patch := [("imageUrl", FString imageUrl)] in
           command (UpdateDoc "locations" id patch)
             (fun n => updateDoc E n id patch))
          (showError "Location created but image upload failed. You can add an image by editing the location.")
    | None => ret tt
    end).
  assert (Himg : exists s2,
    attach s1 = (Return tt, s2) /\ creation s2 = creation s /\
    editing s2 = editing s /\ currentUser (page s2) = Some uid).
  { pose proof (framed_attach E _ (framed_creation (creation s))
                  (selectedNewImage (creation s)) id s1 eq_refl) as Hc.
    pose proof (framed_attach E _ (framed_editing (editing s))
                  (selectedNewImage (creation s)) id s1 eq_refl) as He.
    pose proof (framed_attach E _ (framed_user (Some uid))
                  (selectedNewImage (creation s)) id s1 Hu) as Hus.
    fold attach in Hc, He, Hus. subst attach.
    destruct (selectedNewImage (creation s)) as [file|].
    - destruct (attach_image_run E file id uid s1 Hu) as (s2 & img & Hrun & _).
      cbv beta in Hc, He, Hus. rewrite Hrun in Hc, He, Hus.
      exists s2. now split_and!.
    - exists s1. now split_and!. }
  destruct Himg as (s2 & Hrun2 & Hc2 & He2 & Hu2).
  destruct (finish_creation_state E s2) as (s3 & Hrun3 & Hc3 & He3 & _).
  body_runs (Return tt) s3 Hbody.
  { unfold bind at 1, gets at 1.
    change (currentUser (page s0)) with (currentUser (page s)).
    rewrite Hu. unfold bind at 1, request at 1.
    change (clock (page s0)) with (clock (page s)).
    fold (newLocationData uid (creation s)).
    rewrite Hadd. cbv beta iota. fold s1.
    unfold bind at 1. fold attach. rewrite Hrun2. exact Hrun3. }
  pose proof (guarded_state _ "Failed to add location. Please try again."
                _ _ _ Hbody) as Hfin.
  eexists. split; [exact Hfin |].
  assert (Hform : newTitle (creation s3) = EmptyString /\
                  newNotes (creation s3) = EmptyString /\
                  newAddress (creation s3) = EmptyString /\
                  selectedNewImage (creation s3) = None /\
                  tempMarker (creation s3) = None /\
                  creationModal (creation s3) = false /\
                  creationMode (creation s3) = negb (creationMode (creation s))).
  { rewrite Hc3, Hc2.
    destruct (creation s) as [[] ? ? ? ? ? ? ? ?]; split_and!; reflexivity. }
  destruct Hform as (H1 & H2 & H3 & H4 & H5 & H6 & H7).
  cbn [creation editing page loading withPage setLoading].
  split_and!; try assumption; try congruence; try reflexivity.
  unfold submitNewLocation. unfold bind at 1, gets at 1.
  cbn [creation withPage]. rewrite H1. reflexivity.
Qed.

Lemma created_form_is_reset_witness :
  exists s',
    submitNewLocation (serving sampleDocs sampleUsers false)
      (creatingState "Park" (Some photo)) = (Return tt, s') /\
    newTitle (creation s') = EmptyString /\
    selectedNewImage (creation s') = None /\
    creationMode (creation s') = false.
Proof.
  destruct (created_form_is_reset (serving sampleDocs sampleUsers false)
              "u1" "loc9" (creatingState "Park" (Some photo)))
    as (s' & Hrun & Ht & _ & _ & Hi & _ & _ & Hm & _).
  - discriminate.
  - reflexivity.
  - reflexivity.
  - exists s'. now split_and!.
Defined.

(** X7. A submission whose record cannot be created (the request is
    rejected) keeps the creation flow as it was, so that it can be
    submitted again with the same data: the form, the staged image, the
    pin and creation mode are unchanged, as are the markers and the edit
    form; the failure is reported and the overlay hidden. *)
Theorem failed_creation_keeps_form (E : Env) (uid : string) (s : State) :
  Js.trim (newTitle (creation s)) <> EmptyString ->
  currentUser (page s) = Some uid ->
  addDoc E (clock (page s)) (newLocationData uid (creation s)) = None ->
  exists s',
    submitNewLocation E s = (Return tt, s') /\
    creation s' = creation s /\ editing s' = editing s /\
    store s' = store s /\
    loading (page s') = false /\
    trace (page s')
    = (trace (page s) ++
       [ Requested (AddDoc "locations" (newLocationData uid (creation s))) false;
         Message error "Failed to add location. Please try again." ])%list.
Proof.
  intros Htitle Hu Hadd.
  unfold submitNewLocation. unfold bind at 1, gets at 1.
  rewrite (truthy_trim _ Htitle).
  unfold bind at 1, showLoading at 1, modify at 1.
  set (s0 := withPage (setLoading true) s).
  body_runs (@Throw unit)
    (withPage
       (logRequest (AddDoc "locations" (newLocationData uid (creation s))) false)
       s0) Hbody.
  { unfold bind at 1, gets at 1.
    change (currentUser (page s0)) with (currentUser (page s)).
    rewrite Hu. unfold bind at 1, request at 1.
    change (clock (page s0)) with (clock (page s)).
    fold (newLocationData uid (creation s)).
    rewrite Hadd. reflexivity. }
  pose proof (guarded_state _ "Failed to add location. Please try again."
                _ _ _ Hbody) as Hfin.
  eexists. split; [exact Hfin |]. unfold_state. cbn.
  rewrite <- app_assoc. split_and!; reflexivity.
Qed.

Lemma failed_creation_keeps_form_witness :
  exists s',
    submitNewLocation offline (creatingState "Park" (Some photo))
    = (Return tt, s') /\
    creation s' = creation (creatingState "Park" (Some photo)).
Proof.
  destruct (failed_creation_keeps_form offline "u1"
              (creatingState "Park" (Some photo)))
    as (s' & Hrun & Hc & _).
  - discriminate.
  - reflexivity.
  - reflexivity.
  - exists s'. now split.
Defined.

(** ** The edit flow *)

Lemma editLocation_run (E : Env) (locationId : string) (s : State) :
  editLocation E locationId s
  = (Return tt,
     match getLocation E (clock (page s)) locationId with
     | Some (Some data) =>
         withEditing (fun _ => editFormOf locationId data)
           (withPage (logRequest (GetDoc "locations" locationId) true) s)
     | Some None =>
         withPage (logRequest (GetDoc "locations" locationId) true) s
     | None =>
         withPage (logEvent (Message error "Failed to load location details."))
           (withPage (logRequest (GetDoc "locations" locationId) false) s)
     end).
Proof.
  unfold editLocation, tryCatch, bind, request.
  destruct (getLocation E (clock (page s)) locationId) as [[data|]|];
    reflexivity.
Qed.

Lemma finally_loading_off {A} (m : M A) (s : State) :
  loading (page (snd (finally m (showLoading false) s))) = false.
Proof. unfold finally. destruct (m s) as [[a|] s']; reflexivity. Qed.

(** An update that keeps the image of the record: the data written, and
    the state it ends in. *)
Lemma updateLocation_plain (E : Env) (id : string) (s : State) :
  nonEmpty (editingLocationId (editing s)) = Some id ->
  Js.trim (editTitle (editing s)) <> EmptyString ->
  selectedEditImage (editing s) = None ->
  let data := updateData (editing s) (currentLocationImageUrl (editing s)) in
  let w := UpdateDoc "locations" id data in
  exists s',
    updateLocation E s = (Return tt, s') /\
    loading (page s') = false /\
    creation s' = creation s /\
    if updateDoc E (clock (page s)) id data then
      editing s' = closeEdit (editing s) /\
      exists ok loaded,
        trace (page s')
        = (trace (page s) ++ Requested w true :: Requested GetDocs ok ::
           loaded ++ [Message success "Location updated successfully!"])%list /\
        Forall loadEvent loaded /\
        (getDocs E (S (clock (page s))) = None ->
         ok = false /\
         loaded = [Message error "Failed to load locations. Please refresh the page."] /\
         markers (store s') = [] /\
         allMarkers (store s') = allMarkers (store s))
    else
      editing s' = editing s /\ store s' = store s /\
      trace (page s')
      = (trace (page s) ++
         [ Requested w false;
           Message error "Failed to update location. Please try again." ])%list.
Proof.
  intros Hid Htitle Hnone data w.
  unfold updateLocation. unfold bind at 1, gets at 1. rewrite Hid.
  rewrite (truthy_trim _ Htitle).
  unfold bind at 1, showLoading at 1, modify at 1.
  set (s0 := withPage (setLoading true) s). rewrite Hnone.
  destruct (updateDoc E (clock (page s)) id data) eqn:Hupd.
  - set (s2 := withEditing closeEdit (withPage (logRequest w true) s0)).
    destruct (load_events E s2)
      as (s3 & ok & loaded & Hrun3 & Htr3 & Hev & Hc3 & He3 & _).
    body_runs (Return tt)
      (withPage (logEvent (Message success "Location updated successfully!")) s3)
      Hbody.
    { unfold bind at 1, ret at 1. cbv zeta. fold (updateData (editing s) (currentLocationImageUrl (editing s))).
      fold data. fold w.
      unfold bind at 1, command, request.
      change (clock (page s0)) with (clock (page s)). rewrite Hupd.
      unfold bind at 1, modify at 1. fold s2.
      unfold bind at 1. rewrite Hrun3. reflexivity. }
    pose proof (guarded_state _ "Failed to update location. Please try again."
                  _ _ _ Hbody) as Hfin.
    eexists. split; [exact Hfin |].
    cbn [creation editing page loading trace store withPage setLoading logEvent].
    rewrite Hc3, He3, Htr3. split_and!; try reflexivity.
    exists ok, loaded. split_and!.
    + subst s2 s0. unfold_state. now rewrite <- !app_assoc.
    + exact Hev.
    + intros Hdocs.
      assert (Hfail : loadLocationsFromFirestore E s2 = (Return tt, failedState s2)).
      { apply load_failure. exact Hdocs. }
      rewrite Hfail in Hrun3. injection Hrun3 as <-.
      unfold failedState in Htr3. unfold_state. cbn in Htr3.
      rewrite <- !app_assoc in Htr3. apply app_inv_head in Htr3.
      injection Htr3 as <- <-. split_and!; reflexivity.
  - body_runs (@Throw unit) (withPage (logRequest w false) s0) Hbody.
    { unfold bind at 1, ret at 1. cbv zeta. fold (updateData (editing s) (currentLocationImageUrl (editing s))).
      fold data. fold w.
      unfold bind at 1, command, request.
      change (clock (page s0)) with (clock (page s)). rewrite Hupd.
      reflexivity. }
    pose proof (guarded_state _ "Failed to update location. Please try again."
                  _ _ _ Hbody) as Hfin.
    eexists. split; [exact Hfin |].
    subst s0. unfold_state. cbn. rewrite <- !app_assoc.
    split_and!; reflexivity.
Qed.

(** X8. Opening the edit modal on a record and saving it unchanged
    writes the record's own fields back, trimmed, and touches no image:
    after the lookup the next request is the update of that record, its
    data carry [imageUrl] only when the record has a non-empty one (the
    same URL, never [null]), and no request of the two handlers goes to
    the file storage, also when an image was staged in the edit form
    before the modal was opened. *)
Theorem edit_then_save_keeps_image (E : Env) (id : string) (data : Doc.t)
    (s : State) :
  getLocation E (clock (page s)) id = Some (Some data) ->
  id <> EmptyString ->
  Js.trim (Js.orElse (Doc.title data) EmptyString) <> EmptyString ->
  let patch :=
    ([ ("title", FString (Js.trim (Js.orElse (Doc.title data) EmptyString)));
       ("notes", FString (Js.trim (Js.orElse (Doc.notes data) EmptyString)));
       ("address", FString (Js.trim (Js.orElse (Doc.address data) EmptyString)));
       ("updatedAt", FServerTimestamp) ] ++
     match nonEmpty (Doc.imageUrl data) with
     | Some url => [("imageUrl", FString url)]
     | None => []
     end)%list in
  exists s' tail,
    (editLocation E id ;; updateLocation E) s = (Return tt, s') /\
    trace (page s')
    = (trace (page s) ++
       Requested (GetDoc "locations" id) true ::
       Requested (UpdateDoc "locations" id patch)
         (updateDoc E (S (clock (page s))) id patch) :: tail)%list /\
    (forall r ok, In (Requested r ok) tail -> isStorage r = false) /\
    (updateDoc E (S (clock (page s))) id patch = true ->
     editingLocationId (editing s') = None /\ editModal (editing s') = false).
Proof.
  intros Hdoc Hid Htitle patch.
  unfold bind. rewrite editLocation_run, Hdoc.
  set (s1 := withEditing _ _).
  assert (Hpatch : updateData (editing s1) (currentLocationImageUrl (editing s1))
                   = patch).
  { subst s1 patch. unfold updateData. cbn.
    destruct (Doc.imageUrl data) as [url|]; [| reflexivity].
    cbn. destruct (Js.truthy url) eqn:Hurl; cbn; rewrite ?Hurl; reflexivity. }
  destruct (updateLocation_plain E id s1) as (s' & Hrun & _ & _ & Hcase).
  { subst s1. cbn. now apply nonEmpty_truthy. }
  { subst s1. exact Htitle. }
  { reflexivity. }
  cbv zeta in Hcase. rewrite Hpatch in Hcase.
  change (clock (page s1)) with (S (clock (page s))) in Hcase.
  change (trace (page s1))
    with (trace (page s) ++ [Requested (GetDoc "locations" id) true])%list
    in Hcase.
  exists s'.
  destruct (updateDoc E (S (clock (page s))) id patch).
  - destruct Hcase as (Hed & ok & loaded & Htr & Hev & _).
    eexists. split; [exact Hrun |]. rewrite Htr, <- app_assoc.
    split; [reflexivity |]. split.
    + intros r okr Hin. in_cases Hin.
      * now injection Hin as <- _.
      * exact (loaded_no_storage _ _ _ Hev Hin).
      * discriminate.
    + intros _. rewrite Hed. split; reflexivity.
  - destruct Hcase as (_ & _ & Htr).
    eexists. split; [exact Hrun |]. rewrite Htr, <- app_assoc.
    split; [reflexivity |]. split; [| discriminate].
    intros r okr Hin. in_cases Hin. discriminate.
Qed.

Lemma edit_then_save_keeps_image_witness :
  exists s' tail,
    (editLocation (backend true true true) "loc1" ;;
     updateLocation (backend true true true)) (editingState (Some photo))
    = (Return tt, s') /\
    trace (page s')
    = Requested (GetDoc "locations" "loc1") true ::
      Requested
        (UpdateDoc "locations" "loc1"
           [ ("title", FString "Cafe"); ("notes", FString EmptyString);
             ("address", FString EmptyString); ("updatedAt", FServerTimestamp);
             ("imageUrl", FString oldImage) ]) true :: tail.
Proof.
  destruct (edit_then_save_keeps_image (backend true true true) "loc1"
              cafeRecord (editingState (Some photo)))
    as (s' & tail & Hrun & Htr & _).
  - reflexivity.
  - discriminate.
  - discriminate.
  - exists s', tail. split; [exact Hrun | exact Htr].
Defined.

(** X9. A saved update whose reload fails is still reported as a
    success: when the write of the record is fulfilled and the fetch of
    all records that follows is rejected, the handler shows the load
    failure and then the success message, closes the edit modal, and
    leaves the map without any marker while the markers in memory are the
    ones of before the update. *)
Theorem saved_update_with_failed_reload (E : Env) (id : string) (s : State) :
  nonEmpty (editingLocationId (editing s)) = Some id ->
  Js.trim (editTitle (editing s)) <> EmptyString ->
  selectedEditImage (editing s) = None ->
  let data := updateData (editing s) (currentLocationImageUrl (editing s)) in
  updateDoc E (clock (page s)) id data = true ->
  getDocs E (S (clock (page s))) = None ->
  exists s',
    updateLocation E s = (Return tt, s') /\
    trace (page s')
    = (trace (page s) ++
       [ Requested (UpdateDoc "locations" id data) true;
         Requested GetDocs false;
         Message error "Failed to load locations. Please refresh the page.";
         Message success "Location updated successfully!" ])%list /\
    markers (store s') = [] /\
    allMarkers (store s') = allMarkers (store s) /\
    editingLocationId (editing s') = None /\
    loading (page s') = false.
Proof.
  intros Hid Htitle Hnone data Hupd Hdocs.
  destruct (updateLocation_plain E id s Hid Htitle Hnone)
    as (s' & Hrun & Hload & _ & Hcase).
  cbv zeta in Hcase. fold data in Hcase. rewrite Hupd in Hcase.
  destruct Hcase as (Hed & ok & loaded & Htr & _ & Hfail).
  destruct (Hfail Hdocs) as (-> & -> & Hm & Ha).
  exists s'. rewrite Hed. split_and!; try assumption; reflexivity.
Qed.

Lemma saved_update_with_failed_reload_witness :
  exists s',
    updateLocation (backend true false true) (editingState None)
    = (Return tt, s') /\
    markers (store s') = [] /\
    allMarkers (store s') = [pin] /\
    In (Message success "Location updated successfully!") (trace (page s')).
Proof.
  destruct (saved_update_with_failed_reload (backend true false true) "loc1"
              (editingState None))
    as (s' & Hrun & Htr & Hm & Ha & _).
  - reflexivity.
  - discriminate.
  - reflexivity.
  - reflexivity.
  - reflexivity.
  - exists s'. split_and!; try assumption.
    rewrite Htr. cbn. auto 10.
Defined.

(** X10. Once the edit modal is cancelled its buttons do nothing:
    whatever the state, after [cancelEdit] no record is targeted and no
    image staged, and an update, a deletion from the modal and an image
    removal each return at once, leaving the state, and so the history
    and the clock, exactly as they are. *)
Theorem cancelled_edit_is_disarmed (E : Env) (s : State) :
  exists s1,
    cancelEdit s = (Return tt, s1) /\
    editingLocationId (editing s1) = None /\
    selectedEditImage (editing s1) = None /\
    currentLocationImageUrl (editing s1) = None /\
    updateLocation E s1 = (Return tt, s1) /\
    deleteLocation E s1 = (Return tt, s1) /\
    handleRemoveImage E s1 = (Return tt, s1).
Proof.
  exists (withEditing closeEdit s). split_and!; reflexivity.
Qed.

(** X11. A declined confirmation stops a deletion and an image removal
    before anything happens: when the user answers the dialog with no,
    the popup's delete button, the modal's delete button and the remove
    image button each return with the state unchanged. *)
Theorem declined_confirmation_changes_nothing (E : Env) (locationId : string)
    (s : State) :
  (forall text, confirm E (clock (page s)) text = false) ->
  confirmDeleteLocation E locationId s = (Return tt, s) /\
  deleteLocation E s = (Return tt, s) /\
  handleRemoveImage E s = (Return tt, s).
Proof.
  intros Hno. split_and!.
  - unfold confirmDeleteLocation, askConfirm, bind, gets. now rewrite Hno.
  - unfold deleteLocation, askConfirm. unfold bind at 1, gets at 1.
    destruct (nonEmpty (editingLocationId (editing s))); [| reflexivity].
    unfold bind, gets. now rewrite Hno.
  - unfold handleRemoveImage, askConfirm. unfold bind at 1, gets at 1.
    destruct (nonEmpty (currentLocationImageUrl (editing s))); [| reflexivity].
    destruct (nonEmpty (editingLocationId (editing s))); [| reflexivity].
    unfold bind, gets. now rewrite Hno.
Qed.

Lemma declined_confirmation_changes_nothing_witness :
  deleteLocation (backend true true false) (editingState None)
  = (Return tt, editingState None) /\
  handleRemoveImage (backend true true false) (editingState None)
  = (Return tt, editingState None).
Proof.
  destruct (declined_confirmation_changes_nothing (backend true true false)
              "loc1" (editingState None) (fun _ => eq_refl))
    as (_ & H1 & H2).
  split; assumption.
Defined.

Lemma deleteEvents_length (E : Env) (n : nat) (old : option string) :
  (length (deleteEvents E n old) <= 1)%nat.
Proof.
  unfold deleteEvents. destruct (nonEmpty old) as [url|]; [| cbn; lia].
  destruct (storagePathOf url) as [[path|]|]; cbn; lia.
Qed.

(** A deletion returns with the overlay hidden and the forms untouched. *)
Lemma deleteLocationById_state (E : Env) (locationId : string) (s : State) :
  exists s',
    deleteLocationById E locationId s = (Return tt, s') /\
    loading (page s') = false /\
    creation s' = creation s /\ editing s' = editing s.
Proof.
  destruct (deleteLocationById_events E locationId s)
    as (s' & events & Hrun & _).
  exists s'. split; [exact Hrun |]. split_and!.
  - pose proof (finally_loading_off
                  (tryCatch
                     (locationDoc <- request (GetDoc "locations" locationId)
                                       (fun n => getLocation E n locationId) ;;
                      match locationDoc with
                      | Some data =>
                          match nonEmpty (Doc.imageUrl data) with
                          | Some url => deleteImageFromStorage E url
                          | None => ret tt
                          end
                      | None => ret tt
                      end ;;
                      command (DeleteDoc "locations" locationId)
                        (fun n => deleteDoc E n locationId) ;;
                      loadLocationsFromFirestore E ;;
                      showSuccess "Location deleted successfully!")
                     (showError "Failed to delete location. Please try again."))
                  (withPage (setLoading true) s)) as Hoff.
    unfold deleteLocationById in Hrun. unfold bind at 1 in Hrun.
    unfold showLoading at 1, modify at 1 in Hrun.
    rewrite Hrun in Hoff. exact Hoff.
  - pose proof (framed_deleteLocationById E _ (framed_creation (creation s))
                  locationId s eq_refl) as H.
    cbv beta in H. now rewrite Hrun in H.
  - pose proof (framed_deleteLocationById E _ (framed_editing (editing s))
                  locationId s eq_refl) as H.
    cbv beta in H. now rewrite Hrun in H.
Qed.

(** X12. A deletion first looks the record up.  If the lookup is
    rejected, nothing is deleted and the failure is reported.  Otherwise
    the image of the record, if it has one that names a storage path, is
    deleted first (one request at most) and then, whether or not that
    request was fulfilled and whether or not the record exists, the
    deletion of the record is requested.  The handler always returns with
    the overlay hidden and both forms untouched. *)
Theorem record_deleted_after_image (E : Env) (locationId : string)
    (s : State) :
  exists s' events,
    deleteLocationById E locationId s = (Return tt, s') /\
    trace (page s') = (trace (page s) ++ events)%list /\
    loading (page s') = false /\
    creation s' = creation s /\ editing s' = editing s /\
    match getLocation E (clock (page s)) locationId with
    | None =>
        events
        = [ Requested (GetDoc "locations" locationId) false;
            Message error "Failed to delete location. Please try again." ]
    | Some locationDoc =>
        let del :=
          deleteEvents E (S (clock (page s)))
            (match locationDoc with
             | Some data => Doc.imageUrl data
             | None => None
             end) in
        (length del <= 1)%nat /\
        (forall e, In e del -> exists path ok, e = Requested (DeleteObject path) ok) /\
        exists ok tail,
          events
          = (Requested (GetDoc "locations" locationId) true :: del ++
             Requested (DeleteDoc "locations" locationId) ok :: tail)%list /\
          (ok = false ->
           tail = [Message error "Failed to delete location. Please try again."])
    end.
Proof.
  destruct (deleteLocationById_events E locationId s)
    as (s' & events & Hrun & Htr & Hshape).
  destruct (deleteLocationById_state E locationId s)
    as (s1 & Hrun1 & Hoff & Hc & He).
  rewrite Hrun in Hrun1. injection Hrun1 as <-.
  exists s', events. split; [exact Hrun |]. split; [exact Htr |].
  split; [exact Hoff |]. split; [exact Hc |]. split; [exact He |].
  destruct (getLocation E (clock (page s)) locationId) as [locationDoc|];
    [| exact Hshape].
  cbv zeta in Hshape |- *. destruct Hshape as (tail & -> & Htail).
  split; [apply deleteEvents_length |].
  split; [intros e Hin; exact (deleteEvents_cases _ _ _ _ Hin) |].
  destruct Htail as [-> | (ok & loaded & -> & _)].
  - exists false. eexists. split; [reflexivity |]. reflexivity.
  - exists true. eexists. split; [reflexivity |]. discriminate.
Qed.

(** X13. After a confirmed deletion from the edit modal the modal no
    longer targets the record, whether the deletion succeeded or failed:
    the target is cleared and the modal closed, while the staged image and
    the image URL of the form are kept; an update requested afterwards
    returns at once and changes nothing. *)
Theorem modal_deletion_clears_target (E : Env) (id : string) (s : State) :
  nonEmpty (editingLocationId (editing s)) = Some id ->
  (forall text, confirm E (clock (page s)) text = true) ->
  exists s',
    deleteLocation E s = (Return tt, s') /\
    editing s' = clearEditTarget (editing s) /\
    creation s' = creation s /\
    loading (page s') = false /\
    trace (page s') = trace (page (snd (deleteLocationById E id s))) /\
    updateLocation E s' = (Return tt, s').
Proof.
  intros Hid Hyes.
  destruct (deleteLocationById_state E id s)
    as (s1 & Hrun & Hoff & Hc & He).
  unfold deleteLocation, askConfirm. unfold bind at 1, gets at 1. rewrite Hid.
  unfold bind at 1, gets at 1. rewrite Hyes.
  unfold bind at 1. rewrite Hrun. unfold modify.
  eexists. split; [reflexivity |]. cbn [editing creation page withEditing snd].
  rewrite He, Hc. split_and!.
  - reflexivity.
  - reflexivity.
  - exact Hoff.
  - reflexivity.
  - unfold updateLocation, bind, gets. cbn [editing withEditing].
    rewrite He. reflexivity.
Qed.

Lemma modal_deletion_clears_target_witness :
  exists s',
    deleteLocation (backend false true true) (editingState (Some photo))
    = (Return tt, s') /\
    editingLocationId (editing s') = None /\
    selectedEditImage (editing s') = Some photo /\
    In (Message error "Failed to delete location. Please try again.")
      (trace (page s')).
Proof.
  destruct (modal_deletion_clears_target (backend false true true) "loc1"
              (editingState (Some photo)) eq_refl (fun _ => eq_refl))
    as (s' & Hrun & He & _ & _ & Htr & _).
  exists s'. split; [exact Hrun |]. rewrite He, Htr.
  split_and!; [reflexivity | reflexivity |]. vm_compute. auto 10.
Defined.

(** X14. A confirmed removal of the image of the record being edited
    patches the record whatever the storage answered: the request that
    sets [imageUrl] to [null] follows the storage deletion, if any, also
    when that deletion was rejected.  If the patch is fulfilled the form
    forgets the image, so that a second removal returns at once and
    issues nothing; if it is rejected the form keeps the URL and the
    failure is shown.  The markers on the map are not touched and the
    overlay ends hidden. *)
Theorem image_removal_patches_record (E : Env) (imageUrl id : string)
    (s : State) :
  nonEmpty (currentLocationImageUrl (editing s)) = Some imageUrl ->
  nonEmpty (editingLocationId (editing s)) = Some id ->
  (forall text, confirm E (clock (page s)) text = true) ->
  let patch := [("imageUrl", FNull); ("updatedAt", FServerTimestamp)] in
  exists s' ok,
    handleRemoveImage E s = (Return tt, s') /\
    trace (page s')
    = (trace (page s) ++
       deleteEvents E (clock (page s)) (Some imageUrl) ++
       [ Requested (UpdateDoc "locations" id patch) ok;
         if ok then Message success "Image removed successfully!"
         else Message error "Failed to remove image. Please try again." ])%list /\
    store s' = store s /\ creation s' = creation s /\
    loading (page s') = false /\
    editing s' = (if ok then forgetImage (editing s) else editing s) /\
    (ok = true -> handleRemoveImage E s' = (Return tt, s')).
Proof.
  intros Hurl Hid Hyes patch.
  unfold handleRemoveImage at 1. unfold bind at 1, gets at 1.
  rewrite Hurl, Hid. unfold askConfirm. unfold bind at 1, gets at 1.
  rewrite Hyes. cbn [negb].
  unfold bind at 1, showLoading at 1, modify at 1.
  set (s0 := withPage (setLoading true) s).
  destruct (deleteImageFromStorage_events E imageUrl s0)
    as (s1 & Hrun1 & Htr1 & _ & Hst1 & Hc1 & He1 & _).
  change (clock (page s0)) with (clock (page s)) in Htr1.
  change (trace (page s0)) with (trace (page s)) in Htr1.
  destruct (updateDoc E (clock (page s1)) id patch) eqn:Hupd.
  - body_runs (Return tt)
      (withPage (logEvent (Message success "Image removed successfully!"))
         (withEditing forgetImage
            (withPage (logRequest (UpdateDoc "locations" id patch) true) s1)))
      Hbody.
    { unfold bind at 1. rewrite Hrun1.
      unfold bind at 1, command, request. fold patch. rewrite Hupd.
      reflexivity. }
    pose proof (guarded_state _ "Failed to remove image. Please try again."
                  _ _ _ Hbody) as Hfin.
    eexists. exists true. split; [exact Hfin |].
    unfold_state. cbn [store creation editing page loading trace withEditing].
    rewrite Htr1, Hst1, Hc1, He1, <- !app_assoc.
    split_and!; reflexivity.
  - body_runs (@Throw unit)
      (withPage (logRequest (UpdateDoc "locations" id patch) false) s1)
      Hbody.
    { unfold bind at 1. rewrite Hrun1.
      unfold bind at 1, command, request. fold patch. rewrite Hupd.
      reflexivity. }
    pose proof (guarded_state _ "Failed to remove image. Please try again."
                  _ _ _ Hbody) as Hfin.
    eexists. exists false. split; [exact Hfin |].
    unfold_state. cbn [store creation editing page loading trace].
    rewrite Htr1, Hst1, Hc1, He1, <- !app_assoc.
    split_and!; try reflexivity. discriminate.
Qed.

Lemma image_removal_patches_record_witness :
  exists s',
    handleRemoveImage (backend true true true) (editingState None)
    = (Return tt, s') /\
    trace (page s')
    = [ Requested (DeleteObject "locations/u1/loc1_1.png") false;
        Requested
          (UpdateDoc "locations" "loc1"
             [("imageUrl", FNull); ("updatedAt", FServerTimestamp)]) true;
        Message success "Image removed successfully!" ] /\
    handleRemoveImage (backend true true true) s' = (Return tt, s').
Proof.
  destruct (image_removal_patches_record (backend true true true) oldImage
              "loc1" (editingState None) eq_refl eq_refl (fun _ => eq_refl))
    as (s' & ok & Hrun & Htr & _ & _ & _ & _ & Hagain).
  assert (Hok : ok = true).
  { pose proof (f_equal (fun p => trace (page (snd p))) Hrun) as H.
    cbv beta in H. cbn [snd] in H. rewrite Htr in H.
    vm_compute in H. now injection H as ->. }
  subst ok. exists s'. split; [exact Hrun |]. split; [| now apply Hagain].
  rewrite Htr. vm_compute. reflexivity.
Defined.

(** ** Every step of the page *)

Lemma timerFires_run (s : State) :
  timerFires s
  = (Return tt,
     withStore
       (setMarkers
          (map MarkerObj.marker
             (visible (search (page s)) (allMarkers (store s))))) s).
Proof. unfold timerFires, bind, gets. apply filterMarkers_run. Qed.

Lemma select_returns (file : option File.t) (s : State) :
  exists s1 s2,
    handleNewImageSelect file s = (Return tt, s1) /\
    handleEditImageSelect file s = (Return tt, s2) /\
    page s1 = page s2 /\ loading (page s1) = loading (page s) /\
    store s1 = store s /\ store s2 = store s /\
    editing s1 = editing s /\ creation s2 = creation s /\
    currentUser (page s1) = currentUser (page s).
Proof.
  destruct file as [f|].
  - destruct (acceptable_dec f) as [Hok | Hno].
    + destruct (select_accepted f s Hok) as [H1 H2].
      eexists _, _. split; [exact H1 |]. split; [exact H2 |].
      split_and!; reflexivity.
    + destruct (select_rejected f s Hno) as (text & H1 & H2).
      eexists _, _. split; [exact H1 |]. split; [exact H2 |].
      split_and!; reflexivity.
  - eexists _, _. split; [reflexivity |]. split; [reflexivity |].
    split_and!; reflexivity.
Qed.

Lemma perform_returns (E : Env) (a : Action) (s : State) :
  exists s', perform E a s = (Return tt, s').
Proof.
  destruct a; cbn [perform].
  - destruct (fetchUserProfile_resolved E userId s) as (p & s' & Hrun & _).
    exists s'. unfold bind. now rewrite Hrun.
  - destruct (load_events E s) as (s' & ok & events & Hrun & _). now exists s'.
  - rewrite filterMarkers_run. now eexists.
  - rewrite toggleCreationMode_state. now eexists.
  - destruct (submitNewLocation_events E s) as (s' & events & Hrun & _).
    now exists s'.
  - destruct (updateLocation_events E s) as (s' & events & Hrun & _).
    now exists s'.
  - unfold confirmDeleteLocation, askConfirm, bind, gets.
    destruct (confirm E _ _); [| now eexists].
    destruct (deleteLocationById_state E locationId s) as (s' & Hrun & _).
    now exists s'.
  - unfold deleteLocation, askConfirm. unfold bind at 1, gets at 1.
    destruct (nonEmpty (editingLocationId (editing s))) as [id|];
      [| now eexists].
    unfold bind at 1, gets at 1. destruct (confirm E _ _); [| now eexists].
    destruct (deleteLocationById_state E id s) as (s' & Hrun & _).
    unfold bind. rewrite Hrun. now eexists.
  - destruct (handleRemoveImage_events E s) as (s' & events & Hrun & _).
    now exists s'.
  - now eexists.
Qed.

(** X15. No step of the page throws: every handler, run from any state
    against any backend, returns.  A rejected request, an upload without
    a signed-in user and an image URL that cannot be decoded are all
    caught by the handler in which they occur. *)
Theorem every_step_returns (E : Env) (step : Step) (s : State) :
  exists s', run E step s = (Return tt, s').
Proof.
  destruct step; cbn [run].
  - apply perform_returns.
  - destruct (select_returns file s) as (s1 & _ & H & _). now exists s1.
  - destruct (select_returns file s) as (_ & s2 & _ & H & _). now exists s2.
  - unfold mapClicked, bind, gets.
    destruct (creationMode (creation s)); now eexists.
  - now eexists.
  - now eexists.
  - rewrite editLocation_run. now eexists.
  - destruct (deleteLocationById_state E locationId s) as (s' & Hrun & _).
    now exists s'.
  - rewrite timerFires_run. now eexists.
Qed.

(** A load always ends with the overlay hidden. *)
Lemma load_loading_off (E : Env) (s : State) :
  loading (page (snd (loadLocationsFromFirestore E s))) = false.
Proof.
  destruct (getDocs E (clock (page s))) as [docs|] eqn:Hdocs.
  - destruct (load_success E s docs Hdocs) as (s1 & _ & Hres & _ & Hrun).
    cbv zeta in Hrun. rewrite Hrun.
    destruct Hres as (_ & _ & _ & _ & _ & _ & _ & Hl & _).
    cbn [snd page withStore]. rewrite Hl. reflexivity.
  - now rewrite (load_failure E s Hdocs).
Qed.

Lemma perform_loading_off (E : Env) (a : Action) (s : State) :
  loadingOff s -> loadingOff (snd (perform E a s)).
Proof.
  unfold loadingOff. intros Hoff. destruct a; cbn [perform].
  - destruct (fetchUserProfile_resolved E userId s) as (p & s' & Hrun & Hres & _).
    unfold bind. rewrite Hrun. cbn [snd ret].
    destruct Hres as (_ & _ & _ & _ & _ & _ & _ & Hl & _). congruence.
  - apply load_loading_off.
  - rewrite filterMarkers_run. exact Hoff.
  - destruct (toggle_creation s) as (s' & Hrun & _ & _ & Hp).
    rewrite Hrun. cbn [snd]. now rewrite Hp.
  - unfold submitNewLocation. unfold bind at 1, gets at 1.
    destruct (negb (Js.truthy (Js.trim (newTitle (creation s)))));
      [exact Hoff |].
    unfold bind at 1, showLoading at 1, modify at 1.
    apply finally_loading_off.
  - unfold updateLocation. unfold bind at 1, gets at 1.
    destruct (nonEmpty (editingLocationId (editing s))); [| exact Hoff].
    destruct (negb (Js.truthy (Js.trim (editTitle (editing s)))));
      [exact Hoff |].
    unfold bind at 1, showLoading at 1, modify at 1.
    apply finally_loading_off.
  - unfold confirmDeleteLocation, askConfirm, bind, gets.
    destruct (confirm E _ _); [| exact Hoff].
    destruct (deleteLocationById_state E locationId s) as (s' & Hrun & Hl & _).
    now rewrite Hrun.
  - unfold deleteLocation, askConfirm. unfold bind at 1, gets at 1.
    destruct (nonEmpty (editingLocationId (editing s))) as [id|];
      [| exact Hoff].
    unfold bind at 1, gets at 1. destruct (confirm E _ _); [| exact Hoff].
    destruct (deleteLocationById_state E id s) as (s' & Hrun & Hl & _).
    unfold bind. rewrite Hrun. exact Hl.
  - unfold handleRemoveImage, askConfirm. unfold bind at 1, gets at 1.
    destruct (nonEmpty (currentLocationImageUrl (editing s))); [| exact Hoff].
    destruct (nonEmpty (editingLocationId (editing s))); [| exact Hoff].
    unfold bind at 1, gets at 1. destruct (confirm E _ _); [| exact Hoff].
    cbn [negb]. unfold bind at 1, showLoading at 1, modify at 1.
    apply finally_loading_off.
  - exact Hoff.
Qed.

Lemma run_loading_off (E : Env) (step : Step) (s : State) :
  loadingOff s -> loadingOff (snd (run E step s)).
Proof.
  intros Hoff. destruct step; cbn [run].
  - now apply perform_loading_off.
  - destruct (select_returns file s) as (s1 & _ & H & _ & _ & Hl & _).
    rewrite H. unfold loadingOff in *. cbn [snd]. congruence.
  - destruct (select_returns file s) as (s1 & s2 & _ & H & Hp & Hl & _).
    rewrite H. unfold loadingOff in *. cbn [snd]. congruence.
  - unfold mapClicked, bind, gets.
    destruct (creationMode (creation s)); exact Hoff.
  - exact Hoff.
  - exact Hoff.
  - rewrite editLocation_run.
    destruct (getLocation E _ _) as [[data|]|]; exact Hoff.
  - destruct (deleteLocationById_state E locationId s) as (s' & Hrun & Hl & _).
    now rewrite Hrun.
  - rewrite timerFires_run. exact Hoff.
Qed.

(** X16. The loading overlay is never left on: if it is hidden before a
    sequence of steps of the page, it is hidden after it, whatever the
    backend answers, also when a handler fails half-way. *)
Theorem overlay_never_left_on (E : Env) (steps : list Step) (s : State) :
  loading (page s) = false ->
  loading (page (runAll E steps s)) = false.
Proof.
  revert s. induction steps as [|step l IH]; intros s Hoff; [exact Hoff |].
  cbn [runAll fold_left]. apply IH. now apply run_loading_off.
Qed.

Lemma overlay_never_left_on_witness :
  loading
    (page (runAll offline
             [ Handler Load; Handler Update; Edit "loc1"; Handler Submit;
               Handler RemoveImage; DeleteById "loc1" ]
             (editingState (Some photo)))) = false.
Proof.
  apply (overlay_never_left_on offline
           [ Handler Load; Handler Update; Edit "loc1"; Handler Submit;
             Handler RemoveImage; DeleteById "loc1" ]
           (editingState (Some photo))).
  reflexivity.
Defined.

(** ** The layers on the map come from the markers in memory *)

Lemma rendered_same (s s' : State) :
  allMarkers (store s') = allMarkers (store s) ->
  markers (store s') = markers (store s) ->
  renderedFromMemory s -> renderedFromMemory s'.
Proof. unfold renderedFromMemory. intros -> ->. auto. Qed.

Lemma rendered_run {A} (m : M A) :
  (forall s, allMarkers (store (snd (m s))) = allMarkers (store s) /\
             markers (store (snd (m s))) = markers (store s)) ->
  preserves renderedFromMemory m.
Proof.
  intros H s Hs. destruct (H s) as [Ha Hm]. exact (rendered_same s _ Ha Hm Hs).
Qed.

Lemma rendered_modify (f : State -> State) :
  (forall s, allMarkers (store (f s)) = allMarkers (store s)) ->
  (forall s, markers (store (f s)) = markers (store s)) ->
  preserves renderedFromMemory (modify f).
Proof. intros Ha Hm. apply rendered_run. intros s. split; [apply Ha | apply Hm]. Qed.

Lemma rendered_request {A} (r : Request) (answer : nat -> option A) :
  preserves renderedFromMemory (request r answer).
Proof.
  apply rendered_run. intros s. unfold request.
  destruct (answer (clock (page s))); split; reflexivity.
Qed.

Lemma rendered_command (r : Request) (answer : nat -> bool) :
  preserves renderedFromMemory (command r answer).
Proof. apply rendered_request. Qed.

Lemma rendered_showMessage (text : string) (type : MessageType) :
  preserves renderedFromMemory (showMessage text type).
Proof. apply rendered_run. intros s. split; reflexivity. Qed.

Lemma rendered_fetchUserProfile (E : Env) (userId : string) :
  preserves renderedFromMemory (fetchUserProfile E userId).
Proof.
  apply rendered_run. intros s.
  destruct (fetchUserProfile_resolved E userId s) as (p & s' & Hrun & Hres & _).
  rewrite Hrun. destruct Hres as (_ & Ha & Hm & _). now split.
Qed.

Lemma visible_incl (query : string) (all : list MarkerObj.t) (m : Marker.t) :
  In m (map MarkerObj.marker (visible query all)) ->
  In m (map MarkerObj.marker all).
Proof.
  rewrite !in_map_iff. intros (o & Ho & Hin). exists o. split; [exact Ho |].
  unfold visible in Hin. apply filter_In in Hin. tauto.
Qed.

Lemma rendered_filterMarkers (query : string) :
  preserves renderedFromMemory (filterMarkers query).
Proof.
  intros s _. rewrite filterMarkers_run. intros m Hin. cbn in Hin |- *.
  exact (visible_incl _ _ _ Hin).
Qed.

Lemma rendered_load (E : Env) :
  preserves renderedFromMemory (loadLocationsFromFirestore E).
Proof.
  intros s _. destruct (getDocs E (clock (page s))) as [docs|] eqn:Hdocs.
  - destruct (load_success E s docs Hdocs) as (s1 & _ & _ & _ & Hrun).
    cbv zeta in Hrun. rewrite Hrun. intros m Hin. exact Hin.
  - rewrite (load_failure E s Hdocs). intros m [].
Qed.

#[local] Hint Resolve rendered_request rendered_command rendered_showMessage
  rendered_fetchUserProfile rendered_filterMarkers rendered_load : preserve.

#[local] Hint Extern 2 (preserves renderedFromMemory (modify _)) =>
  apply rendered_modify; intros ?; reflexivity : preserve.

Lemma rendered_toggleCreationMode :
  preserves renderedFromMemory toggleCreationMode.
Proof. unfold toggleCreationMode. eauto 20 with preserve. Qed.

Lemma rendered_deleteImageFromStorage (E : Env) (imageUrl : string) :
  preserves renderedFromMemory (deleteImageFromStorage E imageUrl).
Proof. unfold deleteImageFromStorage. eauto 20 with preserve. Qed.

Lemma rendered_uploadImageToStorage (E : Env) (file : File.t)
    (locationId : string) :
  preserves renderedFromMemory (uploadImageToStorage E file locationId).
Proof. unfold uploadImageToStorage. eauto 20 with preserve. Qed.

#[local] Hint Resolve rendered_toggleCreationMode
  rendered_deleteImageFromStorage rendered_uploadImageToStorage : preserve.

Lemma rendered_deleteLocationById (E : Env) (locationId : string) :
  preserves renderedFromMemory (deleteLocationById E locationId).
Proof.
  unfold deleteLocationById, showLoading, showError, showSuccess.
  eauto 40 with preserve.
Qed.

#[local] Hint Resolve rendered_deleteLocationById : preserve.

Lemma rendered_perform (E : Env) (a : Action) :
  preserves renderedFromMemory (perform E a).
Proof.
  destruct a; cbn [perform].
  - auto with preserve.
  - apply rendered_load.
  - apply rendered_filterMarkers.
  - apply rendered_toggleCreationMode.
  - unfold submitNewLocation, showLoading, showError, showSuccess.
    eauto 40 with preserve.
  - unfold updateLocation, showLoading, showError, showSuccess.
    eauto 40 with preserve.
  - unfold confirmDeleteLocation, askConfirm. eauto 10 with preserve.
  - unfold deleteLocation, askConfirm. eauto 20 with preserve.
  - unfold handleRemoveImage, askConfirm, showLoading, showError, showSuccess.
    eauto 40 with preserve.
  - apply rendered_modify; intros ?; reflexivity.
Qed.

Lemma rendered_run_step (E : Env) (step : Step) :
  preserves renderedFromMemory (run E step).
Proof.
  destruct step; cbn [run].
  - apply rendered_perform.
  - unfold handleNewImageSelect, validateImageFile, showError.
    eauto 20 with preserve.
  - unfold handleEditImageSelect, validateImageFile, showError.
    eauto 20 with preserve.
  - unfold mapClicked, handleMapClick. eauto 20 with preserve.
  - unfold cancelNewLocation. eauto 20 with preserve.
  - unfold cancelEdit. eauto 20 with preserve.
  - unfold editLocation, showError. eauto 20 with preserve.
  - apply rendered_deleteLocationById.
  - unfold timerFires. eauto 20 with preserve.
Qed.

(** X17. The map never shows a marker that is not in memory: if every
    layer of the cluster group is the marker of an entry of [allMarkers]
    before a sequence of steps of the page, the same holds after it,
    whatever the backend answers.  (After a failed load the map is empty
    while the entries stay; the converse inclusion does not hold.) *)
Theorem map_shows_only_loaded_markers (E : Env) (steps : list Step)
    (s : State) :
  renderedFromMemory s -> renderedFromMemory (runAll E steps s).
Proof.
  revert s. induction steps as [|step l IH]; intros s H; [exact H |].
  cbn [runAll fold_left]. apply IH. now apply rendered_run_step.
Qed.

Lemma map_shows_only_loaded_markers_witness :
  renderedFromMemory
    (runAll (serving sampleDocs sampleUsers true)
       [Handler Load; Handler (Search "cafe"); Handler Update] startState).
Proof.
  apply (map_shows_only_loaded_markers (serving sampleDocs sampleUsers true)
           [Handler Load; Handler (Search "cafe"); Handler Update] startState).
  intros m [].
Defined.

(** ** The two flows do not interfere *)

Section Flows.

Variable E : Env.
Variable I : State -> Prop.
Hypothesis I_framed : framed I.

#[local] Hint Resolve framed_request framed_command framed_showMessage
  framed_showLoading framed_store framed_load framed_filterMarkers
  framed_fetchUserProfile framed_deleteImageFromStorage
  framed_uploadImageToStorage framed_deleteLocationById : preserve.

(** The steps that touch neither form. *)
Lemma neutral_step_keeps (step : Step) :
  ofCreationFlow step = false -> ofEditFlow step = false ->
  preserves I (run E step).
Proof.
  destruct step as [[] | | | | | | | |]; try discriminate; intros _ _;
    cbn [run perform].
  - eauto with preserve.
  - eauto with preserve.
  - eauto with preserve.
  - unfold confirmDeleteLocation, askConfirm. eauto 10 with preserve.
  - eauto with preserve.
  - unfold timerFires. eauto 10 with preserve.
Qed.

Section CreationFlow.

Hypothesis I_creation : forall s f, I s -> I (withCreation f s).

#[local] Hint Extern 2 (preserves I (modify (withCreation _))) =>
  apply preserves_modify_frame; intros ?; apply I_creation : preserve.

Lemma creation_flow_toggle : preserves I toggleCreationMode.
Proof. unfold toggleCreationMode. eauto 20 with preserve. Qed.

#[local] Hint Resolve creation_flow_toggle : preserve.

Lemma creation_step_keeps (step : Step) :
  ofEditFlow step = false -> preserves I (run E step).
Proof.
  intros Hedit. destruct (ofCreationFlow step) eqn:Hcre;
    [| now apply neutral_step_keeps].
  destruct step as [[] | | | | | | | |]; try discriminate;
    cbn [run perform].
  - apply creation_flow_toggle.
  - unfold submitNewLocation, showLoading, showError, showSuccess.
    eauto 40 with preserve.
  - unfold handleNewImageSelect, validateImageFile, showError.
    eauto 20 with preserve.
  - unfold mapClicked, handleMapClick. eauto 20 with preserve.
  - unfold cancelNewLocation. eauto 20 with preserve.
Qed.

End CreationFlow.

Section EditFlow.

Hypothesis I_editing : forall s f, I s -> I (withEditing f s).

#[local] Hint Extern 2 (preserves I (modify (withEditing _))) =>
  apply preserves_modify_frame; intros ?; apply I_editing : preserve.

Lemma edit_step_keeps (step : Step) :
  ofCreationFlow step = false -> preserves I (run E step).
Proof.
  intros Hcre. destruct (ofEditFlow step) eqn:Hedit;
    [| now apply neutral_step_keeps].
  destruct step as [[] | | | | | | | |]; try discriminate;
    cbn [run perform].
  - unfold updateLocation, showLoading, showError, showSuccess.
    eauto 40 with preserve.
  - unfold deleteLocation, askConfirm. eauto 20 with preserve.
  - unfold handleRemoveImage, askConfirm, showLoading, showError, showSuccess.
    eauto 40 with preserve.
  - unfold handleEditImageSelect, validateImageFile, showError.
    eauto 20 with preserve.
  - unfold cancelEdit. eauto 20 with preserve.
  - unfold editLocation, showError. eauto 20 with preserve.
Qed.

End EditFlow.

End Flows.

(** X18. The creation flow and the edit flow do not interfere.  A
    sequence of steps none of which belongs to the creation flow (toggle,
    map click, image selection, submit and cancel of the creation modal)
    leaves the creation variables and form exactly as they were; a
    sequence of steps none of which belongs to the edit flow leaves the
    edit variables and form as they were.  In particular a load, a search
    and a deletion from a popup change neither, also when the record
    deleted is the one open in the edit modal. *)
Theorem flows_do_not_interfere (E : Env) (steps : list Step) (s : State) :
  (Forall (fun step => ofCreationFlow step = false) steps ->
   creation (runAll E steps s) = creation s) /\
  (Forall (fun step => ofEditFlow step = false) steps ->
   editing (runAll E steps s) = editing s).
Proof.
  split.
  - intros Hall. revert s.
    induction Hall as [|step l Hstep _ IH]; intros s; [reflexivity |].
    change (runAll E (step :: l) s) with (runAll E l (snd (run E step s))).
    rewrite IH.
    apply (edit_step_keeps E _ (framed_creation (creation s))); auto.
  - intros Hall. revert s.
    induction Hall as [|step l Hstep _ IH]; intros s; [reflexivity |].
    change (runAll E (step :: l) s) with (runAll E l (snd (run E step s))).
    rewrite IH.
    apply (creation_step_keeps E _ (framed_editing (editing s))); auto.
Qed.

(** No step signs the user in or out. *)
Lemma run_keeps_user (E : Env) (step : Step) (u : option string) :
  preserves (fun s => currentUser (page s) = u) (run E step).
Proof.
  destruct (ofEditFlow step) eqn:Hedit.
  - destruct (ofCreationFlow step) eqn:Hcre.
    + destruct step as [[] | | | | | | | |]; try discriminate.
      intros s H. exact H.
    + apply (edit_step_keeps E _ (framed_user u)); auto.
  - apply (creation_step_keeps E _ (framed_user u)); auto.
Qed.

Lemma runAll_keeps_user (E : Env) (steps : list Step) (s : State) :
  currentUser (page (runAll E steps s)) = currentUser (page s).
Proof.
  revert s. induction steps as [|step l IH]; intros s; [reflexivity |].
  change (runAll E (step :: l) s) with (runAll E l (snd (run E step s))).
  rewrite IH.
  now apply (run_keeps_user E step (currentUser (page s))).
Qed.

(** ** The debounced search box *)

Lemma typed_run (values : list string) :
  forall (s : State) (pending : bool) (v : string),
    searchSteps (map Typed values ++ [Typed v]) (s, pending)
    = (withPage (setSearch v) s, true).
Proof.
  induction values as [|a l IH]; intros s pending v; [reflexivity |].
  cbn [map app]. unfold searchSteps. cbn [fold_left searchStep fst].
  fold (searchSteps (map Typed l ++ [Typed v])). rewrite IH. reflexivity.
Qed.

(** X19. The search box filters once per burst of input, with the final
    text: however many inputs arrive before the timer fires, the layers
    on the map are afterwards the markers visible for the last value
    typed, whatever was typed before and whether or not a timer was
    pending; nothing but the layers and the box changes.  When no timer is
    pending nothing happens. *)
Theorem search_filters_with_last_input (values : list string) (v : string)
    (s : State) (pending : bool) :
  searchSteps (map Typed values ++ [Typed v; Elapsed]) (s, pending)
  = (withStore
       (setMarkers
          (map MarkerObj.marker (visible v (allMarkers (store s)))))
       (withPage (setSearch v) s),
     false) /\
  searchSteps [Elapsed] (s, false) = (s, false) /\
  searchSteps [Elapsed; Elapsed] (s, true) = searchSteps [Elapsed] (s, true).
Proof.
  split; [| split; reflexivity].
  change [Typed v; Elapsed] with ([Typed v] ++ [Elapsed])%list.
  rewrite app_assoc. unfold searchSteps. rewrite fold_left_app.
  fold (searchSteps (map Typed values ++ [Typed v])). rewrite typed_run.
  cbn [fold_left searchStep fst snd]. rewrite timerFires_run. reflexivity.
Qed.

(** ** Reloading with the profiles cached *)

Lemma settled_run (E : Env) (userId : string) (profile : Profile.t) (n : nat)
    (step : Step) :
  preserves (settled userId profile n) (run E step).
Proof.
  destruct step; cbn [run].
  - apply preserves_perform.
  - unfold handleNewImageSelect, validateImageFile, showError.
    eauto 20 with preserve.
  - unfold handleEditImageSelect, validateImageFile, showError.
    eauto 20 with preserve.
  - unfold mapClicked, handleMapClick. eauto 20 with preserve.
  - unfold cancelNewLocation. eauto 20 with preserve.
  - unfold cancelEdit. eauto 20 with preserve.
  - unfold editLocation, showError. eauto 20 with preserve.
  - apply preserves_deleteLocationById.
  - unfold timerFires. eauto 20 with preserve.
Qed.

Lemma runAll_settled (E : Env) (userId : string) (profile : Profile.t)
    (n : nat) (steps : list Step) (s : State) :
  settled userId profile n s -> settled userId profile n (runAll E steps s).
Proof.
  revert s. induction steps as [|step l IH]; intros s H; [exact H |].
  change (runAll E (step :: l) s) with (runAll E l (snd (run E step s))).
  apply IH. now apply settled_run.
Qed.

(** With every owner cached, resolving the owners changes nothing. *)
Lemma resolveAll_cached (E : Env) (userIds : list string) (s : State) :
  (forall u, In u userIds -> is_Some (userProfileCache (store s) !! u)) ->
  resolveAll E userIds s = (Return tt, s).
Proof.
  unfold resolveAll. induction userIds as [|u l IH]; intros Hall;
    [reflexivity |].
  cbn [forEach]. unfold bind at 1. unfold bind at 1.
  rewrite fetchUserProfile_cached by (intros _; apply Hall; now left).
  cbn [ret]. apply IH. intros x Hx. apply Hall. now right.
Qed.

(** A load that finds every owner cached issues one request. *)
Lemma load_with_cached_profiles (E : Env) (docs : list DocSnap.t) (s : State) :
  getDocs E (clock (page s)) = Some docs ->
  (forall u, In u (snd (firstPass docs)) ->
             is_Some (userProfileCache (store s) !! u)) ->
  let built :=
    builtMarkers (currentUser (page s)) (userProfileCache (store s))
      docs (fst (firstPass docs)) in
  loadLocationsFromFirestore E s
  = (Return tt,
     withStore
       (fun st => setAllMarkers built
                    (setMarkers (map MarkerObj.marker built) st))
       (fetchedState s)).
Proof.
  intros Hdocs Hall built.
  destruct (load_success E s docs Hdocs) as (s1 & Hres & _ & _ & Hrun).
  rewrite (resolveAll_cached E _ (fetchedState s)) in Hres by exact Hall.
  injection Hres as <-. exact Hrun.
Qed.

Lemma owner_is_collected (docs : list DocSnap.t) (location : Location.t) :
  In location (fst (firstPass docs)) ->
  Js.truthy (Location.userId location) = true ->
  In (Location.userId location) (snd (firstPass docs)).
Proof.
  rewrite firstPass_locations, in_map_iff.
  intros (d & <- & Hd) Htruthy. apply filter_In in Hd as [Hin Hvalid].
  apply firstPass_ids. exists d. now split_and!.
Qed.

(** X20. Profiles are fetched once per page: when a load has fetched
    the records, then after any sequence of steps of the page a load that
    receives the same records issues a single request, the fetch of the
    records, and no profile fetch; it rebuilds the same entries in memory
    and shows all of them. *)
Theorem reload_uses_cached_profiles (E : Env) (docs : list DocSnap.t)
    (steps : list Step) (s : State) :
  getDocs E (clock (page s)) = Some docs ->
  let s1 := snd (loadLocationsFromFirestore E s) in
  let s2 := runAll E steps s1 in
  getDocs E (clock (page s2)) = Some docs ->
  exists s3,
    loadLocationsFromFirestore E s2 = (Return tt, s3) /\
    trace (page s3) = (trace (page s2) ++ [Requested GetDocs true])%list /\
    allMarkers (store s3) = allMarkers (store s1) /\
    markers (store s3) = map MarkerObj.marker (allMarkers (store s1)).
Proof.
  intros Hdocs s1 s2 Hdocs2.
  destruct (load_success E s docs Hdocs) as (sa & _ & _ & Hcached & Hrun).
  cbv zeta in Hrun.
  assert (Hs1 : s1
                = withStore
                    (fun st =>
                       setAllMarkers
                         (builtMarkers (currentUser (page s))
                            (userProfileCache (store sa)) docs
                            (fst (firstPass docs)))
                         (setMarkers
                            (map MarkerObj.marker
                               (builtMarkers (currentUser (page s))
                                  (userProfileCache (store sa)) docs
                                  (fst (firstPass docs)))) st)) sa).
  { subst s1. now rewrite Hrun. }
  assert (Hkept : forall u p,
            In u (snd (firstPass docs)) ->
            userProfileCache (store sa) !! u = Some p ->
            userProfileCache (store s2) !! u = Some p).
  { intros u p _ Hp.
    assert (Hset : settled u p (fetchesOf u (trace (page s1))) s1).
    { split; [| reflexivity]. rewrite Hs1. exact Hp. }
    exact (proj1 (runAll_settled E u p _ steps s1 Hset)). }
  assert (Hall : forall u, In u (snd (firstPass docs)) ->
                           is_Some (userProfileCache (store s2) !! u)).
  { intros u Hu. destruct (Hcached u Hu) as [p Hp]. exists p.
    now apply Hkept. }
  rewrite (load_with_cached_profiles E docs s2 Hdocs2 Hall).
  eexists. split; [reflexivity |].
  assert (Huser : currentUser (page s2) = currentUser (page s)).
  { subst s2. rewrite runAll_keeps_user.
    pose proof (framed_load E _ (framed_user (currentUser (page s))) s eq_refl)
      as H.
    exact H. }
  assert (Hbuilt : builtMarkers (currentUser (page s2))
                     (userProfileCache (store s2)) docs (fst (firstPass docs))
                   = allMarkers (store s1)).
  { rewrite Hs1, Huser. cbn [allMarkers store withStore setAllMarkers].
    unfold builtMarkers. apply map_ext_in. intros location Hin.
    f_equal. f_equal. unfold profileIn.
    destruct (Js.truthy (Location.userId location)) eqn:Htruthy;
      [| reflexivity].
    pose proof (owner_is_collected docs location Hin Htruthy) as Hu.
    destruct (Hcached _ Hu) as [p Hp].
    now rewrite Hp, (Hkept _ p Hu Hp). }
  cbn [store page trace allMarkers markers withStore setAllMarkers setMarkers].
  rewrite Hbuilt. split_and!; reflexivity.
Qed.

Lemma reload_uses_cached_profiles_witness :
  exists s3,
    loadLocationsFromFirestore (serving sampleDocs sampleUsers true)
      (runAll (serving sampleDocs sampleUsers true) [Handler (Search "cafe")]
         (snd (loadLocationsFromFirestore
                 (serving sampleDocs sampleUsers true) startState)))
    = (Return tt, s3) /\
    trace (page s3)
    = (trace
         (page
            (runAll (serving sampleDocs sampleUsers true)
               [Handler (Search "cafe")]
               (snd (loadLocationsFromFirestore
                       (serving sampleDocs sampleUsers true) startState)))) ++
       [Requested GetDocs true])%list.
Proof.
  destruct (reload_uses_cached_profiles (serving sampleDocs sampleUsers true)
              sampleDocs [Handler (Search "cafe")] startState eq_refl eq_refl)
    as (s3 & Hrun & Htr & _).
  exists s3. split; [exact Hrun | exact Htr].
Defined.

(** ** One fetch per owner, and narrowing a search *)

Lemma fetchesOf_no_fetch (u : string) (events : list Event) :
  (forall e, In e events -> isFetchOf u e = false) -> fetchesOf u events = 0%nat.
Proof.
  unfold fetchesOf. induction events as [|e l IH]; intros H; [reflexivity |].
  cbn [List.filter]. rewrite (H e (or_introl eq_refl)).
  apply IH. intros x Hx. apply H. now right.
Qed.

(** X21. A load fetches the profile of an owner at most once, however
    many of the fetched locations that owner has, and not at all when the
    profile is already cached or the fetch of the records fails. *)
Theorem load_fetches_each_profile_once (E : Env) (u : string) (s : State) :
  let s' := snd (loadLocationsFromFirestore E s) in
  (fetchesOf u (trace (page s')) <= fetchesOf u (trace (page s)) + 1)%nat /\
  (is_Some (userProfileCache (store s) !! u) ->
   fetchesOf u (trace (page s')) = fetchesOf u (trace (page s))) /\
  (getDocs E (clock (page s)) = None ->
   fetchesOf u (trace (page s')) = fetchesOf u (trace (page s))).
Proof.
  intros s'. subst s'.
  destruct (getDocs E (clock (page s))) as [docs|] eqn:Hdocs.
  - destruct (load_success E s docs Hdocs) as (s1 & _ & Hres & _ & Hrun).
    cbv zeta in Hrun. rewrite Hrun.
    cbn [snd page withStore].
    destruct Hres as (_ & _ & _ & _ & _ & _ & _ & _ & events & Htr & _ & _ &
                      Hcached & Hone & _).
    rewrite Htr, fetchesOf_app.
    change (trace (page (fetchedState s)))
      with (trace (page s) ++ [Requested GetDocs true])%list.
    rewrite fetchesOf_app.
    change (fetchesOf u [Requested GetDocs true]) with 0%nat.
    split_and!.
    + pose proof (Hone u). lia.
    + intros Hu. rewrite (Hcached u Hu). lia.
    + discriminate.
  - rewrite (load_failure E s Hdocs). unfold failedState.
    cbn [snd page trace withPage withStore setLoading logEvent logRequest].
    rewrite <- !app_assoc, fetchesOf_app. cbn [app].
    change (fetchesOf u [Requested GetDocs false;
                         Message error "Failed to load locations. Please refresh the page."])
      with 0%nat.
    split_and!; intros; lia.
Qed.

Lemma isSubstring_trans (a b c : string) :
  isSubstring a b -> isSubstring b c -> isSubstring a c.
Proof.
  intros (p1 & q1 & ->) (p2 & q2 & ->).
  exists (p2 ++ p1), (q1 ++ q2). now rewrite !append_assoc.
Qed.

Lemma isSubstring_empty (a : string) :
  isSubstring a EmptyString -> a = EmptyString.
Proof.
  intros (p & q & H). destruct p; [| discriminate].
  destruct a; [reflexivity | discriminate].
Qed.

Lemma filter_filter_impl {A} (p q : A -> bool) (l : list A) :
  (forall x, q x = true -> p x = true) ->
  List.filter q (List.filter p l) = List.filter q l.
Proof.
  intros H. induction l as [|x l IH]; [reflexivity |]. cbn [List.filter].
  destruct (p x) eqn:Hp; cbn [List.filter].
  - now rewrite IH.
  - destruct (q x) eqn:Hq; [| exact IH]. rewrite (H x Hq) in Hp. discriminate.
Qed.

(** X22. Narrowing a search never brings a marker back: when the term
    of a query (trimmed, lowercased) occurs in the term of a second
    query, every marker visible for the second query is visible for the
    first, and filtering the markers visible for the first query by the
    second gives exactly the markers visible for the second. *)
Theorem narrower_query_shows_fewer (query query' : string)
    (all : list MarkerObj.t) :
  isSubstring (Js.toLowerCase (Js.trim query))
    (Js.toLowerCase (Js.trim query')) ->
  (forall m, In m (visible query' all) -> In m (visible query all)) /\
  visible query' (visible query all) = visible query' all.
Proof.
  intros Hsub.
  assert (Himpl : forall m,
    String.eqb (Js.toLowerCase (Js.trim query')) EmptyString ||
    matchesTerm (Js.toLowerCase (Js.trim query')) m = true ->
    String.eqb (Js.toLowerCase (Js.trim query)) EmptyString ||
    matchesTerm (Js.toLowerCase (Js.trim query)) m = true).
  { intros m H. apply orb_true_iff in H as [H | H].
    - apply String.eqb_eq in H. rewrite H in Hsub.
      rewrite (isSubstring_empty _ Hsub). reflexivity.
    - apply orb_true_iff. right. apply matchesTerm_spec.
      apply matchesTerm_spec in H.
      destruct H as [H | [H | [H | H]]];
        [left | right; left | right; right; left | right; right; right];
        exact (isSubstring_trans _ _ _ Hsub H). }
  split.
  - intros m. unfold visible. rewrite !filter_In. intros [Hin Hm].
    split; [exact Hin | now apply Himpl].
  - unfold visible. now apply filter_filter_impl.
Qed.

Lemma narrower_query_shows_fewer_witness :
  visible "Old Mill" (visible " old " [pin]) = visible "Old Mill" [pin].
Proof.
  destruct (narrower_query_shows_fewer " old " "Old Mill" [pin]) as [_ H].
  - exists EmptyString, " mill". reflexivity.
  - exact H.
Defined.

(** * The error messages of [utils.js] *)

Lemma orElse_nonempty (o : option string) (d : string) :
  d <> EmptyString -> Js.orElse o d <> EmptyString.
Proof.
  intros Hd. destruct o as [[|a x]|]; cbn; [exact Hd | discriminate | exact Hd].
Qed.

Lemma orElse_eq (o : option string) (x : string) :
  x <> EmptyString -> Js.orElse o EmptyString = x -> o = Some x.
Proof.
  intros Hx. destruct o as [[|a y]|]; cbn; intros H; congruence.
Qed.

Lemma switch_auth_empty (label text : string) :
  switch label authMessages = Some text -> text = EmptyString ->
  label = "auth/popup-closed-by-user".
Proof.
  unfold switch, authMessages. cbn [List.find fst].
  repeat match goal with
    | |- context [String.eqb label ?x] =>
        destruct (String.eqb_spec label x) as [Heq | _];
        [intros [= <-] Ht; first [discriminate Ht | exact Heq] |]
    end.
  intros [=].
Qed.

Lemma switch_firestore_nonempty (label text : string) :
  switch label firestoreMessages = Some text -> text <> EmptyString.
Proof.
  unfold switch, firestoreMessages. cbn [List.find fst].
  repeat match goal with
    | |- context [String.eqb label ?x] =>
        destruct (String.eqb_spec label x) as [Heq | _];
        [intros [= <-] Ht; discriminate Ht |]
    end.
  intros [=].
Qed.

Lemma message_is_empty (error : FirebaseError.t) :
  getFirebaseErrorMessage error = EmptyString <->
  FirebaseError.code error = Some "auth/popup-closed-by-user".
Proof.
  split.
  - unfold getFirebaseErrorMessage. cbv zeta.
    destruct (Js.startsWith _ "auth/").
    + destruct (switch _ authMessages) as [text|] eqn:Hsw; [| discriminate].
      intros ->. apply orElse_eq; [discriminate |].
      exact (switch_auth_empty _ _ Hsw eq_refl).
    + destruct (Js.startsWith _ "firestore/").
      * destruct (switch _ firestoreMessages) as [text|] eqn:Hsw;
          [| discriminate].
        intros ->. now destruct (switch_firestore_nonempty _ _ Hsw).
      * intros H. now apply orElse_nonempty in H.
  - intros Hcode. unfold getFirebaseErrorMessage. rewrite Hcode. reflexivity.
Qed.

(** X23. [handleError] stays silent for exactly one error, the sign-in
    popup closed by the user: the message computed for an error is empty
    if and only if its code is [auth/popup-closed-by-user], and then
    nothing is shown; for every other error, with or without a code or a
    message of its own, exactly one non-empty error message is shown. *)
Theorem only_closed_popup_is_silent (err : FirebaseError.t) (s : State) :
  (getFirebaseErrorMessage err = EmptyString <->
   FirebaseError.code err = Some "auth/popup-closed-by-user") /\
  (FirebaseError.code err = Some "auth/popup-closed-by-user" ->
   handleError err s = (Return tt, s)) /\
  (FirebaseError.code err <> Some "auth/popup-closed-by-user" ->
   exists text,
     text <> EmptyString /\
     handleError err s
     = (Return tt, withPage (logEvent (Message error text)) s)).
Proof.
  split; [apply message_is_empty |]. split.
  - intros Hcode. apply message_is_empty in Hcode.
    unfold handleError. cbv zeta. now rewrite Hcode.
  - intros Hcode. exists (getFirebaseErrorMessage err).
    assert (Hne : getFirebaseErrorMessage err <> EmptyString).
    { intros H. now apply message_is_empty in H. }
    split; [exact Hne |]. unfold handleError. cbv zeta.
    destruct (getFirebaseErrorMessage err); [congruence | reflexivity].
Qed.

(** * The service worker *)

Section ServiceWorker.

Variable net : string -> option Sw.Response.
Variable selfOrigin : string.


(** A lookup after a put finds the response put or what it found before. *)
Lemma matchAll_openPut (name url : string) (r : Sw.Response)
    (stored : Sw.CacheStorage) (url' : string) (r' : Sw.Response) :
  Sw.matchAll (Sw.openPut name url r stored) url' = Some r' ->
  (url' = url /\ r' = r) \/ Sw.matchAll stored url' = Some r'.
Proof.
  induction stored as [|[n c] rest IH]; cbn [Sw.matchAll Sw.openPut].
  - destruct (_ !! url') as [x|] eqn:Hx; [| discriminate].
    apply lookup_singleton_Some in Hx as [<- <-]. intros [= <-]. now left.
  - destruct (String.eqb n name); cbn [Sw.matchAll].
    + destruct (<[url:=r]> c !! url') as [x|] eqn:Hx.
      * intros [= <-]. apply lookup_insert_Some in Hx as [[<- <-] | [_ Hx]].
        -- now left.
        -- right. now rewrite Hx.
      * apply lookup_insert_None in Hx as [Hx _]. rewrite Hx. now right.
    + destruct (c !! url'); [now right | exact IH].
Qed.

Lemma sound_openPut (name url : string) (r : Sw.Response)
    (stored : Sw.CacheStorage) :
  Sw.sound stored -> Sw.ok r = true -> Sw.sound (Sw.openPut name url r stored).
Proof.
  intros Hs Hr. induction stored as [|[n c] rest IH]; cbn [Sw.openPut].
  - intros n' c' u' r' [[= <- <-] | []] Hu.
    apply lookup_singleton_Some in Hu as [_ <-]. exact Hr.
  - assert (Hrest : Sw.sound rest).
    { intros n' c' u' r' Hin. apply (Hs n' c' u' r'). now right. }
    destruct (String.eqb n name).
    + intros n' c' u' r' [[= <- <-] | Hin] Hu.
      * apply lookup_insert_Some in Hu as [[_ <-] | [_ Hu]]; [exact Hr |].
        apply (Hs n c u' r'); [now left | exact Hu].
      * exact (Hrest n' c' u' r' Hin Hu).
    + intros n' c' u' r' [[= <- <-] | Hin] Hu.
      * apply (Hs n c u' r'); [now left | exact Hu].
      * exact (IH Hrest n' c' u' r' Hin Hu).
Qed.

Lemma sound_matchAll (stored : Sw.CacheStorage) (url : string)
    (r : Sw.Response) :
  Sw.sound stored -> Sw.matchAll stored url = Some r -> Sw.ok r = true.
Proof.
  induction stored as [|[n c] rest IH]; cbn [Sw.matchAll]; [discriminate |].
  intros Hs. destruct (c !! url) as [x|] eqn:Hx.
  - intros [= <-]. apply (Hs n c url x); [now left | exact Hx].
  - apply IH. intros n' c' u' r' Hin. apply (Hs n' c' u' r'). now right.
Qed.

Lemma sound_afterFetch (request : Sw.Request) (r : Sw.Response)
    (stored : Sw.CacheStorage) :
  Sw.sound stored -> Sw.sound (Sw.afterFetch request r stored).
Proof.
  intros Hs. unfold Sw.afterFetch. destruct (Sw.ok r) eqn:Hr; [| exact Hs].
  now apply sound_openPut.
Qed.

Lemma caches_of_onFetch (stored : Sw.CacheStorage) (request : Sw.Request)
    (served : Sw.Served) :
  Sw.onFetch net selfOrigin stored request = Some served ->
  Sw.caches served = stored \/
  exists r, net (Sw.url request) = Some r /\
            Sw.caches served = Sw.afterFetch request r stored.
Proof.
  unfold Sw.onFetch, Sw.cacheFirst, Sw.networkFirst.
  destruct (Sw.route selfOrigin request); [discriminate | |]; intros [= <-].
  - destruct (Sw.matchAll stored (Sw.url request)); [now left |].
    destruct (net (Sw.url request)) as [r|]; [right; now exists r |].
    destruct (String.eqb _ _); now left.
  - destruct (net (Sw.url request)) as [r|]; [right; now exists r |].
    destruct (Sw.matchAll stored (Sw.url request)); now left.
Qed.

Lemma sound_onActivate (stored : Sw.CacheStorage) :
  Sw.sound stored -> Sw.sound (Sw.onActivate stored).
Proof.
  intros Hs n c u r Hin. unfold Sw.onActivate in Hin.
  apply filter_In in Hin as [Hin _]. exact (Hs n c u r Hin).
Qed.

Lemma sound_serveAll (requests : list Sw.Request) :
  forall stored, Sw.sound stored ->
                 Sw.sound (Sw.serveAll net selfOrigin requests stored).
Proof.
  induction requests as [|request l IH]; intros stored Hs; [exact Hs |].
  unfold Sw.serveAll. cbn [fold_left].
  fold (Sw.serveAll net selfOrigin l). apply IH.
  destruct (Sw.onFetch net selfOrigin stored request) as [served|] eqn:Hf;
    [| exact Hs].
  destruct (caches_of_onFetch _ _ _ Hf) as [-> | (r & _ & ->)];
    [exact Hs | now apply sound_afterFetch].
Qed.

Lemma fetchAll_spec (urls : list string) (l : list (string * Sw.Response)) :
  Sw.fetchAll net urls = Some l ->
  map fst l = urls /\
  forall u r, In (u, r) l -> net u = Some r /\ Sw.ok r = true.
Proof.
  revert l. induction urls as [|u rest IH]; cbn [Sw.fetchAll]; intros l.
  - intros [= <-]. split; [reflexivity | intros u r []].
  - destruct (net u) as [r|] eqn:Hu; [| discriminate].
    destruct (Sw.fetchAll net rest) as [l'|]; [| discriminate].
    destruct (Sw.ok r) eqn:Hr; [| discriminate]. intros [= <-].
    destruct (IH l' eq_refl) as [Hmap Hall]. split.
    + cbn. now rewrite Hmap.
    + intros u' r' [[= <- <-] | Hin]; [now split | now apply Hall].
Qed.

Lemma fetchAll_complete (urls : list string) :
  (forall u, In u urls -> exists r, net u = Some r /\ Sw.ok r = true) ->
  exists l, Sw.fetchAll net urls = Some l.
Proof.
  induction urls as [|u rest IH]; intros Hall; [now eexists |].
  destruct (Hall u (or_introl eq_refl)) as (r & Hu & Hr).
  destruct IH as [l Hl]; [intros x Hx; apply Hall; now right |].
  cbn [Sw.fetchAll]. rewrite Hu, Hl, Hr. now eexists.
Qed.

Lemma matchAll_app_empty (stored : Sw.CacheStorage) (name url : string) :
  Sw.matchAll (stored ++ [(name, ∅)])%list url = Sw.matchAll stored url.
Proof.
  induction stored as [|[n c] rest IH]; cbn [Sw.matchAll app].
  - now rewrite lookup_empty.
  - destruct (c !! url); [reflexivity | exact IH].
Qed.

Lemma matchAll_openCache (stored : Sw.CacheStorage) (name url : string) :
  Sw.matchAll (Sw.openCache name stored) url = Sw.matchAll stored url.
Proof.
  unfold Sw.openCache. destruct (existsb _ stored); [reflexivity |].
  apply matchAll_app_empty.
Qed.

Lemma sound_openCache (stored : Sw.CacheStorage) (name : string) :
  Sw.sound stored -> Sw.sound (Sw.openCache name stored).
Proof.
  intros Hs. unfold Sw.openCache. destruct (existsb _ stored); [exact Hs |].
  intros n c u r Hin Hu. apply in_app_iff in Hin as [Hin | [[= <- <-] | []]].
  - exact (Hs n c u r Hin Hu).
  - now rewrite lookup_empty in Hu.
Qed.

Lemma hit_after_put (name url : string) (r : Sw.Response)
    (stored : Sw.CacheStorage) (url' : string) :
  url' = url \/ is_Some (Sw.matchAll stored url') ->
  is_Some (Sw.matchAll (Sw.openPut name url r stored) url').
Proof.
  induction stored as [|[n c] rest IH]; cbn [Sw.matchAll Sw.openPut].
  - intros [-> | [x [=]]]. rewrite lookup_singleton_eq. now eexists.
  - intros H. destruct (String.eqb n name); cbn [Sw.matchAll].
    + destruct (<[url:=r]> c !! url') as [x|] eqn:Hx; [now eexists |].
      apply lookup_insert_None in Hx as [Hx Hne]. rewrite Hx in H.
      destruct H as [-> | H]; [congruence | exact H].
    + destruct (c !! url'); [now eexists |]. now apply IH.
Qed.

Lemma hit_after_puts (name : string) (l : list (string * Sw.Response)) :
  forall (stored : Sw.CacheStorage) (url : string),
    In url (map fst l) \/ is_Some (Sw.matchAll stored url) ->
    is_Some
      (Sw.matchAll
         (fold_left (fun acc ur => Sw.openPut name (fst ur) (snd ur) acc)
            l stored) url).
Proof.
  induction l as [|[u r] l IH]; intros stored url H; cbn [fold_left fst snd].
  - destruct H as [[] | H]. exact H.
  - apply IH. cbn [map fst] in H. destruct H as [[<- | H] | H].
    + right. apply hit_after_put. now left.
    + now left.
    + right. apply hit_after_put. now right.
Qed.

Lemma sound_puts (name : string) (l : list (string * Sw.Response)) :
  forall stored : Sw.CacheStorage,
    (forall u r, In (u, r) l -> Sw.ok r = true) ->
    Sw.sound stored ->
    Sw.sound
      (fold_left (fun acc ur => Sw.openPut name (fst ur) (snd ur) acc)
         l stored).
Proof.
  induction l as [|[u r] l IH]; intros stored Hl Hs; [exact Hs |].
  cbn [fold_left fst snd]. apply IH.
  - intros u' r' Hin. apply (Hl u' r'). now right.
  - apply sound_openPut; [exact Hs |]. apply (Hl u r). now left.
Qed.

Lemma activated_names (stored : Sw.CacheStorage) (name : string)
    (cache : gmap string Sw.Response) :
  In (name, cache) (Sw.onActivate stored) ->
  In (name, cache) stored /\ name = Sw.CACHE_NAME.
Proof.
  unfold Sw.onActivate. intros Hin. apply filter_In in Hin as [Hin Hname].
  split; [exact Hin |]. now apply String.eqb_eq in Hname.
Qed.

Lemma matchAll_openPut_current (url : string) (r : Sw.Response)
    (stored : Sw.CacheStorage) :
  (forall name cache, In (name, cache) stored -> name = Sw.CACHE_NAME) ->
  Sw.matchAll (Sw.openPut Sw.CACHE_NAME url r stored) url = Some r.
Proof.
  destruct stored as [|[n c] rest]; cbn [Sw.matchAll Sw.openPut]; intros H.
  - now rewrite lookup_singleton_eq.
  - rewrite (H n c (or_introl eq_refl)), String.eqb_refl.
    cbn [Sw.matchAll]. now rewrite lookup_insert_eq.
Qed.

Lemma splitFrom_head (sep : string) (s acc : string) :
  exists pre post,
    s = pre ++ post /\
    hd EmptyString (Js.splitFrom sep 0 acc s) = acc ++ pre.
Proof.
  revert acc. induction s as [|c s IH]; intros acc.
  - exists EmptyString, EmptyString. split; [reflexivity |].
    cbn. now rewrite append_nil_r.
  - cbn [Js.splitFrom]. destruct (Js.startsWith (String c s) sep).
    + exists EmptyString, (String c s). split; [reflexivity |].
      cbn. now rewrite append_nil_r.
    + destruct (IH (acc ++ String c EmptyString)) as (pre & post & -> & Hhd).
      exists (String c pre), post. split; [reflexivity |].
      rewrite Hhd, append_assoc. reflexivity.
Qed.

Lemma includes_first_piece (s sep : string) :
  Js.includes s (hd EmptyString (Js.split s sep)) = true.
Proof.
  unfold Js.split.
  destruct (splitFrom_head sep s EmptyString) as (pre & post & Hs & Hhd).
  rewrite Hhd. apply includes_spec. exists EmptyString, post.
  now rewrite Hs at 1.
Qed.

End ServiceWorker.


(** X25. The installation is all or nothing.  It succeeds if and only
    if the network answers every URL of the list with an ok response.
    When it fails no response has been stored: every lookup answers as
    before.  When it succeeds every URL of the list is held by a cache, so
    that the cache-first strategy answers a request for it without going
    to the network, whatever the network then is. *)
Theorem install_is_all_or_nothing (net : string -> option Sw.Response)
    (selfOrigin : string) (stored : Sw.CacheStorage) :
  let result := Sw.onInstall net selfOrigin stored in
  (fst result = true <->
   forall path, In path Sw.urlsToCache ->
     exists r, net (selfOrigin ++ path) = Some r /\ Sw.ok r = true) /\
  (fst result = false ->
   forall url, Sw.matchAll (snd result) url = Sw.matchAll stored url) /\
  (fst result = true ->
   forall path (net' : string -> option Sw.Response) (request : Sw.Request),
     In path Sw.urlsToCache ->
     Sw.url request = selfOrigin ++ path ->
     Sw.fetched (Sw.cacheFirst net' selfOrigin (snd result) request) = false).
Proof.
  intros result. subst result. unfold Sw.onInstall. cbv zeta.
  destruct (Sw.fetchAll net (map (fun path => selfOrigin ++ path) Sw.urlsToCache))
    as [l|] eqn:Hl; cbn [fst snd].
  - destruct (fetchAll_spec net _ _ Hl) as [Hmap Hall]. split_and!.
    + split; [intros _ | reflexivity]. intros path Hpath.
      assert (Hin : In (selfOrigin ++ path) (map fst l)).
      { rewrite Hmap. apply in_map_iff. now exists path. }
      apply in_map_iff in Hin as ([u r] & Hu & Hin). cbn in Hu. subst u.
      exists r. now apply Hall.
    + discriminate.
    + intros _ path net' request Hpath Hurl.
      assert (Hhit : is_Some
                (Sw.matchAll
                   (fold_left
                      (fun acc ur =>
                         Sw.openPut Sw.CACHE_NAME (fst ur) (snd ur) acc)
                      l (Sw.openCache Sw.CACHE_NAME stored))
                   (Sw.url request))).
      { apply hit_after_puts. left. rewrite Hmap, Hurl.
        apply in_map_iff. now exists path. }
      destruct Hhit as [x Hx]. unfold Sw.cacheFirst. now rewrite Hx.
  - split_and!.
    + split; [discriminate |]. intros Hall.
      destruct (fetchAll_complete net
                  (map (fun path => selfOrigin ++ path) Sw.urlsToCache))
        as [l' Hl'].
      { intros u Hu. apply in_map_iff in Hu as (path & <- & Hpath).
        now apply Hall. }
      congruence.
    + intros _ url. apply matchAll_openCache.
    + discriminate.
Qed.

(** X26. The worker never stores a response that is not ok.  If every
    response held by the caches is ok, this still holds after an
    installation (successful or not), after an activation and after the
    worker has handled any sequence of requests.  A response the worker
    then serves that is not ok is therefore never a stored one: it is the
    answer the network just gave to this request, or the 503 placeholder
    of the cache-first strategy. *)
Theorem only_ok_responses_are_cached (net : string -> option Sw.Response)
    (selfOrigin : string) (stored : Sw.CacheStorage)
    (requests : list Sw.Request) (request : Sw.Request) :
  Sw.sound stored ->
  let later :=
    Sw.serveAll net selfOrigin requests
      (Sw.onActivate (snd (Sw.onInstall net selfOrigin stored))) in
  Sw.sound later /\
  forall served r,
    Sw.onFetch net selfOrigin later request = Some served ->
    Sw.response served = Some r ->
    Sw.ok r = false ->
    net (Sw.url request) = Some r \/ r = Sw.offline503.
Proof.
  intros Hs later.
  assert (Hlater : Sw.sound later).
  { subst later. apply sound_serveAll, sound_onActivate.
    unfold Sw.onInstall. cbv zeta.
    destruct (Sw.fetchAll net _) as [l|] eqn:Hl; cbn [snd].
    - destruct (fetchAll_spec net _ _ Hl) as [_ Hall].
      apply sound_puts; [| now apply sound_openCache].
      intros u r Hin. now apply (Hall u r).
    - now apply sound_openCache. }
  split; [exact Hlater |]. intros served r Hf Hr Hbad.
  assert (Hcached : forall u, Sw.matchAll later u <> Some r).
  { intros u Hu. rewrite (sound_matchAll _ _ _ Hlater Hu) in Hbad.
    discriminate. }
  revert Hf. unfold Sw.onFetch, Sw.cacheFirst, Sw.networkFirst.
  destruct (Sw.route selfOrigin request); [discriminate | |];
    intros [= <-]; revert Hr.
  - destruct (Sw.matchAll later (Sw.url request)) as [x|] eqn:Hx.
    { cbn. intros [= ->]. now destruct (Hcached _ Hx). }
    destruct (net (Sw.url request)) as [x|]; [cbn; intros [= ->]; now left |].
    destruct (String.eqb _ _); cbn.
    + intros Hu. now destruct (Hcached _ Hu).
    + intros [= <-]. now right.
  - destruct (net (Sw.url request)) as [x|]; [cbn; intros [= ->]; now left |].
    destruct (Sw.matchAll later (Sw.url request)) as [x|] eqn:Hx; cbn.
    + intros [= ->]. now destruct (Hcached _ Hx).
    + intros Hu. now destruct (Hcached _ Hu).
Qed.

(** X27. Once the worker is activated, only the current cache is left,
    with the responses it held.  From then on a page fetched network-first
    is always the network's answer, also when an older copy is cached, and
    an ok answer replaces the cached copy: when the network is down
    afterwards, the same request is answered with the last page
    fetched. *)
Theorem page_survives_going_offline (net : string -> option Sw.Response)
    (selfOrigin : string) (stored : Sw.CacheStorage)
    (request : Sw.Request) (r : Sw.Response) :
  net (Sw.url request) = Some r ->
  Sw.ok r = true ->
  let active := Sw.onActivate stored in
  let first := Sw.networkFirst net selfOrigin active request in
  (forall name cache,
     In (name, cache) active <->
     In (name, cache) stored /\ name = Sw.CACHE_NAME) /\
  Sw.response first = Some r /\
  forall net' : string -> option Sw.Response,
    net' (Sw.url request) = None ->
    Sw.response (Sw.networkFirst net' selfOrigin (Sw.caches first) request)
    = Some r.
Proof.
  intros Hnet Hok active first. split_and!.
  - intros name cache. split; [apply activated_names |].
    intros [Hin ->]. unfold active, Sw.onActivate. apply filter_In.
    split; [exact Hin | apply String.eqb_refl].
  - subst first. unfold Sw.networkFirst. now rewrite Hnet.
  - intros net' Hdown. subst first. unfold Sw.networkFirst.
    rewrite Hnet, Hdown. cbn [Sw.caches]. unfold Sw.afterFetch. rewrite Hok.
    rewrite matchAll_openPut_current; [reflexivity |].
    intros name cache Hin. now apply activated_names in Hin.
Qed.

(** X28. Which requests the worker answers.  A request whose method is
    not GET is always left to the browser.  A GET request to the worker's
    own origin is always answered, whatever that origin is; it is answered
    network-first exactly when it is a document whose URL mentions none of
    [.css], [.js], [.png] and [.jpg], and cache-first otherwise. *)
Theorem own_origin_requests_are_answered (net : string -> option Sw.Response)
    (selfOrigin : string) (stored : Sw.CacheStorage)
    (request : Sw.Request) :
  (Sw.method request <> "GET" ->
   Sw.onFetch net selfOrigin stored request = None) /\
  (Sw.method request = "GET" -> Sw.origin request = selfOrigin ->
   let static :=
     Js.includes (Sw.url request) ".css" ||
     Js.includes (Sw.url request) ".js" ||
     Js.includes (Sw.url request) ".png" ||
     Js.includes (Sw.url request) ".jpg" in
   Sw.onFetch net selfOrigin stored request
   = Some (if String.eqb (Sw.destination request) "document" && negb static
           then Sw.networkFirst net selfOrigin stored request
           else Sw.cacheFirst net selfOrigin stored request)).
Proof.
  split.
  - intros Hm. unfold Sw.onFetch, Sw.route.
    apply String.eqb_neq in Hm. now rewrite Hm.
  - intros Hm Ho static. unfold Sw.onFetch, Sw.route.
    rewrite Hm, Ho, includes_first_piece. cbn [String.eqb negb orb].
    change (Ascii.eqb "G" "G" && (Ascii.eqb "E" "E" && (Ascii.eqb "T" "T" && true)))
      with true.
    subst static.
    destruct (String.eqb (Sw.destination request) "style") eqn:H1.
    { apply String.eqb_eq in H1. rewrite H1. reflexivity. }
    destruct (String.eqb (Sw.destination request) "script") eqn:H2.
    { apply String.eqb_eq in H2. rewrite H2. reflexivity. }
    destruct (String.eqb (Sw.destination request) "image") eqn:H3.
    { apply String.eqb_eq in H3. rewrite H3. reflexivity. }
    cbn [orb].
    destruct (Js.includes (Sw.url request) ".css"),
             (Js.includes (Sw.url request) ".js"),
             (Js.includes (Sw.url request) ".png"),
             (Js.includes (Sw.url request) ".jpg");
      cbn [orb negb andb]; rewrite ?andb_false_r, ?andb_true_r;
      try reflexivity;
      destruct (String.eqb (Sw.destination request) "document"); reflexivity.
Qed.


Lemma only_ok_responses_are_cached_witness :
  Sw.sound
    (Sw.serveAll
       (fun u => Some (Sw.online "https://brooks266.github.io/x.png" u))
       Sw.site [Sw.indexRequest]
       (Sw.onActivate
          (snd (Sw.onInstall
                  (fun u => Some (Sw.online "https://brooks266.github.io/x.png" u))
                  Sw.site [])))).
Proof.
  destruct (only_ok_responses_are_cached
              (fun u => Some (Sw.online "https://brooks266.github.io/x.png" u))
              Sw.site [] [Sw.indexRequest] Sw.indexRequest)
    as [Hsound _].
  - intros name cache url r [].
  - exact Hsound.
Defined.

Lemma page_survives_going_offline_witness :
  Sw.response
    (Sw.networkFirst (fun _ => None) Sw.site
       (Sw.caches
          (Sw.networkFirst (fun _ => Some (Sw.page200 "new")) Sw.site
             (Sw.onActivate Sw.oldCaches) Sw.indexRequest))
       Sw.indexRequest)
  = Some (Sw.page200 "new").
Proof.
  destruct (page_survives_going_offline (fun _ => Some (Sw.page200 "new"))
              Sw.site Sw.oldCaches Sw.indexRequest (Sw.page200 "new")
              eq_refl eq_refl)
    as (_ & _ & Hoff).
  exact (Hoff (fun _ => None) eq_refl).
Defined.
